(** * HUFF.py: a Huffman codec for text files of base-10 integers

    Shallow embedding of [src/HUFF.py] and verification of its
    specification.  Python lists are [list]s indexed with stdpp's lookup
    and insert, Python [str] values are lists of characters, Python
    exceptions are an error of the result monad [res]. *)

From Stdlib Require Import ZArith Ascii String DecimalString.
From Equations Require Import Equations.
From stdpp Require Import base tactics option list numbers strings sets.

Open Scope char_scope.
Open Scope nat_scope.

Set Warnings "-clear-no-such-hyp".

(** ** Results of fallible code *)

Inductive error : Set :=
| IndexError       (* list index out of range *)
| ValueError       (* int(s, 2) on a string that is not binary; bytes() out of range *)
| TypeError        (* arithmetic on None, when rb meets the end of the file *)
| AssertionError   (* assert j <= i *)
| ZeroDivisionError (* bits/count with count = 0 *)
| OutOfFuel.       (* the model's iteration bound was reached *)

Inductive res (A : Type) : Type :=
| Ok (a : A)
| Err (e : error).
Arguments Ok {A} a.
Arguments Err {A} e.

#[export] Instance res_bind : MBind res := fun A B k m =>
  match m with
  | Ok a => k a
  | Err e => Err e
  end.

(** Python [str]: a list of characters. *)
Abbreviation str := (list ascii).

(** [l[i]] for a non-negative index. *)
Definition get_item {A} (l : list A) (i : nat) : res A :=
  match l !! i with
  | Some a => Ok a
  | None => Err IndexError
  end.

(** [l[i] = v] for a non-negative index. *)
Definition set_item {A} (l : list A) (i : nat) (v : A) : res (list A) :=
  if decide (i < length l) then Ok (<[i := v]> l) else Err IndexError.

(** Python's index rule for an integer that may be negative:
    [l[z]] is [l[len(l) + z]] when [-len(l) <= z < 0]. *)
Definition py_index (len : nat) (z : Z) : res nat :=
  if decide (0 <= z < Z.of_nat len)%Z then Ok (Z.to_nat z)
  else if decide (- Z.of_nat len <= z < 0)%Z then Ok (Z.to_nat (Z.of_nat len + z))
  else Err IndexError.

Definition py_get {A} (l : list A) (z : Z) : res A :=
  i ← py_index (length l) z; get_item l i.

(** ** The tree builder, [tree] *)

(** [root = 0xF + 11] *)
Definition root : nat := 15 + 11.

(** The priority queue holds tuples [(count, node)]; Python compares them
    lexicographically. *)
Definition item : Type := Z * nat.

Definition item_leb (x y : item) : bool :=
  (fst x <? fst y)%Z || ((fst x =? fst y)%Z && (snd x <=? snd y)).

(** [PriorityQueue]: [get] removes the least tuple.  The queue is kept as
    a list sorted in ascending order, so [get] takes the head and [put]
    inserts in order. *)
Fixpoint put (x : item) (q : list item) : list item :=
  match q with
  | [] => [x]
  | y :: q' => if item_leb x y then x :: q else y :: put x q'
  end.

(** [for symbol, count in enumerate(symbol_counts): q.put((count, symbol))] *)
Fixpoint fill_queue (symbol : nat) (symbol_counts : list Z) (q : list item) : list item :=
  match symbol_counts with
  | [] => q
  | count :: rest => fill_queue (S symbol) rest (put (count, symbol) q)
  end.

(** The loop [while not q.empty()] of [tree]. *)
Equations? join (q : list item) (tree : list nat) : res (list nat) by wf (length q) lt :=
  join [] tree := Ok tree;
  join [_] tree := Ok tree;                      (* nothing to join *)
  join ((ci, i) :: (cj, j) :: q') tree :=
    let k := length tree in
    let tree := tree ++ [root] in
    tree ← set_item tree i k;
    tree ← set_item tree j k;                    (* tree[i] = tree[j] = k *)
    join (put ((ci + cj)%Z, k) q') tree.
Proof.
  assert (Hput : forall x q, length (put x q) = S (length q)).
  { intros x q. induction q as [|y q IH]; simpl; [done|].
    destruct (item_leb x y); simpl; lia. }
  rewrite Hput. simpl. lia.
Qed.

Definition tree (symbol_counts : list Z) : res (list nat) :=
  join (fill_queue 0 symbol_counts []) (replicate 11 root).

#[global] Opaque join.


(** ** The code generator, [huffman] *)

(** [str(n)] for a non-negative integer. *)
Definition str_of_nat (n : nat) : str :=
  list_ascii_of_string (NilEmpty.string_of_uint (Nat.to_uint n)).

(** [for i in range(len(tree)-1, -1, -1)]: [huffman_loop tree (S i)] runs
    the body at [i] and goes on downwards.  The body only reads and writes
    inside the arrays ([i] and [parent] are below [len(tree)], the length
    of [code] and [children]), so the indexing is total here. *)
Fixpoint huffman_loop (tree : list nat) (n : nat) (code : list str) (children : list nat)
  : list str :=
  match n with
  | 0 => code
  | S i =>
      let parent := tree !!! i in
      if decide (parent < length tree) then
        let code := <[i := code !!! parent ++ str_of_nat (children !!! parent)]> code in
        let children := <[parent := children !!! parent + 1]> children in
        huffman_loop tree i code children
      else huffman_loop tree i code children       (* tree[i] is the root *)
  end.

(** The array [code] at the end of the loop, internal nodes included. *)
Definition huffman_codes (tree : list nat) : list str :=
  huffman_loop tree (length tree)
    (replicate (length tree) []) (replicate (length tree) 0).

(** [return code[:11]] *)
Definition huffman (tree : list nat) : list str := take 11 (huffman_codes tree).

(** ** ENCODE: reading the input *)

(** [str.isspace] on the characters below 256. *)
Definition is_space (c : ascii) : bool :=
  let n := nat_of_ascii c in
  ((9 <=? n) && (n <=? 13)) || ((28 <=? n) && (n <=? 32)) || (n =? 133) || (n =? 160).

Fixpoint lstrip (s : str) : str :=
  match s with
  | [] => []
  | c :: s' => if is_space c then lstrip s' else s
  end.

(** [line.strip()] *)
Definition strip (s : str) : str := reverse (lstrip (reverse (lstrip s))).

(** [ord(c)] *)
Definition ord (c : ascii) : Z := Z.of_nat (nat_of_ascii c).

(** [counts[digit] += 1] *)
Definition incr (counts : list Z) (digit : Z) : res (list Z) :=
  n ← py_index (length counts) digit;
  v ← get_item counts n;
  set_item counts n (v + 1)%Z.

(** The body of [for c in line.strip()], on the state
    [(leading, counts, text)]. *)
Definition scan_char (st : bool * list Z * list Z) (c : ascii)
  : res (bool * list Z * list Z) :=
  let '(leading, counts, text) := st in
  if leading && bool_decide (c = "0") then Ok st          (* continue *)
  else
    let '(c, leading) := if decide (c = "-") then ("0", leading) else (c, false) in
    let digit := (ord c - ord "0")%Z in
    counts ← incr counts digit;
    Ok (leading, counts, text ++ [digit]).

Fixpoint scan_chars (st : bool * list Z * list Z) (line : str)
  : res (bool * list Z * list Z) :=
  match line with
  | [] => Ok st
  | c :: line => st ← scan_char st c; scan_chars st line
  end.

(** The body of [for line in src], on the state [(i, counts, text)]. *)
Definition scan_line (st : nat * list Z * list Z) (line : str)
  : res (nat * list Z * list Z) :=
  let '(i, counts, text) := st in
  let i := i + 1 in
  '(_, counts, text) ← scan_chars (true, counts, text) (strip line);
  counts ← incr counts 10;
  Ok (i, counts, text ++ [10%Z]).

Fixpoint scan_lines (st : nat * list Z * list Z) (src : list str)
  : res (nat * list Z * list Z) :=
  match src with
  | [] => Ok st
  | line :: src => st ← scan_line st line; scan_lines st src
  end.

(** [### Read input] up to [text += [0, 0]]: the line count [i], the symbol
    counts and the token stream. *)
Definition read_input (src : list str) : res (nat * list Z * list Z) :=
  '(i, counts, text) ← scan_lines (0, replicate 11 0%Z, []) src;
  Ok (i, counts, text ++ [0%Z; 0%Z]).

(** ** ENCODE: the statistics *)

Fixpoint infos_loop (counts : list Z) (codes : list str) (range : list nat)
  (bits count : Z) : res (Z * Z) :=
  match range with
  | [] => Ok (bits, count)
  | n :: range =>
      c ← get_item counts n;
      code ← get_item codes n;
      infos_loop counts codes range (bits + c * Z.of_nat (length code))%Z (count + c)%Z
  end.

(** [# Infos]: what is printed is not modelled, the division
    [bits/count] is: it raises when [count] is zero. *)
Definition infos (counts : list Z) (codes : list str) : res () :=
  '(bits, count) ← infos_loop counts codes (seq 0 11) 0%Z 0%Z;
  if decide (count = 0%Z) then Err ZeroDivisionError else Ok ().

(** ** ENCODE: writing the output *)

Fixpoint bin_pos (p : positive) : str :=
  match p with
  | xH => ["1"]
  | xO p => bin_pos p ++ ["0"]
  | xI p => bin_pos p ++ ["1"]
  end.

Definition zfill (width : nat) (s : str) : str :=
  replicate (width - length s) "0" ++ s.

(** [f"{z:0{width}b}"]: binary, zero-padded after the sign. *)
Definition format_b (width : nat) (z : Z) : str :=
  match z with
  | Z0 => zfill width ["0"]
  | Zpos p => zfill width (bin_pos p)
  | Zneg p => "-" :: zfill (width - 1) (bin_pos p)
  end.

Definition bit_value (c : ascii) : option Z :=
  if decide (c = "0") then Some 0%Z
  else if decide (c = "1") then Some 1%Z
  else None.

Fixpoint int2_acc (acc : Z) (s : str) : option Z :=
  match s with
  | [] => Some acc
  | c :: s => b ← bit_value c; int2_acc (2 * acc + b)%Z s
  end.

(** [bytes((int(s, 2),))], for a string [s] made of the characters the
    formatters produce (decimal digits and the sign): it succeeds on a
    non-empty string of binary digits whose value is below 256. *)
Definition byte_of_bits (s : str) : res Z :=
  match s with
  | [] => Err ValueError
  | _ =>
      match int2_acc 0 s with
      | Some v => if decide (v < 256)%Z then Ok v else Err ValueError
      | None => Err ValueError
      end
  end.

(** [buffer = "".join([f"{n-11:04b}" for n in header])] *)
Definition header_bits (header : list nat) : str :=
  concat (map (fun n => format_b 4 (Z.of_nat n - 11)) header).

(** The loop [while (l:=len(buffer)) < 8].  The index [n] into [text] is
    kept as the tokens still to write, [text[n:]]. *)
Fixpoint load (codes : list str) (buffer : str) (text : list Z) : res (str * list Z) :=
  match text with
  | tok :: text' =>
      if decide (length buffer < 8) then
        code ← py_get codes tok;
        load codes (buffer ++ code) text'
      else Ok (buffer, text)
  | [] =>
      let l := length buffer in
      if decide (l < 8) then
        if decide (0 < l) then Ok (buffer ++ replicate (8 - l) "0", [])
        else Ok (buffer, [])                                     (* break *)
      else Ok (buffer, [])
  end.

(** One turn of [while n < len(text) or buffer != ""]: the byte written
    and the buffer and tokens left. *)
Definition write_step (codes : list str) (buffer : str) (text : list Z)
  : res (Z * str * list Z) :=
  byte ← byte_of_bits (take 8 buffer);
  '(buffer, text) ← load codes (drop 8 buffer) text;
  Ok (byte, buffer, text).

(** A bound on what is left to write: the buffered characters and, for
    each token, its code and a byte of padding. *)
Definition code_len (codes : list str) (tok : Z) : nat :=
  match py_get codes tok with
  | Ok code => length code
  | Err _ => 0
  end.

Definition pending (codes : list str) (buffer : str) (text : list Z) : nat :=
  length buffer + sum_list (map (fun tok => code_len codes tok + 8) text).

(** The loop [while n < len(text) or buffer != ""]. *)
Equations? write_loop (codes : list str) (buffer : str) (text : list Z) (out : list Z)
  : res (list Z) by wf (pending codes buffer text) lt :=
  write_loop codes buffer text out with bool_decide (text ≠ [] ∨ buffer ≠ []) := {
    | false := Ok out
    | true with Equations.Prop.Logic.inspect (write_step codes buffer text) := {
        | exist _ (Ok (byte, buffer', text')) H :=
            write_loop codes buffer' text' (out ++ [byte])
        | exist _ (Err e) _ := Err e } }.
Proof.
  assert (Hload : forall text b b' t', load codes b text = Ok (b', t') ->
            pending codes b' t' <= pending codes b text
            \/ (t' = [] /\ text = [] /\ 0 < length b < 8 /\ length b' = 8)).
  { clear. induction text as [|tok text IH]; intros b b' t' Hl; simpl in Hl.
    - repeat case_decide; simplify_eq; unfold pending; simpl;
        rewrite ?length_app, ?length_replicate; try lia.
      right. repeat split; lia.
    - case_decide; simplify_eq; [|left; lia].
      unfold pending, code_len in *. simpl.
      destruct (py_get codes tok) as [code|]; simpl in Hl; [|done].
      apply IH in Hl as [Hl|(-> & -> & Hb & Hb')].
      + left. rewrite length_app in Hl. lia.
      + left. simpl. rewrite length_app in Hb. lia. }
  unfold write_step in H.
  destruct (byte_of_bits (take 8 buffer)) as [b|] eqn:Hb; simpl in H; [|done].
  destruct (load codes (drop 8 buffer) text) as [[b1 t1]|] eqn:Hl; simpl in H; [|done].
  simplify_eq.
  assert (0 < length buffer) by (destruct buffer; simpl; [done|lia]).
  apply Hload in Hl as [Hl|(-> & -> & Hl & Hl')];
    unfold pending in *; simpl in *; rewrite length_drop in *; lia.
Qed.

#[global] Opaque write_loop.

(** [### Write output] *)
Definition write_output (header : list nat) (codes : list str) (text : list Z)
  : res (list Z) :=
  write_loop codes (header_bits header) text [].

(** The ENCODE half of the script: the line count [i] and the bytes of the
    [.huf] file. *)
Definition ENCODE (src : list str) : res (nat * list Z) :=
  '(i, counts, text) ← read_input src;
  header ← tree counts;
  let codes := huffman header in
  _ ← infos counts codes;
  file ← write_output header codes text;
  Ok (i, file).

(** ** DECODE *)

(** [# read header]: [src] is what [rb] has not read yet. *)
Fixpoint read_header (src : list Z) (header : list nat) : res (list nat * str * list Z) :=
  match src with
  | [] => Err TypeError                         (* rb returns None *)
  | byte :: src =>
      let a := Z.shiftr byte 4 in
      let b := Z.land byte 15 in
      let header := header ++ [Z.to_nat (a + 11)] in
      if decide (a ≠ 15%Z) then
        let header := header ++ [Z.to_nat (b + 11)] in
        if decide (b = 15%Z) then Ok (header, [], src)
        else read_header src header
      else Ok (header, format_b 4 b, src)
  end.

Record dstate : Type := DState {
  buffer : str;           (* bits read and not yet matched *)
  number : str;           (* current read number *)
  lines : list str;       (* the numbers printed to the output file *)
  j : nat;                (* count read numbers *)
  writing : bool }.

(** [len(buffer) >= (l := len(code)) and buffer[:l] == code] *)
Definition matches (buffer code : str) : bool :=
  bool_decide (length code <= length buffer) && bool_decide (take (length code) buffer = code).

(** [for n in range(10)]: the first digit whose code starts the buffer. *)
Fixpoint find_digit (codes : list str) (buffer : str) (range : list nat)
  : res (option (nat * str)) :=
  match range with
  | [] => Ok None
  | n :: range =>
      code ← get_item codes n;
      if matches buffer code then Ok (Some (n, code))
      else find_digit codes buffer range
  end.

(** [chr(ord('0') + n)] *)
Definition digit_char (n : nat) : ascii := ascii_of_nat (48 + n).

(** The inner [while True] loop; [fuel] bounds its turns, since with a
    header that gives a symbol the empty code it does not end. *)
Fixpoint decode_codes (fuel : nat) (codes : list str) (i : nat) (st : dstate) : res dstate :=
  match fuel with
  | 0 => Err OutOfFuel
  | S fuel =>
      if decide (number st = ["-"; "0"]) then                     (* EOF sequence *)
        Ok (DState (buffer st) (number st) (lines st) (j st) false)
      else
        sep ← py_get codes (-1);
        if matches (buffer st) sep then
          let buffer := drop (length sep) (buffer st) in
          let number := if decide (number st = []) then ["0"] else number st in
          let j := j st + 1 in
          if decide (j <= i) then
            decode_codes fuel codes i (DState buffer [] (lines st ++ [number]) j (writing st))
          else Err AssertionError
        else
          found ← find_digit codes (buffer st) (seq 0 10);
          match found with
          | Some (n, code) =>
              let number :=
                if decide (length (number st) = 0 ∧ n = 0) then ["-"]
                else number st ++ [digit_char n] in
              decode_codes fuel codes i
                (DState (drop (length code) (buffer st)) number (lines st) (j st) (writing st))
          | None => Ok st                      (* add more bytes in the buffer *)
          end
  end.

(** [while writing and (byte := rb(src)) is not None] *)
Fixpoint decode_loop (fuel : nat) (codes : list str) (i : nat) (src : list Z) (st : dstate)
  : res dstate :=
  if writing st then
    match src with
    | [] => Ok st
    | byte :: src =>
        st ← decode_codes fuel codes i
               (DState (buffer st ++ format_b 8 byte) (number st) (lines st) (j st) (writing st));
        decode_loop fuel codes i src st
    end
  else Ok st.

(** The DECODE half of the script, given the line count [i] of ENCODE and
    the bytes of the [.huf] file. *)
Definition DECODE (fuel : nat) (i : nat) (file : list Z) : res dstate :=
  '(header, buffer, src) ← read_header file [];
  let codes := huffman header in
  decode_loop fuel codes i src (DState buffer [] [] 0 true).

(** The whole script: the lines of the [.tmp] file. *)
Definition HUFF (fuel : nat) (src : list str) : res dstate :=
  '(i, file) ← ENCODE src;
  DECODE fuel i file.

(** * The vocabulary of the specification *)

(** What [tree] returns for a table of 11 counts: 21 nodes, the last one
    the root, every other node below its parent, and every internal node
    with exactly two children. *)
Record huffman_tree (t : list nat) : Prop := HuffmanTree {
  ht_length : length t = 21;
  ht_root : t !! 20 = Some root;
  ht_parent : forall x, x < 20 -> exists p, t !! x = Some p /\ 11 <= p /\ x < p < 21;
  ht_children : forall p, 11 <= p < 21 ->
    exists a b, a < b /\ t !! a = Some p /\ t !! b = Some p /\
                forall x, t !! x = Some p -> x = a \/ x = b }.

(** The invariant of the loop of [tree]: the nodes in the queue are the
    nodes that still hold the root marker. *)
Record tree_inv (q : list item) (t : list nat) : Prop := TreeInv {
  ti_length : length t + length q = 22;
  ti_leaves : 11 <= length t;
  ti_nodup : NoDup q.*2;
  ti_queue : forall x, x ∈ q.*2 -> x < length t;
  ti_root : forall x, x < length t -> (t !! x = Some root <-> x ∈ q.*2);
  ti_parent : forall x p, t !! x = Some p -> p <> root -> 11 <= p /\ x < p < length t;
  ti_children : forall p, 11 <= p < length t ->
    exists a b, a < b /\ t !! a = Some p /\ t !! b = Some p /\
                forall x, t !! x = Some p -> x = a \/ x = b;
  ti_last : 11 < length t -> length t - 1 ∈ q.*2 }.

(** The number of children of [p] among the nodes [m], [m+1], ... *)
Definition cnt (t : list nat) (m p : nat) : nat :=
  length (filter (fun y => t !!! y = p) (seq m (length t - m))).

(** The code of node [x] once the loop has passed it. *)
Definition code_ok (t : list nat) (C : list str) (x : nat) : Prop :=
  if decide (t !!! x < length t)
  then C !!! x = C !!! (t !!! x) ++ str_of_nat (cnt t (S x) (t !!! x))
  else C !!! x = [].

Definition binary (s : str) : Prop := Forall (fun c => c = "0" \/ c = "1") s.

#[local] Instance binary_dec s : Decision (binary s).
Proof. unfold binary. apply _. Defined.

#[local] Instance error_eq_dec : EqDecision error.
Proof. solve_decision. Defined.

#[local] Instance res_eq_dec {A} `{EqDecision A} : EqDecision (res A).
Proof. solve_decision. Defined.

(** The bits of a list of bytes, as the decoder loads them into its
    buffer. *)
Definition bits_of (bytes : list Z) : str := concat (map (format_b 8) bytes).

(** The codes of a token stream, one after the other. *)
Definition payload (codes : list str) (text : list Z) : str :=
  concat (map (fun tok => match py_get codes tok with Ok c => c | Err _ => [] end) text).

Definition symbol (tok : Z) : Prop := (0 <= tok < 11)%Z.

Definition zeros (s : str) : Prop := Forall (fun c => c = "0") s.

Definition byte (v : Z) : Prop := (0 <= v < 256)%Z.

(** A code table for the 11 symbols: binary, and no code empty. *)
Record code_table (codes : list str) : Prop := CodeTable {
  ct_length : length codes = 11;
  ct_binary : Forall binary codes;
  ct_nonempty : Forall (fun c => c <> []) codes }.

Definition field (n : nat) : str := format_b 4 (Z.of_nat n - 11).

Definition prefix_free (codes : list str) : Prop :=
  forall x y cx cy, x <> y -> codes !! x = Some cx -> codes !! y = Some cy ->
    ~ cx `prefix_of` cy.

Definition with_buffer (b : str) (st : dstate) : dstate :=
  DState b (number st) (lines st) (j st) (writing st).

Definition ended (st : dstate) : dstate :=
  DState (buffer st) (number st) (lines st) (j st) false.

(** What the decoder does with its number, lines and count when it matches
    the code of [tok]. *)
Definition feed (tok : Z) (st : dstate) : dstate :=
  if decide (tok = 10%Z) then
    DState (buffer st) []
      (lines st ++ [if decide (number st = []) then ["0"] else number st])
      (j st + 1) (writing st)
  else
    DState (buffer st)
      (if decide (length (number st) = 0 /\ Z.to_nat tok = 0) then ["-"]
       else number st ++ [digit_char (Z.to_nat tok)])
      (lines st) (j st) (writing st).

Fixpoint feeds (toks : list Z) (st : dstate) : dstate :=
  match toks with
  | [] => st
  | tok :: toks => feeds toks (feed tok st)
  end.

Definition is_digit (c : ascii) : Prop := 48 <= nat_of_ascii c <= 57.

(** A line of the input, stripped: an optional sign, then digits. *)
Definition int_line (l : str) : Prop :=
  exists ds, Forall is_digit ds /\ (l = ds \/ l = "-" :: ds).

(** A canonical integer: [0], or an optional sign and digits that do not
    start with [0]. *)
Definition canonical (l : str) : Prop :=
  l = ["0"] \/
  exists d ds, is_digit d /\ d <> "0" /\ Forall is_digit ds /\
               (l = d :: ds \/ l = "-" :: d :: ds).

Fixpoint strip0 (ds : str) : str :=
  match ds with
  | [] => []
  | c :: ds' => if decide (c = "0") then strip0 ds' else ds
  end.

Definition digit_val (c : ascii) : Z := (ord c - ord "0")%Z.

(** The tokens the tokenizer emits for a line, before the separator. *)
Definition line_toks (l : str) : list Z :=
  match l with
  | [] => []
  | c :: ds =>
      if decide (c = "-") then 0%Z :: map digit_val (strip0 ds)
      else map digit_val (strip0 l)
  end.

(** The line the decoder prints for the tokens of a line. *)
Definition normalize (l : str) : str :=
  match l with
  | [] => ["0"]
  | c :: ds =>
      if decide (c = "-") then "-" :: strip0 ds
      else if decide (strip0 l = []) then ["0"] else strip0 l
  end.

(** The token stream of the lines, before the EOF sequence. *)
Definition data (ls : list str) : list Z :=
  concat (map (fun l => line_toks l ++ [10%Z]) ls).

Definition total (counts : list Z) : Z := foldr Z.add 0%Z counts.

(** The counts after the tokens [toks] are counted. *)
Definition bump (counts : list Z) (tok : Z) : list Z :=
  <[Z.to_nat tok := (counts !!! Z.to_nat tok + 1)%Z]> counts.

Definition tally (counts : list Z) (toks : list Z) : list Z := foldl bump counts toks.

(** The decoder has not met the EOF sequence before any token of [toks]. *)
Fixpoint live (toks : list Z) (st : dstate) : Prop :=
  match toks with
  | [] => True
  | tok :: toks => number st <> ["-"; "0"] /\ live toks (feed tok st)
  end.

(** No digit appended to [num] makes it the EOF sequence. *)
Definition safe_number (num : str) : Prop :=
  num <> [] /\ forall rest, num ++ rest <> ["-"; "0"].

(** The state of the decoder at the end: it has printed the lines [ls],
    counted them, and stopped on the EOF sequence. *)
Definition decoded (ls : list str) (st : dstate) : Prop :=
  number st = ["-"; "0"] /\ lines st = ls /\ j st = length ls /\ writing st = false.

Definition newline : ascii := ascii_of_nat 10.

(** The counts of scenario A of the specification, the lines [007], [-42],
    [0] and [-0007]. *)
Definition sample_counts : list Z := [2; 0; 1; 0; 1; 0; 0; 2; 0; 0; 4]%Z.

(** A file of three lines; the last one has no line terminator. *)
Definition sample_file : list str :=
  [["7"; newline]; ["-"; "4"; "2"; newline]; ["0"]].

(** A file with the line [-0]. *)
Definition minus_zero_file : list str := [["5"; newline]; ["-"; "0"; newline]].

(** ** Further notions, for the properties beyond the claims *)

(** The integers that index the 11 slots of [counts] and [codes]: Python
    takes a negative index from the end of the list. *)
Definition token (tok : Z) : Prop := (-11 <= tok < 11)%Z.

(** The slot that the token [tok] indexes. *)
Definition slot (tok : Z) : nat :=
  if decide (0 <= tok)%Z then Z.to_nat tok else Z.to_nat (11 + tok).

(** How many tokens of [toks] index the slot [n]. *)
Definition occurrences (n : nat) (toks : list Z) : Z :=
  Z.of_nat (length (filter (fun tok => slot tok = n) toks)).

(** The characters whose token indexes a slot: [%] to [:]. *)
Definition in_charset (c : ascii) : Prop := 37 <= nat_of_ascii c <= 58.

#[local] Instance in_charset_dec c : Decision (in_charset c).
Proof. unfold in_charset. apply _. Defined.

(** A line with a character that the tokenizer cannot count. *)
Definition bad_line (line : str) : Prop :=
  Exists (fun c => ~ in_charset c) (strip line).

#[local] Instance bad_line_dec line : Decision (bad_line line).
Proof. unfold bad_line. apply _. Defined.

(** The invariant of the tokenizer: the counts are the numbers of tokens
    emitted, slot by slot. *)
Definition counted (counts0 : list Z) (text0 : list Z) (counts text : list Z) : Prop :=
  length counts = 11 /\
  exists toks, text = text0 ++ toks /\ Forall token toks /\
    total counts = (total counts0 + Z.of_nat (length toks))%Z /\
    forall n, n < 11 -> counts !!! n = (counts0 !!! n + occurrences n toks)%Z.

(** The lines of the [.tmp] file as a reader meets them: [print] ends each
    number with a line terminator. *)
Definition printed (ls : list str) : list str := map (fun l => l ++ [newline]) ls.

(** The numbers the decoder builds, whatever the file: nothing yet, the
    sign alone, the EOF sequence, or an optional sign and digits that do not
    start with [0]. *)
Definition partial_number (num : str) : Prop :=
  num = [] \/ num = ["-"] \/ num = ["-"; "0"] \/
  exists d ds, is_digit d /\ d <> "0" /\ Forall is_digit ds /\
               (num = d :: ds \/ num = "-" :: d :: ds).

(** The invariant of the decoder, whatever the file and the code table. *)
Record sound (i : nat) (st : dstate) : Prop := Sound {
  sound_j : j st <= i;
  sound_lines : length (lines st) = j st;
  sound_printed : Forall (fun l => l = ["-"] \/ canonical l) (lines st);
  sound_number : partial_number (number st) }.

(** A file with the header that ENCODE writes for [sample_file], and other
    bytes after it. *)
Definition corrupt_file : list Z :=
  [80; 96; 97; 23; 34; 147; 52; 69; 120; 137; 243; 201; 77; 16]%Z.

(** The order of the priority queue. *)
Definition item_le (x y : item) : Prop := item_leb x y = true.

(** A queue in ascending order: each tuple is below all that follow. *)
Fixpoint ascending (q : list item) : Prop :=
  match q with
  | [] => True
  | x :: q => Forall (item_le x) q /\ ascending q
  end.

(** The weight of a code in Kraft's sum, in units of [2^-10]: a code of
    [n] bits weighs [2^(10-n)]. *)
Definition kraft_weight (c : str) : nat := 2 ^ (10 - length c).

Definition kraft_sum (codes : list str) : nat := sum_list_with kraft_weight codes.

(** The weight of the nodes below [k] whose parent is [m] or above: of
    the nodes that are roots when only the nodes below [m] are joined. *)
Fixpoint frontier (t : list nat) (C : list str) (m k : nat) : nat :=
  match k with
  | 0 => 0
  | S k => frontier t C m k + (if decide (m <= t !!! k) then kraft_weight (C !!! k) else 0)
  end.

(** The weight of the children of [m] below [k]. *)
Fixpoint children_weight (t : list nat) (C : list str) (m k : nat) : nat :=
  match k with
  | 0 => 0
  | S k => children_weight t C m k + (if decide (t !!! k = m) then kraft_weight (C !!! k) else 0)
  end.

(** [bits] at the end of the loop of the statistics over [range]: for each
    symbol, its count times the length of its code. *)
Definition code_bits (counts : list Z) (codes : list str) (range : list nat) : Z :=
  foldr (fun n acc => (counts !!! n * Z.of_nat (length (codes !!! n)) + acc)%Z) 0%Z range.

(** The invariant of the loop of [tree] on the order of the nodes.  [W]
    holds the count of every node made so far, the sum of the counts of its
    children for an internal node.  The nodes leave the queue in ascending
    order of their tuples, and the sums that enter it do not decrease. *)
Record order_inv (counts : list Z) (q : list item) (t : list nat) (W : list Z) : Prop :=
  OrderInv {
  oi_length : length W = length t;
  oi_nonneg : Forall (fun c => 0 <= c)%Z W;
  oi_leaves : forall x, x < 11 -> W !!! x = counts !!! x;
  oi_queue : forall c x, (c, x) ∈ q -> W !! x = Some c;
  oi_sorted : ascending q;
  oi_removed : forall x p c y,
    t !! x = Some p -> p <> root -> (c, y) ∈ q -> item_le (W !!! x, x) (c, y);
  oi_order : forall x y px py,
    t !! x = Some px -> t !! y = Some py -> px < py -> py <> root ->
    item_le (W !!! x, x) (W !!! y, y);
  oi_pairs : forall p c y c' y',
    11 <= p < length t -> (c, y) ∈ q -> (c', y') ∈ q -> y <> y' ->
    (W !!! p <= c + c')%Z;
  oi_mono : forall p p', 11 <= p <= p' -> p' < length t -> (W !!! p <= W !!! p')%Z }.

(** The bytes of a header that no run of [tree] makes: 15 fields, in which
    node 1 is marked with 25, past the end of the array, and the nodes 11,
    12 and 13 are three children of the root. *)
Definition stray_header : list Z := [14; 0; 0; 0; 0; 3; 51; 240]%Z.

(** The code table of [stray_header]: the code of symbol 1 is empty, and
    the other codes start with the ordinal 2 of node 11. *)
Definition stray_codes : list str :=
  [["2"; "9"]; []; ["2"; "8"]; ["2"; "7"]; ["2"; "6"]; ["2"; "5"]; ["2"; "4"];
   ["2"; "3"]; ["2"; "2"]; ["2"; "1"]; ["2"; "0"]].

(** * Verification *)

(** ** The tree builder *)

Lemma length_put x q : length (put x q) = S (length q).
Proof.
  induction q as [|y q IH]; simpl; [done|].
  destruct (item_leb x y); simpl; lia.
Qed.

Lemma put_perm x q : put x q ≡ₚ x :: q.
Proof.
  induction q as [|y q IH]; simpl; [done|].
  destruct (item_leb x y); [done|].
  rewrite IH. apply Permutation_swap.
Qed.

Lemma fill_queue_perm counts : forall symbol q,
  (fill_queue symbol counts q).*2 ≡ₚ seq symbol (length counts) ++ q.*2.
Proof.
  induction counts as [|c counts IH]; intros symbol q; simpl; [done|].
  rewrite IH, put_perm. simpl.
  by rewrite Permutation_middle.
Qed.

Lemma length_fill_queue counts : forall symbol q,
  length (fill_queue symbol counts q) = length counts + length q.
Proof.
  induction counts as [|c counts IH]; intros symbol q; simpl; [done|].
  rewrite IH, length_put. lia.
Qed.

Lemma tree_inv_init counts :
  length counts = 11 -> tree_inv (fill_queue 0 counts []) (replicate 11 root).
Proof.
  intros Hlen.
  assert (Hq : (fill_queue 0 counts []).*2 ≡ₚ seq 0 11).
  { rewrite fill_queue_perm, Hlen. by rewrite fmap_nil, app_nil_r. }
  split.
  - rewrite length_fill_queue, length_replicate. simpl. lia.
  - by rewrite length_replicate.
  - rewrite Hq. apply NoDup_seq.
  - intros x. rewrite Hq, length_replicate, elem_of_seq. lia.
  - intros x. rewrite Hq, length_replicate, elem_of_seq. intros Hx.
    rewrite lookup_replicate_2 by done. split; [lia|done].
  - intros x p [-> _]%lookup_replicate. done.
  - rewrite length_replicate. lia.
  - rewrite length_replicate. lia.
Qed.

Lemma lookup_joined (t : list nat) i j x p :
  i < length t -> j < length t ->
  <[j := length t]> (<[i := length t]> (t ++ [root])) !! x = Some p <->
    (x = i /\ p = length t) \/ (x = j /\ p = length t) \/
    (x = length t /\ p = root) \/ (x <> i /\ x <> j /\ t !! x = Some p).
Proof.
  intros Hi Hj.
  rewrite list_lookup_insert_Some, list_lookup_insert_Some, lookup_snoc_Some.
  rewrite !length_insert, length_app. simpl.
  split.
  { intros [(-> & <- & _)|[? [(-> & <- & _)|[? [[? ?]|[-> <-]]]]]]; auto 10. }
  intros [[-> ->]|[[-> ->]|[[-> ->]|(? & ? & Hx)]]].
  - destruct (decide (j = i)) as [->|]; [left|right]; [lia|].
    split; [done|]. left. lia.
  - left. lia.
  - right. split; [lia|]. right. split; [lia|]. right. done.
  - right. split; [done|]. right. split; [done|]. left.
    split; [|done]. by apply lookup_lt_Some in Hx.
Qed.

Lemma tree_inv_step ci i cj j q t :
  tree_inv ((ci, i) :: (cj, j) :: q) t ->
  i < length t /\ j < length t /\
  tree_inv (put ((ci + cj)%Z, length t) q)
           (<[j := length t]> (<[i := length t]> (t ++ [root]))).
Proof.
  intros [Hlen Hleaves Hnd Hq Hroot Hpar Hch Hlast].
  simpl in *.
  assert (Hi : i < length t) by (apply Hq; set_solver).
  assert (Hj : j < length t) by (apply Hq; set_solver).
  apply NoDup_cons in Hnd as [Hiq Hnd]. apply NoDup_cons in Hnd as [Hjq Hnd].
  assert (Hij : i <> j) by set_solver.
  assert (Hk : length t < root) by (unfold root; lia).
  assert (Hids : (put ((ci + cj)%Z, length t) q).*2 ≡ₚ length t :: q.*2)
    by (by rewrite put_perm).
  assert (Hti : t !! i = Some root) by (apply Hroot; [done|set_solver]).
  assert (Htj : t !! j = Some root) by (apply Hroot; [done|set_solver]).
  split; [done|]. split; [done|].
  split.
  - rewrite !length_insert, length_app, length_put. simpl. lia.
  - rewrite !length_insert, length_app. lia.
  - rewrite Hids. apply NoDup_cons. split; [|done].
    intros Hin. assert (length t < length t) by (apply Hq; set_solver). lia.
  - intros x. rewrite Hids, !length_insert, length_app. simpl.
    intros [->|Hx]%elem_of_cons; [lia|].
    assert (x < length t) by (apply Hq; set_solver). lia.
  - intros x. rewrite Hids, !length_insert, length_app, lookup_joined by done.
    simpl. intros Hx. rewrite elem_of_cons.
    destruct (decide (x = length t)) as [->|Hxk].
    { split; [auto|]. intros _. right. right. left. done. }
    specialize (Hroot x ltac:(lia)).
    split.
    + intros [[-> ?]|[[-> ?]|[[-> ?]|(? & ? & Hx')]]]; try lia.
      right. apply Hroot in Hx'. set_solver.
    + intros [->|Hx']; [done|].
      right. right. right.
      split; [set_solver|]. split; [set_solver|]. apply Hroot. set_solver.
  - intros x p. rewrite lookup_joined, !length_insert, length_app by done. simpl.
    intros [[-> ->]|[[-> ->]|[[-> ->]|(? & ? & Hx')]]] Hp; try lia.
    destruct (Hpar x p Hx' Hp). lia.
  - intros p. rewrite !length_insert, length_app. simpl. intros Hp.
    destruct (decide (p = length t)) as [->|Hpk].
    + assert (Hwit : forall x, <[j := length t]> (<[i := length t]> (t ++ [root])) !! x
                = Some (length t) -> x = i \/ x = j).
      { intros x. rewrite lookup_joined by done.
        intros [[-> _]|[[-> _]|[[-> ?]|(? & ? & Hx')]]]; auto; [lia|].
        destruct (Hpar x _ Hx'); lia. }
      assert (Hli : <[j := length t]> (<[i := length t]> (t ++ [root])) !! i
                = Some (length t)) by (apply lookup_joined; auto).
      assert (Hlj : <[j := length t]> (<[i := length t]> (t ++ [root])) !! j
                = Some (length t)) by (apply lookup_joined; auto).
      destruct (decide (i < j)).
      * exists i, j. auto.
      * exists j, i. split; [lia|]. split; [done|]. split; [done|].
        intros x Hx. destruct (Hwit x Hx); auto.
    + destruct (Hch p ltac:(lia)) as (a & b & Hab & Ha & Hb & Hall).
      assert (Hnot : forall x, t !! x = Some p -> x <> i /\ x <> j).
      { intros x Hx. split; intros ->; simplify_eq; lia. }
      exists a, b. split; [done|].
      split; [apply lookup_joined; [done..|]; destruct (Hnot a Ha); do 3 right; auto|].
      split; [apply lookup_joined; [done..|]; destruct (Hnot b Hb); do 3 right; auto|].
      intros x. rewrite lookup_joined by done.
      intros [[-> ?]|[[-> ?]|[[-> ?]|(? & ? & Hx')]]]; try lia. auto.
  - intros _. rewrite Hids, !length_insert, length_app. simpl.
    replace (length t + 1 - 1) with (length t) by lia. set_solver.
Qed.

Lemma tree_inv_final c i t : tree_inv [(c, i)] t -> huffman_tree t.
Proof.
  intros [Hlen Hleaves Hnd Hq Hroot Hpar Hch Hlast]. simpl in *.
  assert (Hl : length t = 21) by lia.
  assert (i = 20) as -> by (rewrite Hl in Hlast; set_solver by lia).
  split; [done|..].
  - apply Hroot; [lia|set_solver].
  - intros x Hx.
    destruct (lookup_lt_is_Some_2 t x ltac:(lia)) as [p Hp].
    assert (p <> root).
    { intros ->. apply Hroot in Hp; [|lia]. set_solver by lia. }
    exists p. split; [done|]. destruct (Hpar x p Hp); lia.
  - intros p Hp. apply Hch. lia.
Qed.

Lemma join_huffman_tree n : forall q t,
  length q = n -> tree_inv q t -> exists t', join q t = Ok t' /\ huffman_tree t'.
Proof.
  induction n as [n IH] using lt_wf_ind. intros q t Hn Hinv.
  destruct q as [|[ci i] [|[cj j] q]].
  - destruct Hinv as [Hlen Hleaves _ _ _ _ _ Hlast]. simpl in *.
    assert (length t - 1 < length t) by lia. set_solver by lia.
  - simp join. eauto using tree_inv_final.
  - simp join. simpl.
    destruct (tree_inv_step _ _ _ _ _ _ Hinv) as (Hi & Hj & Hinv').
    unfold set_item.
    rewrite decide_True by (rewrite length_app; simpl; lia). simpl.
    rewrite decide_True by (rewrite length_insert, length_app; simpl; lia). simpl.
    eapply IH; [|done|done]. rewrite length_put. simpl in Hn. lia.
Qed.

Lemma tree_huffman_tree counts :
  length counts = 11 -> exists t, tree counts = Ok t /\ huffman_tree t.
Proof.
  intros Hlen. unfold tree.
  eapply join_huffman_tree; [done|]. by apply tree_inv_init.
Qed.

(** ** The code generator *)

Lemma cnt_step t i p :
  i < length t ->
  cnt t i p = (if decide (t !!! i = p) then 1 else 0) + cnt t (S i) p.
Proof.
  intros Hi. unfold cnt.
  replace (length t - i) with (S (length t - S i)) by lia.
  simpl. rewrite filter_cons. by case_decide.
Qed.

Lemma huffman_loop_spec t :
  (forall x, x < length t -> x < t !!! x) ->
  forall m code children,
    m <= length t -> length code = length t -> length children = length t ->
    (forall x, x < m -> code !!! x = []) ->
    (forall x, m <= x < length t -> code_ok t code x) ->
    (forall p, p < length t -> children !!! p = cnt t m p) ->
    length (huffman_loop t m code children) = length t /\
    forall x, x < length t -> code_ok t (huffman_loop t m code children) x.
Proof.
  intros Hup. induction m as [|i IH]; intros code children Hm Hlc Hlch Hnil Hok Hcnt.
  { simpl. split; [done|]. intros x Hx. apply Hok. lia. }
  simpl. case_decide as Hp.
  - apply IH.
    + lia.
    + by rewrite length_insert.
    + by rewrite length_insert.
    + intros x Hx. rewrite list_lookup_total_insert_ne; [|lia]. apply Hnil. lia.
    + intros x Hx. unfold code_ok.
      specialize (Hup x ltac:(lia)).
      destruct (decide (x = i)) as [->|Hxi].
      * rewrite decide_True by done.
        rewrite list_lookup_total_insert_eq; [|lia].
        rewrite list_lookup_total_insert_ne; [|lia].
        by rewrite Hcnt.
      * specialize (Hok x ltac:(lia)). unfold code_ok in Hok.
        rewrite !list_lookup_total_insert_ne; [done|lia..].
    + intros p Hpn. rewrite (cnt_step t i) by lia.
      destruct (decide (t !!! i = p)) as [<-|Hne].
      * rewrite list_lookup_total_insert_eq; [|lia]. rewrite Hcnt by done. lia.
      * rewrite list_lookup_total_insert_ne; [|done]. by apply Hcnt.
  - apply IH; [lia|done|done|..].
    + intros x Hx. apply Hnil. lia.
    + intros x Hx. destruct (decide (x = i)) as [->|Hxi]; [|apply Hok; lia].
      unfold code_ok. rewrite decide_False by done. apply Hnil. lia.
    + intros p Hpn. rewrite (cnt_step t i) by lia.
      rewrite decide_False by lia. by apply Hcnt.
Qed.

Lemma huffman_codes_spec t :
  (forall x, x < length t -> x < t !!! x) ->
  length (huffman_codes t) = length t /\
  forall x, x < length t -> code_ok t (huffman_codes t) x.
Proof.
  intros Hup. unfold huffman_codes. apply huffman_loop_spec; try done.
  - by rewrite length_replicate.
  - by rewrite length_replicate.
  - intros x Hx. by rewrite lookup_total_replicate_2.
  - intros x Hx. lia.
  - intros p Hp. rewrite lookup_total_replicate_2 by done.
    unfold cnt. by rewrite Nat.sub_diag.
Qed.

Lemma cnt_none t p : forall k m,
  length t - m = k ->
  (forall y, m <= y < length t -> t !!! y <> p) ->
  cnt t m p = 0.
Proof.
  induction k as [|k IH]; intros m Hk Hall.
  - unfold cnt. by rewrite Hk.
  - rewrite cnt_step by lia. rewrite decide_False by (apply Hall; lia).
    apply IH; [lia|]. intros y Hy. apply Hall. lia.
Qed.

Lemma cnt_one t p b : forall k m,
  length t - m = k -> m <= b < length t -> t !!! b = p ->
  (forall y, m <= y < length t -> t !!! y = p -> y = b) ->
  cnt t m p = 1.
Proof.
  induction k as [|k IH]; intros m Hk Hb Hp Hall; [lia|].
  rewrite cnt_step by lia.
  destruct (decide (m = b)) as [->|Hmb].
  - rewrite decide_True by done.
    rewrite (cnt_none t p k); [done|lia|].
    intros y Hy Hyp. apply Hall in Hyp; lia.
  - rewrite decide_False by (intros Hm; apply Hall in Hm; lia).
    apply IH; [lia|lia|done|]. intros y Hy. apply Hall. lia.
Qed.

Lemma huffman_tree_lookup t x :
  huffman_tree t -> x < 21 -> t !! x = Some (t !!! x).
Proof.
  intros Ht Hx. apply list_lookup_lookup_total_lt. by rewrite (ht_length t).
Qed.

Lemma huffman_tree_above t x : huffman_tree t -> x < length t -> x < t !!! x.
Proof.
  intros Ht. rewrite (ht_length t) by done. intros Hx.
  destruct (decide (x = 20)) as [->|Hne].
  - pose proof (ht_root t Ht) as Hr.
    rewrite (huffman_tree_lookup t 20 Ht) in Hr by lia.
    injection Hr as ->. unfold root. lia.
  - destruct (ht_parent t Ht x ltac:(lia)) as (p & Hp & ? & ?).
    rewrite (huffman_tree_lookup t x Ht) in Hp by lia.
    injection Hp as ->. lia.
Qed.

(** The codes of a tree of the builder: the root has the empty code; of
    the two children of an internal node, the one in the higher slot is
    visited first and extends the code of its parent with [0], the one in
    the lower slot extends it with [1]. *)
Lemma huffman_tree_codes t :
  huffman_tree t ->
  length (huffman_codes t) = 21 /\
  huffman_codes t !!! 20 = [] /\
  forall p a b,
    11 <= p < 21 -> a < b -> t !! a = Some p -> t !! b = Some p ->
    (forall x, t !! x = Some p -> x = a \/ x = b) ->
    huffman_codes t !!! b = huffman_codes t !!! p ++ ["0"] /\
    huffman_codes t !!! a = huffman_codes t !!! p ++ ["1"].
Proof.
  intros Ht.
  destruct (huffman_codes_spec t) as [Hlen Hok];
    [intros x; by apply huffman_tree_above|].
  pose proof (ht_length t Ht) as Hl. rewrite Hl in *.
  split; [done|]. split.
  - specialize (Hok 20 ltac:(lia)). unfold code_ok in Hok.
    pose proof (ht_root t Ht) as Hr.
    rewrite (huffman_tree_lookup t 20 Ht) in Hr by lia. injection Hr as Hr.
    rewrite Hr, Hl in Hok. by rewrite decide_False in Hok by (unfold root; lia).
  - intros p a b Hp Hab Ha Hb Hall.
    assert (b < 21) by (apply lookup_lt_Some in Hb; lia).
    assert (Ha' : t !!! a = p) by (by apply list_lookup_total_correct).
    assert (Hb' : t !!! b = p) by (by apply list_lookup_total_correct).
    assert (Hall' : forall y, y < 21 -> t !!! y = p -> y = a \/ y = b).
    { intros y Hy Hyp. apply Hall. rewrite <- Hyp. by apply huffman_tree_lookup. }
    split.
    + specialize (Hok b ltac:(lia)). unfold code_ok in Hok.
      rewrite Hb', decide_True in Hok by lia. rewrite Hok. f_equal.
      rewrite (cnt_none t p (length t - S b)); [done|done|].
      intros y Hy Hyp. rewrite Hl in Hy. destruct (Hall' y) as [->| ->]; lia.
    + specialize (Hok a ltac:(lia)). unfold code_ok in Hok.
      rewrite Ha', decide_True in Hok by lia. rewrite Hok. f_equal.
      rewrite (cnt_one t p b (length t - S a)); [done|done|lia|done|].
      intros y Hy Hyp. rewrite Hl in Hy. destruct (Hall' y) as [->| ->]; lia.
Qed.

Lemma code_parent t x :
  huffman_tree t -> x < 20 ->
  exists p c, t !! x = Some p /\ 11 <= p /\ x < p < 21 /\
    huffman_codes t !!! x = huffman_codes t !!! p ++ [c] /\ (c = "0" \/ c = "1").
Proof.
  intros Ht Hx.
  destruct (ht_parent t Ht x Hx) as (p & Hp & Hp1 & Hp2).
  destruct (ht_children t Ht p ltac:(lia)) as (a & b & Hab & Ha & Hb & Hall).
  destruct (huffman_tree_codes t Ht) as (_ & _ & Hcodes).
  destruct (Hcodes p a b ltac:(lia) Hab Ha Hb Hall) as [Hcb Hca].
  exists p. destruct (Hall x Hp) as [-> | ->]; eauto 10.
Qed.

Lemma code_siblings t x y p c :
  huffman_tree t -> x <> y -> 11 <= p < 21 ->
  t !! x = Some p -> t !! y = Some p ->
  huffman_codes t !!! x = huffman_codes t !!! p ++ [c] ->
  huffman_codes t !!! y = huffman_codes t !!! p ++ [c] -> False.
Proof.
  intros Ht Hxy Hp Hx Hy Hcx Hcy.
  destruct (ht_children t Ht p Hp) as (a & b & Hab & Ha & Hb & Hall).
  destruct (huffman_tree_codes t Ht) as (_ & _ & Hcodes).
  destruct (Hcodes p a b Hp Hab Ha Hb Hall) as [Hcb Hca].
  destruct (Hall x Hx) as [-> | ->], (Hall y Hy) as [-> | ->]; try done;
    rewrite Hcx in *; rewrite Hcy in *; simplify_list_eq.
Qed.

Lemma code_root t x :
  huffman_tree t -> x < 21 -> huffman_codes t !!! x = [] -> x = 20.
Proof.
  intros Ht Hx Hnil. destruct (decide (x = 20)) as [|Hne]; [done|].
  destruct (code_parent t x Ht ltac:(lia)) as (p & c & _ & _ & _ & Hc & _).
  rewrite Hnil in Hc. by destruct (huffman_codes t !!! p).
Qed.

Lemma code_inj t :
  huffman_tree t ->
  forall x y, x < 21 -> y < 21 ->
    huffman_codes t !!! x = huffman_codes t !!! y -> x = y.
Proof.
  intros Ht x. remember (20 - x) as n eqn:Hn. revert x Hn.
  induction n as [n IH] using lt_wf_ind. intros x Hn y Hx Hy Heq.
  destruct (huffman_tree_codes t Ht) as (_ & Hroot & _).
  destruct (decide (x = 20)) as [->|Hx20].
  { symmetry. apply (code_root t); [done..|]. by rewrite <- Heq. }
  destruct (decide (y = 20)) as [->|Hy20].
  { apply (code_root t); [done..|]. by rewrite Heq. }
  destruct (code_parent t x Ht ltac:(lia)) as (px & cx & Hpx & ? & ? & Hcx & _).
  destruct (code_parent t y Ht ltac:(lia)) as (py & cy & Hpy & ? & ? & Hcy & _).
  assert (Hpp : huffman_codes t !!! px = huffman_codes t !!! py /\ cx = cy).
  { rewrite Heq, Hcy in Hcx. by simplify_list_eq. }
  destruct Hpp as [Hpp <-].
  assert (px = py) as <- by (apply (IH (20 - px)) ; [lia|done|lia|lia|done]).
  destruct (decide (x = y)) as [|Hxy]; [done|].
  destruct (code_siblings t x y px cx Ht); try done. lia.
Qed.

(** A code that starts another code belongs to an ancestor: if it is not
    the same node, it is an internal node. *)
Lemma code_prefix t :
  huffman_tree t ->
  forall y x, x < 21 -> y < 21 ->
    huffman_codes t !!! x `prefix_of` huffman_codes t !!! y -> x = y \/ 11 <= x.
Proof.
  intros Ht y. remember (20 - y) as n eqn:Hn. revert y Hn.
  induction n as [n IH] using lt_wf_ind. intros y Hn x Hx Hy Hpre.
  destruct (huffman_tree_codes t Ht) as (_ & Hroot & _).
  destruct (decide (y = 20)) as [->|Hy20].
  { rewrite Hroot in Hpre. apply prefix_nil_inv in Hpre.
    apply (code_root t) in Hpre; [|done..]. lia. }
  destruct (code_parent t y Ht ltac:(lia)) as (py & cy & Hpy & ? & ? & Hcy & _).
  rewrite Hcy in Hpre. destruct Hpre as [k Hk].
  destruct k as [|c k _] using rev_ind.
  - rewrite app_nil_r, <- Hcy in Hk. left. symmetry. by apply (code_inj t).
  - rewrite app_assoc in Hk. apply app_inj_tail in Hk as [Hk _].
    destruct (IH (20 - py) ltac:(lia) py eq_refl x Hx ltac:(lia)) as [->|?];
      [by exists k|right; lia|by right].
Qed.

(** The codes of the 11 symbols are prefix-free. *)
Lemma huffman_prefix_free t x y cx cy :
  huffman_tree t -> x <> y ->
  huffman t !! x = Some cx -> huffman t !! y = Some cy ->
  ~ cx `prefix_of` cy.
Proof.
  intros Ht Hxy Hx Hy Hpre. unfold huffman in *.
  apply lookup_take_Some in Hx as [Hx Hx11]. apply lookup_take_Some in Hy as [Hy Hy11].
  apply list_lookup_total_correct in Hx, Hy. subst cx cy.
  apply (code_prefix t) in Hpre; [lia|done|lia|lia].
Qed.

(** ** Bits and bytes *)

Lemma byte_facts v :
  (0 <= v < 256)%Z ->
  byte_of_bits (format_b 8 v) = Ok v /\
  format_b 8 v = format_b 4 (v ≫ 4) ++ format_b 4 (Z.land v 15) /\
  (0 <= v ≫ 4 < 16)%Z /\ (0 <= Z.land v 15 < 16)%Z /\
  length (format_b 8 v) = 8 /\ binary (format_b 8 v).
Proof.
  intros Hv. assert (Hin : v ∈ seqZ 0 256) by (apply elem_of_seqZ; lia).
  clear Hv. revert v Hin.
  apply (Forall_forall (fun v =>
    byte_of_bits (format_b 8 v) = Ok v /\
    format_b 8 v = format_b 4 (v ≫ 4) ++ format_b 4 (Z.land v 15) /\
    (0 <= v ≫ 4 < 16)%Z /\ (0 <= Z.land v 15 < 16)%Z /\
    length (format_b 8 v) = 8 /\ binary (format_b 8 v))).
  apply (bool_decide_unpack _). by vm_compute.
Qed.

Lemma nibble_facts z :
  (0 <= z < 16)%Z ->
  length (format_b 4 z) = 4 /\ binary (format_b 4 z) /\
  int2_acc 0 (format_b 4 z) = Some z.
Proof.
  intros Hz. assert (Hin : z ∈ seqZ 0 16) by (apply elem_of_seqZ; lia).
  clear Hz. revert z Hin.
  apply (Forall_forall (fun z =>
    length (format_b 4 z) = 4 /\ binary (format_b 4 z) /\
    int2_acc 0 (format_b 4 z) = Some z)).
  apply (bool_decide_unpack _). by vm_compute.
Qed.

Lemma format_b_4_inj a b :
  (0 <= a < 16)%Z -> (0 <= b < 16)%Z -> format_b 4 a = format_b 4 b -> a = b.
Proof.
  intros Ha Hb Heq.
  destruct (nibble_facts a Ha) as (_ & _ & Hia).
  destruct (nibble_facts b Hb) as (_ & _ & Hib). congruence.
Qed.

Lemma nibble_pair a b :
  (0 <= a < 16)%Z -> (0 <= b < 16)%Z ->
  format_b 4 a ++ format_b 4 b = format_b 8 (16 * a + b)%Z /\
  ((16 * a + b) ≫ 4 = a)%Z /\ (Z.land (16 * a + b) 15 = b)%Z.
Proof.
  intros Ha Hb.
  assert (Hina : a ∈ seqZ 0 16) by (apply elem_of_seqZ; lia).
  assert (Hinb : b ∈ seqZ 0 16) by (apply elem_of_seqZ; lia).
  clear Ha Hb. revert b Hinb. revert a Hina.
  apply (Forall_forall (fun a => forall b, b ∈ seqZ 0 16 ->
    format_b 4 a ++ format_b 4 b = format_b 8 (16 * a + b)%Z /\
    ((16 * a + b) ≫ 4 = a)%Z /\ (Z.land (16 * a + b) 15 = b)%Z)).
  apply (Forall_impl (fun a => Forall (fun b =>
    format_b 4 a ++ format_b 4 b = format_b 8 (16 * a + b)%Z /\
    ((16 * a + b) ≫ 4 = a)%Z /\ (Z.land (16 * a + b) 15 = b)%Z) (seqZ 0 16))).
  - apply (bool_decide_unpack _). by vm_compute.
  - intros a Hall. by apply Forall_forall.
Qed.

Lemma binary_4_format s :
  length s = 4 -> binary s -> exists a, (0 <= a < 16)%Z /\ s = format_b 4 a.
Proof.
  intros Hlen Hbin.
  do 4 (destruct s as [|? s]; [simplify_eq/=|]).
  destruct s; [|simplify_eq/=]. unfold binary in Hbin.
  repeat match goal with
         | H : Forall _ (_ :: _) |- _ => apply Forall_cons in H as [[-> | ->] H]
         end;
    match goal with
    | |- exists a, _ /\ ?s = _ => exists (default 0%Z (int2_acc 0 s))
    end; by vm_compute.
Qed.

Lemma binary_8_format s :
  length s = 8 -> binary s -> exists v, (0 <= v < 256)%Z /\ s = format_b 8 v.
Proof.
  intros Hlen Hbin.
  rewrite <- (take_drop 4 s) in Hbin. apply Forall_app in Hbin as [Hb1 Hb2].
  destruct (binary_4_format (take 4 s)) as (a & Ha & Hsa);
    [rewrite length_take; lia|done|].
  destruct (binary_4_format (drop 4 s)) as (b & Hb & Hsb);
    [rewrite length_drop; lia|done|].
  exists (16 * a + b)%Z. split; [lia|].
  destruct (nibble_pair a b Ha Hb) as (<- & _).
  by rewrite <- Hsa, <- Hsb, take_drop.
Qed.

Lemma byte_of_bits_spec s :
  length s = 8 -> binary s ->
  exists v, byte_of_bits s = Ok v /\ (0 <= v < 256)%Z /\ format_b 8 v = s.
Proof.
  intros Hlen Hbin. destruct (binary_8_format s Hlen Hbin) as (v & Hv & ->).
  exists v. by destruct (byte_facts v Hv) as (-> & _).
Qed.

(** ** Writing the output *)

Lemma py_get_symbol (codes : list str) tok :
  length codes = 11 -> symbol tok -> py_get codes tok = Ok (codes !!! Z.to_nat tok).
Proof.
  intros Hlen Htok. unfold py_get, py_index, symbol in *.
  rewrite decide_True by lia. simpl. unfold get_item.
  by rewrite list_lookup_lookup_total_lt by lia.
Qed.

Lemma payload_cons (codes : list str) tok text :
  length codes = 11 -> symbol tok ->
  payload codes (tok :: text) = codes !!! Z.to_nat tok ++ payload codes text.
Proof. intros Hlen Htok. unfold payload. simpl. by rewrite py_get_symbol. Qed.

Lemma payload_app codes t1 t2 :
  payload codes (t1 ++ t2) = payload codes t1 ++ payload codes t2.
Proof. unfold payload. by rewrite map_app, concat_app. Qed.

Lemma code_table_lookup (codes : list str) tok :
  code_table codes -> symbol tok ->
  binary (codes !!! Z.to_nat tok) /\ codes !!! Z.to_nat tok <> [].
Proof.
  intros [Hlen Hbin Hne] Htok. unfold symbol in Htok.
  assert (Hl : codes !! Z.to_nat tok = Some (codes !!! Z.to_nat tok))
    by (apply list_lookup_lookup_total_lt; lia).
  split.
  - by apply (Forall_lookup_1 _ _ _ _ Hbin Hl).
  - by apply (Forall_lookup_1 _ _ _ _ Hne Hl).
Qed.

Lemma binary_payload codes text :
  code_table codes -> Forall symbol text -> binary (payload codes text).
Proof.
  intros Hc. induction 1 as [|tok text Htok _ IH]; [constructor|].
  rewrite payload_cons by (done || apply Hc).
  apply Forall_app. split; [|done]. by apply code_table_lookup.
Qed.

Lemma zeros_binary s : zeros s -> binary s.
Proof. intros Hz. eapply Forall_impl; [exact Hz|]. auto. Qed.

Lemma load_spec codes :
  code_table codes ->
  forall text b, Forall symbol text -> binary b ->
  exists b' t' pad,
    load codes b text = Ok (b', t') /\
    b' ++ payload codes t' = b ++ payload codes text ++ pad /\
    zeros pad /\ length pad < 8 /\ binary b' /\ Forall symbol t' /\
    (8 <= length b' \/ (b' = [] /\ t' = [])).
Proof.
  intros Hc. induction text as [|tok text IH]; intros b Htext Hb; simpl.
  - repeat case_decide.
    + exists (b ++ replicate (8 - length b) "0"), [], (replicate (8 - length b) "0").
      split; [done|]. split; [unfold payload; simpl; by rewrite app_nil_r|].
      split; [by apply Forall_replicate|].
      split; [rewrite length_replicate; lia|].
      split; [apply Forall_app; split; [done|]; apply Forall_replicate; auto|].
      split; [done|]. left. rewrite length_app, length_replicate. lia.
    + exists b, [], []. destruct b; [|simpl in *; lia].
      repeat split; auto; try constructor; simpl; lia.
    + exists b, [], []. rewrite !app_nil_r.
      repeat split; auto; try constructor; simpl; lia.
  - apply Forall_cons in Htext as [Htok Htext]. case_decide.
    + rewrite py_get_symbol by (done || apply Hc). simpl.
      destruct (code_table_lookup codes tok Hc Htok) as [Hbin _].
      destruct (IH (b ++ codes !!! Z.to_nat tok) Htext) as (b' & t' & pad & Hl & Heq & Hrest).
      { by apply Forall_app. }
      exists b', t', pad. split; [done|]. split; [|done].
      rewrite Heq, payload_cons by (done || apply Hc). by rewrite <- !app_assoc.
    + exists b, (tok :: text), []. rewrite !app_nil_r.
      repeat split; auto; try constructor; auto; simpl; lia.
Qed.

Lemma write_loop_eq codes buffer text out :
  write_loop codes buffer text out =
    if bool_decide (text ≠ [] ∨ buffer ≠ []) then
      match write_step codes buffer text with
      | Ok (byte, buffer', text') => write_loop codes buffer' text' (out ++ [byte])
      | Err e => Err e
      end
    else Ok out.
Proof.
  simp write_loop.
  destruct (bool_decide (text ≠ [] ∨ buffer ≠ [])); simpl; [|done].
  by destruct (write_step codes buffer text) as [[[byte b'] t']|e].
Qed.

Lemma write_loop_spec (codes : list str) :
  code_table codes ->
  forall n buffer text (out : list Z),
    length buffer + length (payload codes text) = n ->
    binary buffer -> Forall symbol text ->
    (8 <= length buffer \/ (buffer = [] /\ text = [])) ->
    exists out' pad,
      write_loop codes buffer text out = Ok (out ++ out') /\
      bits_of out' = buffer ++ payload codes text ++ pad /\
      zeros pad /\ Forall byte out'.
Proof.
  intros Hc n. induction n as [n IH] using lt_wf_ind.
  intros buffer text out Hn Hbuf Htext Hhead. rewrite write_loop_eq.
  destruct Hhead as [Hlen|[-> ->]].
  - rewrite bool_decide_eq_true_2 by (right; intros ->; simpl in Hlen; lia).
    unfold write_step.
    rewrite <- (take_drop 8 buffer) in Hbuf. apply Forall_app in Hbuf as [Htake Hdrop].
    destruct (byte_of_bits_spec (take 8 buffer)) as (v & -> & Hv & Hfmt);
      [rewrite length_take; lia|done|]. simpl.
    destruct (load_spec codes Hc text (drop 8 buffer) Htext Hdrop)
      as (b' & t' & pad1 & -> & Heq & Hpad1 & Hlpad & Hb' & Ht' & Hhead'). simpl.
    assert (Hlens : length b' + length (payload codes t') < n).
    { apply (f_equal length) in Heq. rewrite !length_app, length_drop in Heq. lia. }
    destruct (IH _ Hlens b' t' (out ++ [v]) eq_refl Hb' Ht' Hhead')
      as (out' & pad2 & -> & Hbits & Hpad2 & Hbytes).
    exists (v :: out'), (pad1 ++ pad2).
    split; [by rewrite <- app_assoc|].
    split; [|split; [by apply Forall_app|by constructor]].
    unfold bits_of in *. simpl. rewrite Hbits, Hfmt, (app_assoc b'), Heq.
    rewrite <- !app_assoc. by rewrite (app_assoc (take 8 buffer)), take_drop.
  - rewrite bool_decide_eq_false_2 by (intros [?|?]; done).
    exists [], []. rewrite app_nil_r. repeat split; constructor.
Qed.

(** ** The header *)

Lemma length_bits_of file : Forall byte file -> length (bits_of file) = 8 * length file.
Proof.
  induction 1 as [|v file Hv _ IH]; [done|].
  unfold bits_of in *. simpl. rewrite length_app, IH.
  destruct (byte_facts v Hv) as (_ & _ & _ & _ & -> & _). lia.
Qed.

Lemma bits_of_inv file (S : str) :
  Forall byte file -> bits_of file = S -> 8 <= length S ->
  exists v file', file = v :: file' /\ byte v /\ Forall byte file' /\
    format_b 8 v = take 8 S /\ bits_of file' = drop 8 S.
Proof.
  intros Hfile <- Hlen. destruct Hfile as [|v file Hv Hfile]; [simpl in Hlen; lia|].
  exists v, file. unfold bits_of. simpl.
  destruct (byte_facts v Hv) as (_ & _ & _ & _ & Hl & _).
  rewrite take_app_length', drop_app_length' by done. done.
Qed.

Lemma header_bits_cons n h : header_bits (n :: h) = field n ++ header_bits h.
Proof. done. Qed.

Lemma field_facts n :
  11 <= n <= root -> length (field n) = 4 /\ binary (field n).
Proof.
  unfold root, field. intros Hn.
  destruct (nibble_facts (Z.of_nat n - 11)) as (? & ? & _); [lia|done].
Qed.

(** A byte of the header holds two fields. *)
Lemma header_byte v x (S : str) :
  byte v -> 11 <= x <= root -> 4 <= length S ->
  format_b 8 v = take 8 (field x ++ S) ->
  (v ≫ 4)%Z = (Z.of_nat x - 11)%Z /\ format_b 4 (Z.land v 15) = take 4 S.
Proof.
  intros Hv Hx HS Hfmt.
  destruct (byte_facts v Hv) as (_ & Hsplit & Ha & Hb & _).
  destruct (field_facts x Hx) as [Hlx _].
  destruct (nibble_facts _ Ha) as (Hla & _). destruct (nibble_facts _ Hb) as (Hlb & _).
  rewrite Hsplit in Hfmt.
  rewrite take_app_ge in Hfmt by lia. rewrite Hlx in Hfmt.
  apply app_inj_1 in Hfmt as [Hfa Hfb]; [|lia].
  split; [|done]. apply format_b_4_inj in Hfa; [done|done|unfold root in Hx; lia].
Qed.

Lemma read_header_fields : forall k h acc file (R : str),
  length h = 2 * k -> Forall (fun n => 11 <= n < root) h ->
  Forall byte file -> bits_of file = header_bits (h ++ [root]) ++ R -> 4 <= length R ->
  read_header file acc = Ok (acc ++ h ++ [root], take 4 R, drop (S k) file) /\
  bits_of (drop (S k) file) = drop 4 R.
Proof.
  induction k as [|k IH]; intros h acc file R Hlen Hh Hfile Hbits HR.
  - destruct h; [|done]. cbn [app] in Hbits.
    rewrite header_bits_cons in Hbits. change (header_bits []) with (@nil ascii) in Hbits.
    rewrite app_nil_r in Hbits.
    destruct (field_facts root) as [Hlr _]; [unfold root; lia|].
    destruct (bits_of_inv file _ Hfile Hbits) as (v & file' & -> & Hv & Hfile' & Hfmt & Hrest).
    { rewrite length_app. lia. }
    destruct (header_byte v root R Hv) as [Ha Hb]; [unfold root; lia|done|done|].
    simpl. rewrite Ha. rewrite decide_False by (unfold root; lia).
    rewrite Hb. split; [done|].
    rewrite drop_0, Hrest, drop_app_ge by lia. by rewrite Hlr.
  - destruct h as [|x [|y h]]; [done|simpl in Hlen; lia|].
    apply Forall_cons in Hh as [Hx Hh]. apply Forall_cons in Hh as [Hy Hh].
    cbn [app] in Hbits. rewrite !header_bits_cons in Hbits.
    destruct (field_facts x) as [Hlx _]; [lia|].
    destruct (field_facts y) as [Hly _]; [lia|].
    rewrite <- !app_assoc in Hbits.
    destruct (bits_of_inv file _ Hfile Hbits) as (v & file' & -> & Hv & Hfile' & Hfmt & Hrest).
    { rewrite !length_app. lia. }
    destruct (header_byte v x (field y ++ header_bits (h ++ [root]) ++ R) Hv) as [Ha Hb];
      [lia|rewrite length_app; lia|done|].
    rewrite take_app_length' in Hb by done.
    assert (Hb' : Z.land v 15 = (Z.of_nat y - 11)%Z).
    { destruct (byte_facts v Hv) as (_ & _ & _ & Hb4 & _).
      apply format_b_4_inj in Hb; [done|done|unfold root in Hy; lia]. }
    simpl. rewrite Ha, Hb'.
    rewrite decide_True by (unfold root in Hx; lia).
    rewrite decide_False by (unfold root in Hy; lia).
    replace (Z.to_nat (Z.of_nat x - 11 + 11)) with x by lia.
    replace (Z.to_nat (Z.of_nat y - 11 + 11)) with y by lia.
    rewrite drop_app_ge in Hrest by lia. rewrite Hlx in Hrest.
    rewrite drop_app_length' in Hrest by done.
    destruct (IH h ((acc ++ [x]) ++ [y]) file' R) as [Hread Hbits']; try done.
    { simpl in Hlen. lia. }
    rewrite Hread. rewrite <- !app_assoc. done.
Qed.

Lemma huffman_tree_fields t :
  huffman_tree t ->
  t = take 20 t ++ [root] /\ length (take 20 t) = 2 * 10 /\
  Forall (fun n => 11 <= n < root) (take 20 t).
Proof.
  intros Ht. pose proof (ht_length t Ht) as Hl. split; [|split].
  - rewrite <- (take_drop 20 t) at 1. f_equal.
    pose proof (ht_root t Ht) as Hr.
    rewrite <- (take_drop 20 t), lookup_app_r in Hr by (rewrite length_take; lia).
    rewrite length_take, Hl in Hr. simpl in Hr.
    assert (Hld : length (drop 20 t) = 1) by (rewrite length_drop; lia).
    destruct (drop 20 t) as [|r [|]]; simplify_eq/=. done.
  - rewrite length_take. lia.
  - apply Forall_lookup_2. intros x n [Hn Hx]%lookup_take_Some.
    destruct (ht_parent t Ht x Hx) as (p & Hp & ? & ?). simplify_eq. unfold root. lia.
Qed.

Lemma header_bits_facts h :
  Forall (fun n => 11 <= n <= root) h ->
  binary (header_bits h) /\ length (header_bits h) = 4 * length h.
Proof.
  induction 1 as [|n h Hn _ [IH1 IH2]]; [split; [constructor|done]|].
  rewrite header_bits_cons. destruct (field_facts n Hn) as [Hl Hb].
  split; [by apply Forall_app|]. rewrite length_app. simpl. lia.
Qed.

Lemma huffman_tree_range t :
  huffman_tree t -> Forall (fun n => 11 <= n <= root) t.
Proof.
  intros Ht. destruct (huffman_tree_fields t Ht) as (Hsplit & _ & Hall).
  rewrite Hsplit. apply Forall_app. split.
  - eapply Forall_impl; [exact Hall|]. simpl. lia.
  - constructor; [unfold root; lia|constructor].
Qed.

(** The file written for a tree of the builder: the 21 fields of the
    header, the codes of the tokens, and padding. *)
Lemma write_output_spec t (codes : list str) text :
  huffman_tree t -> code_table codes -> Forall symbol text ->
  exists file pad,
    write_output t codes text = Ok file /\ Forall byte file /\
    bits_of file = header_bits t ++ payload codes text ++ pad /\ zeros pad.
Proof.
  intros Ht Hc Htext. unfold write_output.
  destruct (header_bits_facts t (huffman_tree_range t Ht)) as [Hbin Hlen].
  rewrite (ht_length t Ht) in Hlen.
  destruct (write_loop_spec codes Hc _ (header_bits t) text [] eq_refl Hbin Htext)
    as (file & pad & Hw & Hbits & Hpad & Hbytes); [left; lia|].
  exists file, pad. by rewrite Hw.
Qed.

(** Reading the header back: the 21 fields end at the root marker, in the
    high half of the 11th byte; its low half goes to the buffer. *)
Lemma read_header_spec t file (R : str) :
  huffman_tree t -> Forall byte file -> bits_of file = header_bits t ++ R ->
  read_header file [] = Ok (t, take 4 R, drop 11 file) /\
  take 4 R ++ bits_of (drop 11 file) = R /\ 4 <= length R.
Proof.
  intros Ht Hfile Hbits.
  destruct (huffman_tree_fields t Ht) as (Hsplit & Hlen & Hall).
  destruct (header_bits_facts t (huffman_tree_range t Ht)) as [_ Hlh].
  rewrite (ht_length t Ht) in Hlh.
  assert (HR : 4 <= length R).
  { apply (f_equal length) in Hbits.
    rewrite length_bits_of, length_app in Hbits by done. lia. }
  rewrite Hsplit in Hbits.
  destruct (read_header_fields 10 (take 20 t) [] file R Hlen Hall Hfile Hbits HR)
    as [Hread Hrest].
  simpl in Hread. rewrite <- Hsplit in Hread.
  split; [done|]. split; [|done]. by rewrite Hrest, take_drop.
Qed.

(** ** The code table *)

Lemma code_binary t :
  huffman_tree t -> forall x, x < 21 -> binary (huffman_codes t !!! x).
Proof.
  intros Ht x. remember (20 - x) as n eqn:Hn. revert x Hn.
  induction n as [n IH] using lt_wf_ind. intros x Hn Hx.
  destruct (decide (x = 20)) as [->|Hx20].
  { destruct (huffman_tree_codes t Ht) as (_ & -> & _). constructor. }
  destruct (code_parent t x Ht ltac:(lia)) as (p & c & _ & ? & ? & -> & Hc).
  apply Forall_app. split; [|by constructor; [|constructor]].
  apply (IH (20 - p)); lia.
Qed.

Lemma huffman_code_table t : huffman_tree t -> code_table (huffman t).
Proof.
  intros Ht. destruct (huffman_tree_codes t Ht) as (Hlen & _).
  unfold huffman. split.
  - rewrite length_take. lia.
  - apply Forall_lookup_2. intros x c [Hc Hx]%lookup_take_Some.
    apply list_lookup_total_correct in Hc as <-. apply code_binary; [done|lia].
  - apply Forall_lookup_2. intros x c [Hc Hx]%lookup_take_Some.
    apply list_lookup_total_correct in Hc as <-. intros Hnil.
    apply (code_root t) in Hnil; [lia|done|lia].
Qed.

(** ** The decoder *)

Lemma feeds_app t1 t2 st : feeds (t1 ++ t2) st = feeds t2 (feeds t1 st).
Proof. revert st. induction t1 as [|tok t1 IH]; intros st; simpl; [done|]. apply IH. Qed.

Lemma feed_with_buffer b tok st : feed tok (with_buffer b st) = with_buffer b (feed tok st).
Proof. unfold feed, with_buffer. by case_decide. Qed.

Lemma feeds_with_buffer b toks st :
  feeds toks (with_buffer b st) = with_buffer b (feeds toks st).
Proof.
  revert st. induction toks as [|tok toks IH]; intros st; simpl; [done|].
  by rewrite feed_with_buffer, IH.
Qed.

Lemma feed_j tok st : j st <= j (feed tok st).
Proof. unfold feed. case_decide; simpl; lia. Qed.

Lemma feeds_j toks st : j st <= j (feeds toks st).
Proof.
  revert st. induction toks as [|tok toks IH]; intros st; simpl; [done|].
  pose proof (feed_j tok st). specialize (IH (feed tok st)). lia.
Qed.

Lemma feeds_writing toks st : writing (feeds toks st) = writing st.
Proof.
  revert st. induction toks as [|tok toks IH]; intros st; simpl; [done|].
  rewrite IH. unfold feed. by case_decide.
Qed.

Lemma matches_prefix (buffer code : str) :
  matches buffer code = true <-> code `prefix_of` buffer.
Proof.
  unfold matches. rewrite andb_true_iff, !bool_decide_eq_true. split.
  - intros [_ Htake]. rewrite <- Htake. apply prefix_take.
  - intros [k ->]. rewrite length_app, take_app_length. split; [lia|done].
Qed.

Lemma matches_false (buffer code : str) :
  ~ code `prefix_of` buffer -> matches buffer code = false.
Proof.
  intros Hn. destruct (matches buffer code) eqn:Hm; [|done].
  by apply matches_prefix in Hm.
Qed.

Section decoder.
Context (codes : list str) (Hct : code_table codes) (Hpf : prefix_free codes).

Lemma code_lookup n : n < 11 -> codes !! n = Some (codes !!! n).
Proof.
  intros Hn. apply list_lookup_lookup_total_lt. rewrite (ct_length codes Hct). done.
Qed.

Lemma get_item_code n : n < 11 -> get_item codes n = Ok (codes !!! n).
Proof. intros Hn. unfold get_item. by rewrite code_lookup. Qed.

Lemma separator_code : py_get codes (-1) = Ok (codes !!! 10).
Proof.
  unfold py_get, py_index. rewrite (ct_length codes Hct). simpl.
  by rewrite get_item_code by lia.
Qed.

(** Only the code of [tok] starts a buffer that starts with it. *)
Lemma matches_other n tok (B : str) :
  n < 11 -> tok < 11 -> n <> tok ->
  matches (codes !!! tok ++ B) (codes !!! n) = false.
Proof.
  intros Hn Htok Hne. apply matches_false. intros Hpre.
  destruct (prefix_weak_total (codes !!! n) (codes !!! tok) (codes !!! tok ++ B))
    as [H|H]; [done|by exists B|..].
  - by apply (Hpf n tok _ _ Hne (code_lookup n Hn) (code_lookup tok Htok)).
  - by apply (Hpf tok n _ _ (not_eq_sym Hne) (code_lookup tok Htok) (code_lookup n Hn)).
Qed.

Lemma matches_same tok (B : str) : matches (codes !!! tok ++ B) (codes !!! tok) = true.
Proof. apply matches_prefix. by exists B. Qed.

(** No code starts a buffer that is a shorter start of a code. *)
Lemma matches_short n tok (B : str) :
  n < 11 -> tok < 11 -> B `prefix_of` codes !!! tok -> B <> codes !!! tok ->
  matches B (codes !!! n) = false.
Proof.
  intros Hn Htok HB HBne. apply matches_false. intros Hpre.
  destruct (decide (n = tok)) as [->|Hne].
  - apply HBne. by apply (anti_symm prefix).
  - apply (Hpf n tok _ _ Hne (code_lookup n Hn) (code_lookup tok Htok)).
    by etrans.
Qed.

Lemma find_digit_found (B : str) tok : forall k a,
  a <= tok < a + k -> a + k <= 10 ->
  (forall n, a <= n < tok -> matches B (codes !!! n) = false) ->
  matches B (codes !!! tok) = true ->
  find_digit codes B (seq a k) = Ok (Some (tok, codes !!! tok)).
Proof.
  induction k as [|k IH]; intros a Ha Hk Hbefore Hm; [lia|].
  simpl. rewrite get_item_code by lia. simpl.
  destruct (decide (a = tok)) as [->|Hne].
  - by rewrite Hm.
  - rewrite Hbefore by lia. apply IH; [lia|lia| |done].
    intros n Hn. apply Hbefore. lia.
Qed.

Lemma find_digit_none (B : str) : forall k a,
  a + k <= 10 ->
  (forall n, a <= n < a + k -> matches B (codes !!! n) = false) ->
  find_digit codes B (seq a k) = Ok None.
Proof.
  induction k as [|k IH]; intros a Hk Hnone; [done|].
  simpl. rewrite get_item_code by lia. simpl.
  rewrite Hnone by lia. apply IH; [lia|]. intros n Hn. apply Hnone. lia.
Qed.
End decoder.

Lemma with_buffer_with_buffer b b' st : with_buffer b (with_buffer b' st) = with_buffer b st.
Proof. done. Qed.

Lemma with_buffer_id st : with_buffer (buffer st) st = st.
Proof. by destruct st. Qed.

Lemma decode_codes_S fuel codes i st :
  decode_codes (S fuel) codes i st =
    if decide (number st = ["-"; "0"]) then Ok (ended st)
    else
      sep ← py_get codes (-1);
      if matches (buffer st) sep then
        let buffer := drop (length sep) (buffer st) in
        let number := if decide (number st = []) then ["0"] else number st in
        let j := j st + 1 in
        if decide (j <= i) then
          decode_codes fuel codes i (DState buffer [] (lines st ++ [number]) j (writing st))
        else Err AssertionError
      else
        found ← find_digit codes (buffer st) (seq 0 10);
        match found with
        | Some (n, code) =>
            let number :=
              if decide (length (number st) = 0 ∧ n = 0) then ["-"]
              else number st ++ [digit_char n] in
            decode_codes fuel codes i
              (DState (drop (length code) (buffer st)) number (lines st) (j st) (writing st))
        | None => Ok st
        end.
Proof. done. Qed.

Section decoder_steps.
Context (codes : list str) (Hct : code_table codes) (Hpf : prefix_free codes).
Context (i : nat).

(** A turn of the inner loop on a buffer that starts with the code of
    [tok]. *)
Lemma decode_codes_match fuel st tok (B : str) :
  symbol tok -> number st <> ["-"; "0"] ->
  buffer st = codes !!! Z.to_nat tok ++ B -> j (feed tok st) <= i ->
  decode_codes (S fuel) codes i st
  = decode_codes fuel codes i (with_buffer B (feed tok st)).
Proof.
  intros Htok Hnum Hbuf Hj. unfold symbol in Htok. rewrite decode_codes_S.
  rewrite decide_False by done. rewrite (separator_code codes Hct).
  cbn [mbind res_bind]. rewrite Hbuf.
  unfold feed in *. destruct (decide (tok = 10%Z)) as [->|Hne].
  - change (Z.to_nat 10) with 10. rewrite matches_same.
    cbn [j] in Hj. cbn zeta. rewrite decide_True by lia.
    by rewrite drop_app_length.
  - rewrite (matches_other codes Hct Hpf) by lia.
    rewrite (find_digit_found codes Hct _ (Z.to_nat tok)); [|lia|lia| |].
    + cbn [mbind res_bind]. cbn zeta. by rewrite drop_app_length.
    + intros n Hn. apply (matches_other codes Hct Hpf); lia.
    + apply matches_same.
Qed.

(** A turn on a buffer too short to hold the next code. *)
Lemma decode_codes_stall fuel st tok :
  symbol tok -> number st <> ["-"; "0"] ->
  buffer st `prefix_of` codes !!! Z.to_nat tok -> buffer st <> codes !!! Z.to_nat tok ->
  decode_codes (S fuel) codes i st = Ok st.
Proof.
  intros Htok Hnum Hpre Hne. unfold symbol in Htok. rewrite decode_codes_S.
  rewrite decide_False by done. rewrite (separator_code codes Hct).
  cbn [mbind res_bind].
  rewrite (matches_short codes Hct Hpf 10 (Z.to_nat tok)) by (done || lia).
  rewrite (find_digit_none codes Hct); [done|lia|].
  intros n Hn. apply (matches_short codes Hct Hpf n (Z.to_nat tok)); (done || lia).
Qed.

(** A turn after the EOF sequence. *)
Lemma decode_codes_eof fuel st :
  number st = ["-"; "0"] -> decode_codes (S fuel) codes i st = Ok (ended st).
Proof. intros Hnum. rewrite decode_codes_S. by rewrite decide_True. Qed.

(** The turns of the inner loop on a buffer that starts with the codes
    of [toks]. *)
Lemma decode_codes_run : forall toks st (B : str) fuel,
  Forall symbol toks ->
  (forall k, k < length toks -> number (feeds (take k toks) st) <> ["-"; "0"]) ->
  j (feeds toks st) <= i ->
  buffer st = payload codes toks ++ B ->
  decode_codes (length toks + fuel) codes i st
  = decode_codes fuel codes i (with_buffer B (feeds toks st)).
Proof.
  induction toks as [|tok toks IH]; intros st B fuel Htoks Hlive Hj Hbuf.
  { simpl in *. by rewrite <- Hbuf, with_buffer_id. }
  apply Forall_cons in Htoks as [Htok Htoks].
  rewrite payload_cons in Hbuf by (done || apply Hct). rewrite <- app_assoc in Hbuf.
  cbn [length Nat.add feeds] in *.
  rewrite (decode_codes_match _ st tok (payload codes toks ++ B)); try done.
  - rewrite (IH _ B); try done.
    + by rewrite feeds_with_buffer, with_buffer_with_buffer.
    + intros k Hk. rewrite feeds_with_buffer. apply (Hlive (S k)). lia.
    + by rewrite feeds_with_buffer.
  - apply (Hlive 0). lia.
  - pose proof (feeds_j toks (feed tok st)). lia.
Qed.
End decoder_steps.

Lemma decode_loop_cons fuel codes i v src st :
  decode_loop fuel codes i (v :: src) st =
    if writing st then
      st ← decode_codes fuel codes i (with_buffer (buffer st ++ format_b 8 v) st);
      decode_loop fuel codes i src st
    else Ok st.
Proof. done. Qed.

Lemma decode_loop_ended fuel codes i src st :
  writing st = false -> decode_loop fuel codes i src st = Ok st.
Proof. intros Hw. destruct src; simpl; by rewrite Hw. Qed.

Lemma bits_of_cons v src : bits_of (v :: src) = format_b 8 v ++ bits_of src.
Proof. done. Qed.

Section decoder_loop.
Context (codes : list str) (Hct : code_table codes) (Hpf : prefix_free codes).
Context (i : nat).

Lemma length_payload toks :
  Forall symbol toks -> length toks <= length (payload codes toks).
Proof.
  induction 1 as [|tok toks Htok _ IH]; [done|].
  rewrite payload_cons by (done || apply Hct). rewrite length_app. simpl.
  destruct (code_table_lookup codes tok Hct Htok) as [_ Hne].
  destruct (codes !!! Z.to_nat tok); [done|simpl; lia].
Qed.

(** A buffer that starts a stream of codes holds the codes of some
    tokens, whole, and then either the rest of the stream or a shorter
    start of the next code. *)
Lemma split_tokens : forall toks (B X pad : str),
  Forall symbol toks -> B ++ X = payload codes toks ++ pad ->
  (exists B1, B = payload codes toks ++ B1) \/
  (exists ts1 t ts2 B1, toks = ts1 ++ t :: ts2 /\ B = payload codes ts1 ++ B1 /\
     B1 `prefix_of` codes !!! Z.to_nat t /\ B1 <> codes !!! Z.to_nat t).
Proof.
  induction toks as [|t toks IH]; intros B X pad Htoks Heq.
  { left. by exists B. }
  apply Forall_cons in Htoks as [Ht Htoks].
  rewrite payload_cons in Heq by (done || apply Hct). rewrite <- app_assoc in Heq.
  destruct (prefix_weak_total (codes !!! Z.to_nat t) B (B ++ X)) as [[B' ->]|Hpre].
  - rewrite Heq. by eexists.
  - by exists X.
  - rewrite <- app_assoc in Heq. apply app_inv_head in Heq.
    destruct (IH B' X pad Htoks Heq) as [[B1 ->]|(ts1 & t' & ts2 & B1 & -> & -> & Hp & Hne)].
    + left. exists B1. by rewrite payload_cons, <- app_assoc by (done || apply Hct).
    + right. exists (t :: ts1), t', ts2, B1.
      rewrite payload_cons by (done || apply Hct). by rewrite <- app_assoc.
  - destruct (decide (B = codes !!! Z.to_nat t)) as [->|Hne].
    + apply app_inv_head in Heq.
      destruct (IH [] X pad Htoks Heq) as [[B1 HB1]|(ts1 & t' & ts2 & B1 & -> & HB1 & Hp & Hne)].
      * left. exists B1.
        rewrite payload_cons by (done || apply Hct).
        by rewrite <- app_assoc, <- HB1, app_nil_r.
      * right. exists (t :: ts1), t', ts2, B1.
        rewrite payload_cons by (done || apply Hct).
        by rewrite <- app_assoc, <- HB1, app_nil_r.
    + right. by exists [], t, toks, B.
Qed.

Lemma decode_loop_spec : forall src st toks (pad : str) fuel,
  writing st = true -> Forall symbol toks -> Forall byte src ->
  buffer st ++ bits_of src = payload codes toks ++ pad ->
  (forall k, k < length toks -> number (feeds (take k toks) st) <> ["-"; "0"]) ->
  number (feeds toks st) = ["-"; "0"] ->
  j (feeds toks st) <= i ->
  src <> [] -> length (buffer st) + 8 * length src < fuel ->
  exists B, decode_loop fuel codes i src st = Ok (ended (with_buffer B (feeds toks st))).
Proof.
  induction src as [|v src IH]; intros st toks pad fuel Hw Htoks Hsrc Hbits Hlive Hend Hj Hne Hfuel;
    [done|].
  apply Forall_cons in Hsrc as [Hv Hsrc].
  destruct (byte_facts v Hv) as (_ & _ & _ & _ & Hlv & _).
  rewrite decode_loop_cons, Hw.
  rewrite bits_of_cons, app_assoc in Hbits.
  set (B0 := buffer st ++ format_b 8 v) in *.
  assert (HlB0 : length B0 = length (buffer st) + 8).
  { unfold B0. rewrite length_app. lia. }
  destruct (split_tokens toks B0 (bits_of src) pad Htoks Hbits)
    as [[B1 HB0]|(ts1 & t & ts2 & B1 & Hsplit & HB0 & Hpre & Hshort)].
  - (* the rest of the stream is in the buffer *)
    pose proof (length_payload toks Htoks) as Hlp.
    assert (Hlen : length toks < fuel).
    { apply (f_equal length) in HB0. rewrite length_app in HB0. simpl in Hfuel. lia. }
    assert (Hinner : decode_codes fuel codes i (with_buffer B0 st)
              = Ok (ended (with_buffer B1 (feeds toks st)))).
    { replace fuel with (length toks + S (fuel - length toks - 1)) by lia.
      rewrite (decode_codes_run codes Hct Hpf i toks _ B1); [|done| |..].
      - rewrite feeds_with_buffer, with_buffer_with_buffer.
        by rewrite decode_codes_eof.
      - intros k Hk. rewrite feeds_with_buffer. by apply Hlive.
      - by rewrite feeds_with_buffer.
      - done. }
    rewrite Hinner. cbn [mbind res_bind].
    rewrite decode_loop_ended by done. by exists B1.
  - (* the buffer ends inside the code of [t] *)
    subst toks. apply Forall_app in Htoks as [Hts1 Hts2].
    apply Forall_cons in Hts2 as [Ht Hts2].
    pose proof (length_payload ts1 Hts1) as Hlp.
    assert (Hlen : length ts1 < fuel).
    { apply (f_equal length) in HB0. rewrite length_app in HB0. simpl in Hfuel. lia. }
    assert (Hinner : decode_codes fuel codes i (with_buffer B0 st)
              = Ok (with_buffer B1 (feeds ts1 st))).
    { replace fuel with (length ts1 + S (fuel - length ts1 - 1)) by lia.
      rewrite (decode_codes_run codes Hct Hpf i ts1 _ B1); [|done| |..].
      - rewrite feeds_with_buffer, with_buffer_with_buffer.
        apply (decode_codes_stall codes Hct Hpf i _ _ t); [done| |done|done].
        cbn [number with_buffer]. rewrite <- (take_app_length ts1 (t :: ts2)).
        apply Hlive. rewrite length_app. simpl. lia.
      - intros k Hk. rewrite feeds_with_buffer. cbn [number with_buffer].
        rewrite <- (take_app_le ts1 (t :: ts2)) by lia. apply Hlive.
        rewrite length_app. lia.
      - rewrite feeds_with_buffer. cbn [j with_buffer].
        rewrite feeds_app in Hj. pose proof (feeds_j (t :: ts2) (feeds ts1 st)). lia.
      - done. }
    rewrite Hinner. cbn [mbind res_bind].
    rewrite HB0, payload_app, <- !app_assoc in Hbits. apply app_inv_head in Hbits.
    destruct (IH (with_buffer B1 (feeds ts1 st)) (t :: ts2) pad fuel) as [B HB]; try done.
    + cbn [writing with_buffer]. by rewrite feeds_writing.
    + by constructor.
    + intros k Hk. rewrite feeds_with_buffer. cbn [number with_buffer].
      rewrite <- feeds_app.
      replace (ts1 ++ take k (t :: ts2))
        with (take (length ts1 + k) (ts1 ++ t :: ts2))
        by (by rewrite take_app_add).
      apply Hlive. rewrite length_app. lia.
    + rewrite feeds_with_buffer. cbn [number with_buffer]. by rewrite <- feeds_app.
    + rewrite feeds_with_buffer. cbn [j with_buffer]. by rewrite <- feeds_app.
    + intros ->. cbn [buffer with_buffer] in Hbits.
      rewrite app_nil_r, payload_cons, <- app_assoc in Hbits by (done || apply Hct).
      apply Hshort. apply (anti_symm prefix); [done|]. rewrite Hbits. by eexists.
    + cbn [buffer with_buffer]. apply (f_equal length) in HB0.
      rewrite length_app in HB0. simpl in Hfuel. lia.
    + exists B. rewrite HB, feeds_with_buffer, with_buffer_with_buffer.
      by rewrite feeds_app.
Qed.
End decoder_loop.

(** ** The tokenizer *)

Lemma tally_app counts t1 t2 : tally counts (t1 ++ t2) = tally (tally counts t1) t2.
Proof. apply foldl_app. Qed.

Lemma total_insert (counts : list Z) n v :
  counts !! n = Some v -> total (<[n := (v + 1)%Z]> counts) = (total counts + 1)%Z.
Proof.
  revert n. induction counts as [|c counts IH]; intros [|n] Hn; simplify_eq/=.
  - lia.
  - rewrite (IH n Hn). lia.
Qed.

Lemma tally_facts toks : forall counts,
  length counts = 11 -> Forall symbol toks ->
  length (tally counts toks) = 11 /\
  total (tally counts toks) = (total counts + Z.of_nat (length toks))%Z.
Proof.
  induction toks as [|tok toks IH]; intros counts Hlen Htoks.
  { simpl. split; [done|lia]. }
  apply Forall_cons in Htoks as [Htok Htoks]. unfold symbol in Htok. cbn [tally foldl].
  destruct (IH (bump counts tok)) as [Hl Ht]; [by unfold bump; rewrite length_insert|done|].
  split; [done|]. unfold tally in Ht. rewrite Ht. unfold bump.
  rewrite (total_insert counts (Z.to_nat tok) (counts !!! Z.to_nat tok))
    by (apply list_lookup_lookup_total_lt; lia).
  simpl. lia.
Qed.

Lemma incr_symbol counts d :
  length counts = 11 -> symbol d -> incr counts d = Ok (bump counts d).
Proof.
  intros Hlen Hd. unfold incr, py_index, symbol in *. rewrite Hlen.
  rewrite decide_True by lia. cbn [mbind res_bind]. unfold get_item.
  rewrite list_lookup_lookup_total_lt by lia. cbn [mbind res_bind].
  unfold set_item. by rewrite decide_True by lia.
Qed.

Lemma length_bump counts d : length (bump counts d) = length counts.
Proof. unfold bump. by rewrite length_insert. Qed.

Lemma digit_cases c :
  is_digit c -> c ∈ ["0"; "1"; "2"; "3"; "4"; "5"; "6"; "7"; "8"; "9"].
Proof.
  unfold is_digit. intros Hc. rewrite <- (ascii_nat_embedding c).
  remember (nat_of_ascii c) as n eqn:Hn. clear Hn.
  do 48 (destruct n as [|n]; [lia|]).
  do 10 (destruct n as [|n]; [set_solver|]). lia.
Qed.

Lemma digit_facts c :
  is_digit c ->
  symbol (digit_val c) /\ (digit_val c < 10)%Z /\ c <> "-" /\
  digit_char (Z.to_nat (digit_val c)) = c /\
  (c = "0" <-> Z.to_nat (digit_val c) = 0).
Proof.
  intros Hc%digit_cases. unfold symbol.
  repeat (apply elem_of_cons in Hc as [->|Hc]; [by vm_compute|]).
  by apply elem_of_nil in Hc.
Qed.

Lemma scan_char_digit leading counts text c :
  length counts = 11 -> is_digit c -> leading = false \/ c <> "0" ->
  scan_char (leading, counts, text) c
  = Ok (false, bump counts (digit_val c), text ++ [digit_val c]).
Proof.
  intros Hlen Hc Hlead. destruct (digit_facts c Hc) as (Hsym & _ & Hminus & _).
  unfold scan_char.
  assert (leading && bool_decide (c = "0") = false) as ->.
  { destruct Hlead as [->|Hne]; [done|]. rewrite bool_decide_eq_false_2 by done.
    by destruct leading. }
  rewrite decide_False by done. fold (digit_val c).
  by rewrite (incr_symbol counts (digit_val c) Hlen Hsym).
Qed.

(** Digits after the first digit kept are kept. *)
Lemma scan_chars_digits ds : forall counts text,
  length counts = 11 -> Forall is_digit ds ->
  scan_chars (false, counts, text) ds
  = Ok (false, tally counts (map digit_val ds), text ++ map digit_val ds).
Proof.
  induction ds as [|c ds IH]; intros counts text Hlen Hds.
  { simpl. by rewrite app_nil_r. }
  apply Forall_cons in Hds as [Hc Hds]. cbn [scan_chars].
  rewrite (scan_char_digit false counts text c Hlen Hc) by (by left).
  cbn [mbind res_bind]. rewrite IH by (by rewrite ?length_bump).
  by rewrite <- app_assoc.
Qed.

(** Leading zeros are dropped. *)
Lemma scan_chars_leading ds : forall counts text,
  length counts = 11 -> Forall is_digit ds ->
  exists leading,
    scan_chars (true, counts, text) ds
    = Ok (leading, tally counts (map digit_val (strip0 ds)),
          text ++ map digit_val (strip0 ds)).
Proof.
  induction ds as [|c ds IH]; intros counts text Hlen Hds.
  { exists true. simpl. by rewrite app_nil_r. }
  apply Forall_cons in Hds as [Hc Hds]. cbn [scan_chars strip0].
  destruct (decide (c = "0")) as [->|Hne].
  - cbn [scan_char andb bool_decide decide_rel]. simpl. by apply IH.
  - rewrite (scan_char_digit true counts text c Hlen Hc) by (by right).
    cbn [mbind res_bind]. rewrite scan_chars_digits by (by rewrite ?length_bump).
    exists false. by rewrite <- app_assoc.
Qed.

Lemma symbol_digits ds : Forall is_digit ds -> Forall symbol (map digit_val ds).
Proof.
  intros Hds. apply Forall_fmap. eapply Forall_impl; [exact Hds|].
  intros c Hc. by destruct (digit_facts c Hc).
Qed.

Lemma strip0_digits ds : Forall is_digit ds -> Forall is_digit (strip0 ds).
Proof. induction 1 as [|c ds Hc Hds IH]; simpl; [done|]. case_decide; [done|by constructor]. Qed.

Lemma symbol_line_toks l : int_line l -> Forall symbol (line_toks l).
Proof.
  intros (ds & Hds & [-> | ->]); unfold line_toks.
  - destruct ds as [|c ds]; [done|]. case_decide.
    + constructor; [unfold symbol; lia|].
      apply Forall_cons in Hds as [_ Hds]. by apply symbol_digits, strip0_digits.
    + by apply symbol_digits, strip0_digits.
  - rewrite decide_True by done.
    constructor; [unfold symbol; lia|]. by apply symbol_digits, strip0_digits.
Qed.

Lemma symbol_data ls : Forall int_line ls -> Forall symbol (data ls).
Proof.
  induction 1 as [|l ls Hl _ IH]; [constructor|]. unfold data in *. cbn [map concat].
  apply Forall_app. split; [|done]. apply Forall_app. split; [by apply symbol_line_toks|].
  constructor; [unfold symbol; lia|constructor].
Qed.

Lemma scan_chars_line l counts text :
  length counts = 11 -> int_line l ->
  exists leading,
    scan_chars (true, counts, text) l
    = Ok (leading, tally counts (line_toks l), text ++ line_toks l).
Proof.
  intros Hlen (ds & Hds & [-> | ->]).
  - destruct (scan_chars_leading ds counts text Hlen Hds) as (leading & Hs).
    exists leading. unfold line_toks. destruct ds as [|c ds]; [done|].
    apply Forall_cons in Hds as [Hc _]. destruct (digit_facts c Hc) as (_ & _ & Hm & _).
    by rewrite decide_False.
  - cbn [scan_chars scan_char andb]. rewrite bool_decide_eq_false_2 by done.
    cbn [andb]. rewrite decide_True by done.
    change (ord "0" - ord "0")%Z with 0%Z.
    rewrite (incr_symbol counts 0%Z Hlen) by (unfold symbol; lia).
    cbn [mbind res_bind].
    destruct (scan_chars_leading ds (bump counts 0%Z) (text ++ [0%Z])) as (leading & ->);
      [by rewrite length_bump|done|].
    exists leading. unfold line_toks. rewrite decide_True by done.
    by rewrite <- app_assoc.
Qed.

Lemma scan_lines_spec src : forall i counts text,
  length counts = 11 -> Forall int_line (map strip src) ->
  scan_lines (i, counts, text) src
  = Ok (i + length src, tally counts (data (map strip src)),
        text ++ data (map strip src)).
Proof.
  induction src as [|line src IH]; intros i counts text Hlen Hsrc.
  { simpl. by rewrite app_nil_r, Nat.add_0_r. }
  cbn [map] in Hsrc. apply Forall_cons in Hsrc as [Hline Hsrc].
  cbn [scan_lines scan_line].
  destruct (scan_chars_line (strip line) counts text Hlen Hline) as (leading & ->).
  cbn [mbind res_bind].
  destruct (tally_facts (line_toks (strip line)) counts Hlen (symbol_line_toks _ Hline))
    as [Hlen1 _].
  rewrite (incr_symbol _ 10%Z Hlen1) by (unfold symbol; lia). cbn [mbind res_bind].
  rewrite IH by (by rewrite ?length_bump).
  unfold data. cbn [map concat length]. rewrite !tally_app, <- !app_assoc.
  do 3 f_equal. lia.
Qed.

Lemma read_input_spec src :
  Forall int_line (map strip src) ->
  read_input src
  = Ok (length src, tally (replicate 11 0%Z) (data (map strip src)),
        data (map strip src) ++ [0%Z; 0%Z]).
Proof.
  intros Hsrc. unfold read_input.
  by rewrite (scan_lines_spec src 0 (replicate 11 0%Z) [] eq_refl Hsrc).
Qed.

(** ** The statistics *)

Lemma infos_loop_total (counts : list Z) (codes : list str) : forall k a bits count,
  length counts = 11 -> length codes = 11 -> a + k <= 11 ->
  exists bits',
    infos_loop counts codes (seq a k) bits count
    = Ok (bits', (count + total (take k (drop a counts)))%Z).
Proof.
  induction k as [|k IH]; intros a bits count Hlc Hlco Hk.
  { exists bits. simpl. f_equal. f_equal. lia. }
  cbn [seq infos_loop]. unfold get_item.
  destruct (lookup_lt_is_Some_2 counts a ltac:(lia)) as [c Hc].
  destruct (lookup_lt_is_Some_2 codes a ltac:(lia)) as [code Hcode].
  rewrite Hc, Hcode. cbn [mbind res_bind].
  destruct (IH (S a) (bits + c * Z.of_nat (length code))%Z (count + c)%Z Hlc Hlco ltac:(lia))
    as (bits' & ->).
  exists bits'. rewrite (drop_S _ _ _ Hc). simpl. do 2 f_equal. lia.
Qed.

(** The statistics raise exactly when no symbol was counted. *)
Lemma infos_spec (counts : list Z) (codes : list str) :
  length counts = 11 -> length codes = 11 ->
  infos counts codes = if decide (total counts = 0%Z) then Err ZeroDivisionError else Ok ().
Proof.
  intros Hlc Hlco. unfold infos.
  destruct (infos_loop_total counts codes 11 0 0%Z 0%Z Hlc Hlco) as (bits & ->); [lia|].
  cbn [mbind res_bind]. rewrite drop_0, take_ge by lia. by rewrite Z.add_0_l.
Qed.

(** ** From tokens to lines *)

Lemma live_app t1 t2 st : live (t1 ++ t2) st <-> live t1 st /\ live t2 (feeds t1 st).
Proof.
  revert st. induction t1 as [|tok t1 IH]; intros st; simpl; [tauto|].
  rewrite IH. tauto.
Qed.

Lemma live_take toks st k :
  live toks st -> k < length toks -> number (feeds (take k toks) st) <> ["-"; "0"].
Proof.
  revert st k. induction toks as [|tok toks IH]; intros st k Hlive Hk; [simpl in Hk; lia|].
  destruct Hlive as [Hnum Hlive]. destruct k as [|k]; [done|].
  simpl. apply IH; [done|]. simpl in Hk. lia.
Qed.

Lemma feed_digit c st :
  is_digit c -> number st <> [] \/ c <> "0" ->
  feed (digit_val c) st
  = DState (buffer st) (number st ++ [c]) (lines st) (j st) (writing st).
Proof.
  intros Hc Hnum. destruct (digit_facts c Hc) as (_ & Hlt & _ & Hchar & Hzero).
  unfold feed. rewrite decide_False by lia. rewrite Hchar.
  rewrite decide_False; [done|].
  intros [Hl H0]. destruct Hnum as [Hnum|Hnum].
  - by destruct (number st).
  - by apply Hnum, Hzero.
Qed.

Lemma feeds_digits ds : forall st,
  Forall is_digit ds -> safe_number (number st) ->
  feeds (map digit_val ds) st
    = DState (buffer st) (number st ++ ds) (lines st) (j st) (writing st) /\
  live (map digit_val ds) st.
Proof.
  induction ds as [|c ds IH]; intros st Hds [Hne Hsafe].
  { simpl. rewrite app_nil_r. by destruct st. }
  apply Forall_cons in Hds as [Hc Hds]. cbn [map feeds live].
  rewrite feed_digit by auto.
  destruct (IH (DState (buffer st) (number st ++ [c]) (lines st) (j st) (writing st)) Hds)
    as [Hfeeds Hlive].
  { cbn [number]. split; [by destruct (number st)|].
    intros rest. rewrite <- app_assoc. apply Hsafe. }
  rewrite Hfeeds. cbn [buffer number lines j writing]. rewrite <- app_assoc.
  split; [done|]. split; [|done]. specialize (Hsafe []). by rewrite app_nil_r in Hsafe.
Qed.

Lemma strip0_cases ds :
  Forall is_digit ds ->
  strip0 ds = [] \/
  exists d ds', strip0 ds = d :: ds' /\ is_digit d /\ d <> "0" /\ Forall is_digit ds'.
Proof.
  induction 1 as [|c ds Hc Hds IH]; [by left|]. simpl.
  case_decide; [done|]. right. by exists c, ds.
Qed.

(** The digits of a number, after the sign if there is one. *)
Lemma feeds_stripped ds st :
  Forall is_digit ds -> number st = [] \/ number st = ["-"] ->
  feeds (map digit_val (strip0 ds)) st
    = DState (buffer st) (number st ++ strip0 ds) (lines st) (j st) (writing st) /\
  live (map digit_val (strip0 ds)) st /\
  number st ++ strip0 ds <> ["-"; "0"].
Proof.
  intros Hds Hnum.
  destruct (strip0_cases ds Hds) as [->|(d & ds' & -> & Hd & Hd0 & Hds')].
  { simpl. rewrite app_nil_r. split; [by destruct st|]. split; [done|].
    by destruct Hnum as [-> | ->]. }
  destruct (digit_facts d Hd) as (_ & _ & Hminus & _).
  cbn [map feeds live]. rewrite feed_digit by auto.
  assert (Hsafe : safe_number (number st ++ [d])).
  { split; [by destruct (number st)|]. intros rest.
    destruct Hnum as [-> | ->]; simpl; congruence. }
  destruct (feeds_digits ds' (DState (buffer st) (number st ++ [d]) (lines st) (j st)
                                (writing st)) Hds' Hsafe) as [Hfeeds Hlive].
  rewrite Hfeeds. cbn [buffer number lines j writing]. rewrite <- app_assoc.
  split; [done|]. split.
  - split; [by destruct Hnum as [-> | ->]|done].
  - pose proof (proj2 Hsafe ds') as Hs. by rewrite <- app_assoc in Hs.
Qed.

Lemma feed_separator st :
  feed 10%Z st
  = DState (buffer st) [] (lines st ++ [if decide (number st = []) then ["0"] else number st])
      (j st + 1) (writing st).
Proof. done. Qed.

Lemma feeds_line l st :
  int_line l -> number st = [] ->
  feeds (line_toks l ++ [10%Z]) st
    = DState (buffer st) [] (lines st ++ [normalize l]) (j st + 1) (writing st) /\
  live (line_toks l ++ [10%Z]) st.
Proof.
  intros (ds & Hds & Hl) Hnum. rewrite feeds_app, live_app.
  assert (Hline : feeds (line_toks l) st
            = DState (buffer st) (if decide (normalize l = ["0"]) then [] else normalize l)
                (lines st) (j st) (writing st) /\
          live (line_toks l) st /\
          (if decide (normalize l = ["0"]) then [] else normalize l) <> ["-"; "0"] /\
          (normalize l = ["0"] \/ normalize l <> [])).
  { destruct Hl as [-> | ->].
    - destruct (feeds_stripped ds st Hds (or_introl Hnum)) as (Hf & Hlive & Hsafe).
      rewrite Hnum in Hf, Hsafe. simpl in Hf, Hsafe.
      unfold line_toks, normalize. destruct ds as [|c ds].
      { rewrite decide_True by done. split; [rewrite <- Hnum; by destruct st|].
        split; [done|]. split; [done|by left]. }
      apply Forall_cons in Hds as [Hc Hds].
      destruct (digit_facts c Hc) as (_ & _ & Hminus & _).
      destruct (decide (c = "-")) as [|_]; [done|].
      destruct (decide (strip0 (c :: ds) = [])) as [Hs|Hs].
      + rewrite decide_True by done. rewrite Hs in *. repeat split; auto.
      + destruct (strip0_cases (c :: ds)) as [?|(d & ds' & Hs' & _ & Hd0 & _)];
          [by constructor|done|].
        rewrite decide_False by (rewrite Hs'; congruence). auto.
    - unfold line_toks, normalize. destruct (decide ("-" = "-")) as [_|]; [|done].
      cbn [feeds live]. rewrite Hnum.
      set (st1 := feed 0%Z st).
      assert (Hst1 : st1 = DState (buffer st) ["-"] (lines st) (j st) (writing st)).
      { unfold st1, feed. rewrite decide_False by lia. rewrite Hnum. by rewrite decide_True. }
      destruct (feeds_stripped ds st1 Hds) as (Hf & Hlive & Hsafe);
        [right; by rewrite Hst1|].
      rewrite Hst1 in Hf, Hsafe. cbn [buffer number lines j writing] in Hf, Hsafe.
      rewrite decide_False by congruence. simpl in Hf, Hsafe.
      rewrite Hst1 at 1. repeat split; auto. }
  destruct Hline as (-> & Hlive & Hsafe & Hnorm). split; [|by repeat split].
  cbn [feeds]. rewrite feed_separator. cbn [buffer number lines j writing].
  do 2 f_equal. destruct (decide (normalize l = ["0"])) as [Hn|Hn].
  - rewrite decide_True by done. by rewrite Hn.
  - rewrite decide_False; [done|]. by destruct Hnorm.
Qed.

Lemma feeds_data ls : forall st,
  Forall int_line ls -> number st = [] ->
  feeds (data ls) st
    = DState (buffer st) [] (lines st ++ map normalize ls) (j st + length ls) (writing st) /\
  live (data ls) st.
Proof.
  induction ls as [|l ls IH]; intros st Hls Hnum.
  { simpl. rewrite app_nil_r, Nat.add_0_r. rewrite <- Hnum. by destruct st. }
  apply Forall_cons in Hls as [Hl Hls]. unfold data in *. cbn [map concat].
  rewrite feeds_app, live_app.
  destruct (feeds_line l st Hl Hnum) as [-> Hlive].
  destruct (IH (DState (buffer st) [] (lines st ++ [normalize l]) (j st + 1) (writing st))
              Hls eq_refl) as [-> Hlive'].
  cbn [buffer number lines j writing length].
  split; [|done]. f_equal; [by rewrite <- app_assoc|lia].
Qed.

(** ** The whole script *)

(** At most one symbol has a code of one bit: the root has two children,
    and node 19 is one of them. *)
Lemma one_short_code t x y :
  huffman_tree t -> x < 11 -> y < 11 -> x <> y ->
  length (huffman_codes t !!! x) <= 1 -> length (huffman_codes t !!! y) <= 1 -> False.
Proof.
  intros Ht Hx Hy Hxy Hlx Hly.
  assert (Hparent : forall z, z < 20 -> length (huffman_codes t !!! z) <= 1 ->
            t !! z = Some 20).
  { intros z Hz Hlz.
    destruct (code_parent t z Ht Hz) as (p & c & Hp & ? & ? & Hc & _).
    rewrite Hc, length_app in Hlz. simpl in Hlz.
    assert (Hnil : huffman_codes t !!! p = []) by (destruct (huffman_codes t !!! p); [done|simpl in Hlz; lia]).
    apply (code_root t) in Hnil; [by subst|done|lia]. }
  destruct (ht_children t Ht 20 ltac:(lia)) as (a & b & Hab & Ha & Hb & Hall).
  destruct (ht_parent t Ht 19 ltac:(lia)) as (p & Hp & ? & ?).
  assert (p = 20) as -> by lia.
  destruct (Hall 19 Hp), (Hall x (Hparent x ltac:(lia) Hlx)),
    (Hall y (Hparent y ltac:(lia) Hly)); lia.
Qed.

Lemma length_payload_separator (codes : list str) toks :
  code_table codes -> Forall symbol toks -> 10%Z ∈ toks ->
  length (codes !!! 10) + length toks <= S (length (payload codes toks)).
Proof.
  intros Hct Htoks (t1 & t2 & ->)%list_elem_of_split.
  apply Forall_app in Htoks as [Ht1 Ht2]. apply Forall_cons in Ht2 as [H10 Ht2].
  rewrite payload_app, payload_cons by (done || apply Hct).
  change (Z.to_nat 10) with 10. rewrite !length_app. simpl.
  pose proof (length_payload codes Hct t1 Ht1).
  pose proof (length_payload codes Hct t2 Ht2). lia.
Qed.

Lemma data_separator ls : ls <> [] -> 10%Z ∈ data ls.
Proof.
  destruct ls as [|l ls]; [done|]. intros _. unfold data. cbn [map concat].
  set_solver.
Qed.

Lemma data_length ls : ls <> [] -> 1 <= length (data ls).
Proof.
  destruct ls as [|l ls]; [done|]. intros _. unfold data. cbn [map concat].
  rewrite !length_app. simpl. lia.
Qed.

Lemma data_single ls : length (data ls) <= 1 -> ls = [] \/ data ls = [10%Z].
Proof.
  intros H. destruct ls as [|l ls]; [by left|]. right. revert H.
  unfold data. cbn [map concat]. rewrite !length_app. simpl. intros Hlen.
  destruct (line_toks l); [|simpl in Hlen; lia].
  destruct (concat _); [done|simpl in Hlen; lia].
Qed.

(** The payload does not fit in the half byte after the header. *)
Lemma payload_long ls t :
  Forall int_line ls -> ls <> [] ->
  tree (tally (replicate 11 0%Z) (data ls)) = Ok t -> huffman_tree t ->
  5 <= length (payload (huffman t) (data ls ++ [0%Z; 0%Z])).
Proof.
  intros Hls Hne Htree Ht.
  pose proof (huffman_code_table t Ht) as Hct.
  pose proof (symbol_data ls Hls) as Hsym.
  pose proof (length_payload_separator _ _ Hct Hsym (data_separator ls Hne)) as Hlen.
  rewrite payload_app, length_app.
  rewrite !payload_cons by (unfold symbol; lia || apply Hct).
  change (payload (huffman t) []) with (@nil ascii). rewrite app_nil_r, length_app.
  change (Z.to_nat 0) with 0 in *.
  assert (Hc : forall x, x < 11 -> huffman t !!! x = huffman_codes t !!! x).
  { intros x Hx. unfold huffman. rewrite lookup_total_take_lt; [done|lia]. }
  rewrite (Hc 10) in Hlen by lia. rewrite (Hc 0) by lia.
  destruct (code_table_lookup _ 0%Z Hct ltac:(unfold symbol; lia)) as [_ Hne0].
  destruct (code_table_lookup _ 10%Z Hct ltac:(unfold symbol; lia)) as [_ Hne10].
  change (Z.to_nat 0) with 0 in *. change (Z.to_nat 10) with 10 in *.
  rewrite (Hc 0) in Hne0 by lia. rewrite (Hc 10) in Hne10 by lia.
  assert (1 <= length (huffman_codes t !!! 0))
    by (destruct (huffman_codes t !!! 0); [done|simpl; lia]).
  assert (1 <= length (huffman_codes t !!! 10))
    by (destruct (huffman_codes t !!! 10); [done|simpl; lia]).
  pose proof (data_length ls Hne) as Hdl.
  destruct (decide (2 <= length (huffman_codes t !!! 0))) as [|Hshort0]; [lia|].
  destruct (decide (2 <= length (huffman_codes t !!! 10))) as [H10|H10];
    [|destruct (one_short_code t 0 10 Ht); lia].
  destruct (decide (2 <= length (data ls))); [lia|].
  destruct (data_single ls) as [?|Hdata]; [lia|done|].
  rewrite Hdata in Htree. vm_compute in Htree. injection Htree as <-.
  vm_compute in H10. lia.
Qed.

(** ENCODE on a file with at least one line, each an integer. *)
Lemma ENCODE_spec src :
  src <> [] -> Forall int_line (map strip src) ->
  exists t file pad,
    tree (tally (replicate 11 0%Z) (data (map strip src))) = Ok t /\ huffman_tree t /\
    ENCODE src = Ok (length src, file) /\ Forall byte file /\
    bits_of file
      = header_bits t ++ payload (huffman t) (data (map strip src) ++ [0%Z; 0%Z]) ++ pad /\
    zeros pad.
Proof.
  intros Hne Hsrc. unfold ENCODE. rewrite (read_input_spec src Hsrc). cbn [mbind res_bind].
  assert (Hdl : 1 <= length (data (map strip src)))
    by (apply data_length; by destruct src).
  pose proof (symbol_data _ Hsrc) as Hsym.
  destruct (tally_facts _ (replicate 11 0%Z) eq_refl Hsym) as [Hlen Htot].
  destruct (tree_huffman_tree _ Hlen) as (t & Htree & Ht).
  pose proof (huffman_code_table t Ht) as Hct.
  rewrite Htree. cbn [mbind res_bind].
  rewrite infos_spec by (done || apply Hct).
  rewrite decide_False.
  2:{ rewrite Htot. change (total (replicate 11 0%Z)) with 0%Z. lia. }
  cbn [mbind res_bind].
  destruct (write_output_spec t (huffman t) (data (map strip src) ++ [0%Z; 0%Z]) Ht Hct)
    as (file & pad & -> & Hbytes & Hbits & Hpad).
  { apply Forall_app. split; [done|]. by repeat constructor. }
  exists t, file, pad. by split_and!.
Qed.

(** DECODE on the file that ENCODE wrote. *)
Lemma DECODE_spec ls t file (pad : str) fuel :
  ls <> [] -> Forall int_line ls ->
  tree (tally (replicate 11 0%Z) (data ls)) = Ok t -> huffman_tree t ->
  Forall byte file ->
  bits_of file = header_bits t ++ payload (huffman t) (data ls ++ [0%Z; 0%Z]) ++ pad ->
  8 * length file <= fuel ->
  exists st, DECODE fuel (length ls) file = Ok st /\ decoded (map normalize ls) st.
Proof.
  intros Hne Hls Htree Ht Hbytes Hbits Hfuel.
  pose proof (huffman_code_table t Ht) as Hct.
  assert (Hpf : prefix_free (huffman t)).
  { intros x y cx cy Hxy Hx Hy. by apply (huffman_prefix_free t x y). }
  destruct (read_header_spec t file _ Ht Hbytes Hbits) as (Hread & Hrest & HR).
  unfold DECODE. rewrite Hread. cbn [mbind res_bind].
  set (R := payload (huffman t) (data ls ++ [0%Z; 0%Z]) ++ pad) in *.
  set (st0 := DState (take 4 R) [] [] 0 true).
  destruct (feeds_data ls st0 Hls eq_refl) as [Hfeeds Hlive].
  assert (Hfeeds' : feeds (data ls ++ [0%Z; 0%Z]) st0
            = DState (take 4 R) ["-"; "0"] (map normalize ls) (length ls) true).
  { by rewrite feeds_app, Hfeeds. }
  pose proof (payload_long ls t Hls Hne Htree Ht) as Hlong.
  assert (Hfile : 12 <= length file).
  { destruct (header_bits_facts t (huffman_tree_range t Ht)) as [_ Hlh].
    rewrite (ht_length t Ht) in Hlh.
    apply (f_equal length) in Hbits. unfold R in Hbits.
    rewrite length_bits_of, !length_app in Hbits by done. lia. }
  destruct (decode_loop_spec (huffman t) Hct Hpf (length ls) (drop 11 file) st0
              (data ls ++ [0%Z; 0%Z]) pad fuel) as [B HB]; try done.
  - apply Forall_app. split; [by apply symbol_data|]. by repeat constructor.
  - by apply Forall_drop.
  - intros k Hk. apply live_take; [|done]. apply live_app. split; [done|].
    rewrite Hfeeds. by repeat split.
  - by rewrite Hfeeds'.
  - by rewrite Hfeeds'.
  - intros Hnil. apply (f_equal length) in Hnil. rewrite length_drop in Hnil.
    simpl in Hnil. lia.
  - unfold st0. cbn [buffer]. rewrite length_take, length_drop. lia.
  - exists (ended (with_buffer B (feeds (data ls ++ [0%Z; 0%Z]) st0))).
    split; [done|]. rewrite Hfeeds'. unfold decoded. by rewrite length_map.
Qed.

(** The whole script on a file with at least one line, each an integer:
    the lines printed are the lines read, normalized. *)
Lemma HUFF_spec src fuel :
  src <> [] -> Forall int_line (map strip src) ->
  exists i file,
    ENCODE src = Ok (i, file) /\ i = length src /\
    (8 * length file <= fuel ->
     exists st, DECODE fuel i file = Ok st /\ decoded (map normalize (map strip src)) st).
Proof.
  intros Hne Hsrc.
  destruct (ENCODE_spec src Hne Hsrc) as (t & file & pad & Htree & Ht & Henc & Hbytes & Hbits & _).
  exists (length src), file. split; [done|]. split; [done|]. intros Hfuel.
  rewrite <- (length_map strip src).
  apply (DECODE_spec _ t file pad); try done. by destruct src.
Qed.

(** ** More fuel does not change a result *)

Lemma decode_codes_mono codes i : forall fuel fuel' st r,
  decode_codes fuel codes i st = r -> r <> Err OutOfFuel -> fuel <= fuel' ->
  decode_codes fuel' codes i st = r.
Proof.
  induction fuel as [|fuel IH]; intros fuel' st r Hr Hne Hle; [by subst|].
  destruct fuel' as [|fuel']; [lia|].
  rewrite decode_codes_S in *.
  case_decide; [done|].
  destruct (py_get codes (-1)) as [sep|]; [|done]. cbn [mbind res_bind] in *.
  destruct (matches (buffer st) sep).
  - cbn zeta in *. case_decide; [|done]. apply IH; [done|done|lia].
  - destruct (find_digit codes (buffer st) (seq 0 10)) as [[[n code]|]|]; [|done|done].
    cbn [mbind res_bind] in *. cbn zeta in *. apply IH; [done|done|lia].
Qed.

Lemma decode_loop_mono codes i fuel fuel' : forall src st r,
  decode_loop fuel codes i src st = r -> r <> Err OutOfFuel -> fuel <= fuel' ->
  decode_loop fuel' codes i src st = r.
Proof.
  induction src as [|v src IH]; intros st r Hr Hne Hle; [done|].
  rewrite decode_loop_cons in *. destruct (writing st); [|done].
  destruct (decode_codes fuel codes i (with_buffer (buffer st ++ format_b 8 v) st))
    as [st'|e] eqn:Hinner; cbn [mbind res_bind] in Hr.
  - rewrite (decode_codes_mono codes i fuel fuel' _ _ Hinner) by done.
    cbn [mbind res_bind]. by apply IH.
  - subst r. by rewrite (decode_codes_mono codes i fuel fuel' _ _ Hinner) by done.
Qed.

Lemma DECODE_mono fuel fuel' i file r :
  DECODE fuel i file = r -> r <> Err OutOfFuel -> fuel <= fuel' ->
  DECODE fuel' i file = r.
Proof.
  unfold DECODE. destruct (read_header file []) as [[[header buf] src]|]; [|done].
  cbn [mbind res_bind]. apply decode_loop_mono.
Qed.

(** ** Canonical lines *)

Lemma canonical_int_line l : canonical l -> int_line l.
Proof.
  intros [->|(d & ds & Hd & _ & Hds & [-> | ->])].
  - exists ["0"]. split; [|by left]. constructor; [unfold is_digit; vm_compute; lia|constructor].
  - exists (d :: ds). split; [by constructor|by left].
  - exists (d :: ds). split; [by constructor|by right].
Qed.

Lemma canonical_normalize l : canonical l -> normalize l = l.
Proof.
  intros [->|(d & ds & Hd & Hd0 & Hds & [-> | ->])]; [by vm_compute|..].
  - destruct (digit_facts d Hd) as (_ & _ & Hminus & _).
    unfold normalize. destruct (decide (d = "-")); [done|]. cbn [strip0].
    destruct (decide (d = "0")); [done|]. by rewrite decide_False.
  - unfold normalize. destruct (decide ("-" = "-")); [|done]. cbn [strip0].
    by destruct (decide (d = "0")).
Qed.

Lemma canonical_lines ls :
  Forall canonical ls -> Forall int_line ls /\ map normalize ls = ls.
Proof.
  induction 1 as [|l ls Hl _ [IH1 IH2]]; [done|]. split.
  - constructor; [by apply canonical_int_line|done].
  - simpl. by rewrite canonical_normalize, IH2.
Qed.

(** What ENCODE returns when it returns. *)
Lemma ENCODE_inv src i file :
  Forall int_line (map strip src) -> ENCODE src = Ok (i, file) ->
  src <> [] /\ i = length src.
Proof.
  intros Hsrc Henc. destruct src as [|line src]; [by vm_compute in Henc|].
  split; [done|].
  destruct (ENCODE_spec (line :: src)) as (t & file' & pad & _ & _ & Henc' & _);
    [done|done|]. congruence.
Qed.

(** ** The 11th byte *)

Lemma header_bits_app h1 h2 : header_bits (h1 ++ h2) = header_bits h1 ++ header_bits h2.
Proof. unfold header_bits. by rewrite map_app, concat_app. Qed.

Lemma bits_of_drop file : forall k,
  Forall byte file -> bits_of (drop k file) = drop (8 * k) (bits_of file).
Proof.
  induction file as [|v file IH]; intros k Hfile.
  { rewrite drop_nil. change (bits_of []) with (@nil ascii). by rewrite drop_nil. }
  apply Forall_cons in Hfile as [Hv Hfile]. destruct k as [|k]; [done|].
  destruct (byte_facts v Hv) as (_ & _ & _ & _ & Hl & _).
  rewrite bits_of_cons, drop_app_ge by lia. rewrite Hl. cbn [drop].
  rewrite IH by done. f_equal. lia.
Qed.

(** The byte that holds the root field of a tree of the builder. *)
Lemma root_byte t file (R : str) :
  huffman_tree t -> Forall byte file -> bits_of file = header_bits t ++ R ->
  exists v, file !! 10 = Some v /\ (v ≫ 4)%Z = 15%Z /\
            format_b 4 (Z.land v 15) = take 4 R.
Proof.
  intros Ht Hfile Hbits.
  destruct (read_header_spec t file R Ht Hfile Hbits) as (_ & _ & HR).
  destruct (huffman_tree_fields t Ht) as (Hsplit & Hlen & Hall).
  assert (Hl80 : length (header_bits (take 20 t)) = 80).
  { destruct (header_bits_facts (take 20 t)) as [_ ->]; [|lia].
    eapply Forall_impl; [exact Hall|]. simpl. lia. }
  assert (Hd : bits_of (drop 10 file) = field root ++ R).
  { rewrite bits_of_drop, Hbits by done. rewrite Hsplit, header_bits_app, <- app_assoc.
    rewrite drop_app_length' by done. rewrite header_bits_cons.
    change (header_bits []) with (@nil ascii). by rewrite app_nil_r. }
  destruct (field_facts root) as [Hlr _]; [unfold root; lia|].
  destruct (bits_of_inv (drop 10 file) _ (Forall_drop _ _ _ Hfile) Hd)
    as (v & file' & Hdrop & Hv & _ & Hfmt & _).
  { rewrite length_app. lia. }
  destruct (header_byte v root R Hv) as [Ha Hb]; [unfold root; lia|done|done|].
  exists v. split; [|split; [by rewrite Ha|done]].
  rewrite <- (Nat.add_0_r 10), <- lookup_drop, Hdrop. done.
Qed.

Lemma data_last ls : data ls = [] \/ exists d, data ls = d ++ [10%Z].
Proof.
  induction ls as [|l ls IH]; [by left|]. right. unfold data in *. cbn [map concat].
  destruct IH as [->|[d ->]].
  - exists (line_toks l). by rewrite app_nil_r.
  - exists ((line_toks l ++ [10%Z]) ++ d). by rewrite <- !app_assoc.
Qed.

(** A number of the payload does not start with two symbols 0. *)
Lemma data_zero_pair ls p q :
  Forall int_line ls -> data ls = p ++ [0%Z; 0%Z] ++ q ->
  exists p' d, p = p' ++ [d] /\ d <> 10%Z.
Proof.
  intros Hls Hdata.
  set (st0 := DState [] [] [] 0 true).
  destruct (feeds_data ls st0 Hls eq_refl) as [_ Hlive].
  assert (Hstart : number (feeds p st0) = [] ->
            number (feeds (p ++ [0%Z; 0%Z]) st0) = ["-"; "0"]).
  { intros Hnum. rewrite feeds_app. cbn [feeds]. unfold feed at 2.
    rewrite decide_False by lia. rewrite Hnum. rewrite decide_True by done.
    unfold feed. rewrite decide_False by lia. by rewrite decide_False by (simpl; lia). }
  assert (Hbad : number (feeds p st0) <> []).
  { intros Hnum. specialize (Hstart Hnum).
    rewrite Hdata, app_assoc in Hlive. apply live_app in Hlive as [_ Hlive].
    destruct q as [|tok q]; [|by destruct Hlive].
    destruct (data_last ls) as [Hnil|[d Hd]].
    - rewrite Hnil in Hdata. by destruct p.
    - rewrite Hd in Hdata. rewrite app_nil_r in Hdata.
      change [0%Z; 0%Z] with ([0%Z] ++ [0%Z]) in Hdata. rewrite app_assoc in Hdata.
      by apply app_inj_tail in Hdata as [_ ?]. }
  destruct p as [|d p' _] using rev_ind; [done|].
  exists p', d. split; [done|]. intros ->. apply Hbad.
  by rewrite feeds_app.
Qed.

(** * The specification, claim by claim *)

(** C5: for every table of 11 counts, [tree] returns an array in which
    exactly one node holds the root marker, and that node is the last
    entry of the array, the last node created. *)
Theorem tree_single_root counts :
  length counts = 11 ->
  exists t, tree counts = Ok t /\
    forall x, t !! x = Some root <-> x = length t - 1.
Proof.
  intros Hlen. destruct (tree_huffman_tree counts Hlen) as (t & Htree & Ht).
  exists t. split; [done|]. intros x. rewrite (ht_length t Ht). simpl. split.
  - intros Hx. destruct (decide (x < 20)) as [Hlt|Hge].
    + destruct (ht_parent t Ht x Hlt) as (p & Hp & _ & Hp2).
      rewrite Hp in Hx. injection Hx as ->. unfold root in Hp2. lia.
    + apply lookup_lt_Some in Hx. rewrite (ht_length t Ht) in Hx. lia.
  - intros ->. apply (ht_root t Ht).
Qed.

Lemma tree_single_root_witness :
  length sample_counts = 11 /\
  exists t, tree sample_counts = Ok t /\
    forall x, t !! x = Some root <-> x = length t - 1.
Proof. split; [reflexivity|]. apply (tree_single_root sample_counts). reflexivity. Defined.

(** C2: for every table of 11 counts, the code table that [huffman] makes
    of the tree of [tree] is prefix-free: of two distinct symbols, neither
    code starts the other. *)
Theorem huffman_codes_prefix_free counts :
  length counts = 11 ->
  exists t, tree counts = Ok t /\ length (huffman t) = 11 /\
    forall x y cx cy, x <> y ->
      huffman t !! x = Some cx -> huffman t !! y = Some cy ->
      ~ cx `prefix_of` cy /\ ~ cy `prefix_of` cx.
Proof.
  intros Hlen. destruct (tree_huffman_tree counts Hlen) as (t & Htree & Ht).
  exists t. split; [done|]. split; [apply (ct_length _ (huffman_code_table t Ht))|].
  intros x y cx cy Hxy Hx Hy. split.
  - by apply (huffman_prefix_free t x y).
  - by apply (huffman_prefix_free t y x).
Qed.

Lemma huffman_codes_prefix_free_witness :
  length sample_counts = 11 /\
  exists t, tree sample_counts = Ok t /\ length (huffman t) = 11 /\
    forall x y cx cy, x <> y ->
      huffman t !! x = Some cx -> huffman t !! y = Some cy ->
      ~ cx `prefix_of` cy /\ ~ cy `prefix_of` cx.
Proof.
  split; [reflexivity|]. apply (huffman_codes_prefix_free sample_counts). reflexivity.
Defined.

(** C6, as the code has it: for every table of 11 counts and every
    internal node of the tree, the node has exactly two children; the child
    in the higher array slot, which the backward loop visits first, receives
    ordinal 0 (its code is the code of the parent with the bit 0 appended),
    and the child in the lower slot receives ordinal 1. *)
Theorem huffman_child_ordinals counts :
  length counts = 11 ->
  exists t, tree counts = Ok t /\
    forall p, 11 <= p < length t ->
      exists a b, a < b /\ t !! a = Some p /\ t !! b = Some p /\
        (forall x, t !! x = Some p -> x = a \/ x = b) /\
        huffman_codes t !!! b = huffman_codes t !!! p ++ ["0"] /\
        huffman_codes t !!! a = huffman_codes t !!! p ++ ["1"].
Proof.
  intros Hlen. destruct (tree_huffman_tree counts Hlen) as (t & Htree & Ht).
  exists t. split; [done|]. intros p. rewrite (ht_length t Ht). intros Hp.
  destruct (ht_children t Ht p Hp) as (a & b & Hab & Ha & Hb & Hall).
  destruct (huffman_tree_codes t Ht) as (_ & _ & Hcodes).
  destruct (Hcodes p a b Hp Hab Ha Hb Hall) as [Hcb Hca].
  exists a, b. by split_and!.
Qed.

Lemma huffman_child_ordinals_witness :
  length sample_counts = 11 /\
  exists t, tree sample_counts = Ok t /\
    forall p, 11 <= p < length t ->
      exists a b, a < b /\ t !! a = Some p /\ t !! b = Some p /\
        (forall x, t !! x = Some p -> x = a \/ x = b) /\
        huffman_codes t !!! b = huffman_codes t !!! p ++ ["0"] /\
        huffman_codes t !!! a = huffman_codes t !!! p ++ ["1"].
Proof.
  split; [reflexivity|]. apply (huffman_child_ordinals sample_counts). reflexivity.
Defined.

(** C6, as the specification has it, fails: with all counts zero, node 11
    has the children 0 and 1, and the child in the lower slot, 0, receives
    ordinal 1, not 0. *)
Lemma lower_child_gets_one :
  exists t, tree (replicate 11 0%Z) = Ok t /\
    t !! 0 = Some 11 /\ t !! 1 = Some 11 /\
    huffman_codes t !!! 11 = ["0"; "1"; "0"] /\
    huffman_codes t !!! 0 = ["0"; "1"; "0"; "1"] /\
    huffman_codes t !!! 1 = ["0"; "1"; "0"; "0"] /\
    huffman_codes t !!! 0 <> huffman_codes t !!! 11 ++ ["0"].
Proof. eexists. split; [by vm_compute|]. by vm_compute. Qed.

(** C10: for every table of 11 counts, [tree] returns an array of exactly
    21 entries, so the header is exactly 84 bits, 21 fields of 4 bits; in
    the file written, the root marker [0xF] is the high half of the 11th
    byte, and the low half of that byte is the start of the payload
    bitstream, which the header reader puts in the buffer. *)
Theorem header_is_84_bits counts :
  length counts = 11 ->
  exists t, tree counts = Ok t /\ length t = 21 /\ length (header_bits t) = 84 /\
    forall text, Forall symbol text ->
      exists file pad v,
        write_output t (huffman t) text = Ok file /\
        bits_of file = header_bits t ++ payload (huffman t) text ++ pad /\ zeros pad /\
        file !! 10 = Some v /\ (v ≫ 4)%Z = 15%Z /\
        format_b 4 (Z.land v 15) = take 4 (payload (huffman t) text ++ pad) /\
        read_header file [] = Ok (t, format_b 4 (Z.land v 15), drop 11 file).
Proof.
  intros Hlen. destruct (tree_huffman_tree counts Hlen) as (t & Htree & Ht).
  exists t. split; [done|]. split; [apply (ht_length t Ht)|].
  destruct (header_bits_facts t (huffman_tree_range t Ht)) as [_ Hlh].
  rewrite (ht_length t Ht) in Hlh. split; [done|]. intros text Htext.
  destruct (write_output_spec t (huffman t) text Ht (huffman_code_table t Ht) Htext)
    as (file & pad & Hw & Hbytes & Hbits & Hpad).
  destruct (root_byte t file _ Ht Hbytes Hbits) as (v & Hv & Ha & Hb).
  destruct (read_header_spec t file _ Ht Hbytes Hbits) as (Hread & _).
  exists file, pad, v. split_and!; try done. by rewrite Hb.
Qed.

Lemma header_is_84_bits_witness :
  length sample_counts = 11 /\
  exists t, tree sample_counts = Ok t /\ length t = 21 /\ length (header_bits t) = 84 /\
    forall text, Forall symbol text ->
      exists file pad v,
        write_output t (huffman t) text = Ok file /\
        bits_of file = header_bits t ++ payload (huffman t) text ++ pad /\ zeros pad /\
        file !! 10 = Some v /\ (v ≫ 4)%Z = 15%Z /\
        format_b 4 (Z.land v 15) = take 4 (payload (huffman t) text ++ pad) /\
        read_header file [] = Ok (t, format_b 4 (Z.land v 15), drop 11 file).
Proof.
  split; [reflexivity|]. apply (header_is_84_bits sample_counts). reflexivity.
Defined.

(** C3: for every tree that [tree] returns and every token stream written
    after it, reading the header back, with nothing but the bytes of the
    file to go by, stops at the root marker: it returns the same array, so
    [huffman] gives the same code table, and it has consumed exactly the
    bits of the fields written, 4 for each entry of the array; what follows
    them in the file is left in the buffer and in the bytes not yet read. *)
Theorem header_roundtrip counts text :
  length counts = 11 -> Forall symbol text ->
  exists t file header buf rest,
    tree counts = Ok t /\ write_output t (huffman t) text = Ok file /\
    read_header file [] = Ok (header, buf, rest) /\
    header = t /\ length header = length t /\ huffman header = huffman t /\
    buf ++ bits_of rest = drop (4 * length t) (bits_of file).
Proof.
  intros Hlen Htext. destruct (tree_huffman_tree counts Hlen) as (t & Htree & Ht).
  destruct (write_output_spec t (huffman t) text Ht (huffman_code_table t Ht) Htext)
    as (file & pad & Hw & Hbytes & Hbits & Hpad).
  destruct (read_header_spec t file _ Ht Hbytes Hbits) as (Hread & Hrest & _).
  destruct (header_bits_facts t (huffman_tree_range t Ht)) as [_ Hlh].
  exists t, file, t, (take 4 (payload (huffman t) text ++ pad)), (drop 11 file).
  split_and!; try done.
  by rewrite Hrest, Hbits, <- Hlh, drop_app_length.
Qed.

Lemma header_roundtrip_witness :
  length sample_counts = 11 /\ Forall symbol [7%Z; 10%Z; 0%Z; 0%Z] /\
  exists t file header buf rest,
    tree sample_counts = Ok t /\
    write_output t (huffman t) [7%Z; 10%Z; 0%Z; 0%Z] = Ok file /\
    read_header file [] = Ok (header, buf, rest) /\
    header = t /\ length header = length t /\ huffman header = huffman t /\
    buf ++ bits_of rest = drop (4 * length t) (bits_of file).
Proof.
  assert (Hsym : Forall symbol [7%Z; 10%Z; 0%Z; 0%Z])
    by (repeat constructor; unfold symbol; lia).
  split; [reflexivity|]. split; [exact Hsym|].
  apply (header_roundtrip sample_counts); [reflexivity|exact Hsym].
Defined.

(** C4, as the code has it: for every file of integer lines, no number of
    the token stream starts with two symbols 0: two symbols 0 in a row come
    neither first in the payload nor right after a separator (they do come
    later in a number, as in [100]).  So the decoder, which looks for the
    EOF sequence in the first two symbols of a number, has not met it
    before any token of the payload. *)
Theorem no_number_starts_with_two_zeros src :
  Forall int_line (map strip src) ->
  exists i counts text,
    read_input src = Ok (i, counts, text ++ [0%Z; 0%Z]) /\
    (forall p q, text = p ++ [0%Z; 0%Z] ++ q -> exists p' d, p = p' ++ [d] /\ d <> 10%Z) /\
    (forall b, live text (DState b [] [] 0 true)).
Proof.
  intros Hsrc. eexists _, _, _. split; [by apply read_input_spec|]. split.
  - intros p q. by apply data_zero_pair.
  - intros b. by apply feeds_data.
Qed.

Lemma no_number_starts_with_two_zeros_witness :
  Forall int_line (map strip [["1"; "0"; "0"; newline]]) /\
  exists i counts text,
    read_input [["1"; "0"; "0"; newline]] = Ok (i, counts, text ++ [0%Z; 0%Z]) /\
    (forall p q, text = p ++ [0%Z; 0%Z] ++ q -> exists p' d, p = p' ++ [d] /\ d <> 10%Z) /\
    (forall b, live text (DState b [] [] 0 true)).
Proof.
  assert (Hsrc : Forall int_line (map strip [["1"; "0"; "0"; newline]])).
  { constructor; [|constructor]. exists ["1"; "0"; "0"]. split; [|by left].
    repeat constructor; unfold is_digit; vm_compute; lia. }
  split; [exact Hsrc|].
  apply (no_number_starts_with_two_zeros [["1"; "0"; "0"; newline]]). exact Hsrc.
Defined.

(** C4, as the specification has it, fails: the canonical line [100] is
    tokenized as 1, 0, 0, two symbols 0 in a row inside the payload. *)
Lemma adjacent_zeros_in_payload :
  canonical ["1"; "0"; "0"] /\
  exists counts text,
    read_input [["1"; "0"; "0"; newline]] = Ok (1, counts, text ++ [0%Z; 0%Z]) /\
    text = [1%Z; 0%Z; 0%Z; 10%Z] /\
    text !! 1 = Some 0%Z /\ text !! 2 = Some 0%Z.
Proof.
  split.
  - right. exists "1", ["0"; "0"]. split_and!; [| |repeat constructor|by left];
      try done; unfold is_digit; vm_compute; lia.
  - eexists _, [1%Z; 0%Z; 0%Z; 10%Z]. split; [by vm_compute|done].
Qed.

(** C7: in a file of integer lines, a line whose text is [-0] is printed by
    the decoder as the bare sign [-]: its only token is the symbol 0, which
    the decoder takes for the sign, and at the separator the number is not
    empty, so the rule that prints [0] for an empty number does not
    apply. *)
Theorem minus_zero_decodes_to_sign src :
  src <> [] -> Forall int_line (map strip src) ->
  exists i file,
    ENCODE src = Ok (i, file) /\
    forall fuel, 8 * length file <= fuel ->
      exists st, DECODE fuel i file = Ok st /\
        forall k line, src !! k = Some line -> strip line = ["-"; "0"] ->
          lines st !! k = Some ["-"].
Proof.
  intros Hne Hsrc.
  destruct (HUFF_spec src 0 Hne Hsrc) as (i & file & Henc & -> & _).
  exists (length src), file. split; [done|]. intros fuel Hfuel.
  destruct (HUFF_spec src fuel Hne Hsrc) as (i' & file' & Henc' & -> & Hdec).
  rewrite Henc in Henc'. injection Henc' as <-.
  destruct (Hdec Hfuel) as (st & Hst & _ & Hlines & _).
  exists st. split; [done|]. intros k line Hk Hline.
  rewrite Hlines, !list_lookup_fmap, Hk. simpl. by rewrite Hline.
Qed.

Lemma minus_zero_decodes_to_sign_witness :
  minus_zero_file <> [] /\ Forall int_line (map strip minus_zero_file) /\
  exists i file,
    ENCODE minus_zero_file = Ok (i, file) /\
    forall fuel, 8 * length file <= fuel ->
      exists st, DECODE fuel i file = Ok st /\
        forall k line, minus_zero_file !! k = Some line -> strip line = ["-"; "0"] ->
          lines st !! k = Some ["-"].
Proof.
  assert (Hsrc : Forall int_line (map strip minus_zero_file)).
  { constructor; [|constructor; [|constructor]].
    - exists ["5"]. split; [|by left]. repeat constructor; unfold is_digit; vm_compute; lia.
    - exists ["0"]. split; [|by right]. repeat constructor; unfold is_digit; vm_compute; lia. }
  split; [discriminate|]. split; [exact Hsrc|].
  apply (minus_zero_decodes_to_sign minus_zero_file); [discriminate|exact Hsrc].
Defined.

(** C8: when DECODE reads the file that ENCODE wrote from a file of integer
    lines, with the line count [i] of that run, the assertion [j <= i] never
    fails, whatever the bound on the turns of the inner loop; whenever
    DECODE returns, it has printed no more lines than ENCODE read, and it
    does return, with [j = i], once the bound is large enough. *)
Theorem decode_never_exceeds_line_count src i file fuel :
  Forall int_line (map strip src) -> ENCODE src = Ok (i, file) ->
  DECODE fuel i file <> Err AssertionError /\
  (forall st, DECODE fuel i file = Ok st -> j st <= i) /\
  (8 * length file <= fuel -> exists st, DECODE fuel i file = Ok st /\ j st = i).
Proof.
  intros Hsrc Henc. destruct (ENCODE_inv src i file Hsrc Henc) as [Hne ->].
  assert (Hbig : forall fuel', 8 * length file <= fuel' ->
            exists st, DECODE fuel' (length src) file = Ok st /\ j st = length src).
  { intros fuel' Hfuel.
    destruct (HUFF_spec src fuel' Hne Hsrc) as (i' & file' & Henc' & -> & Hdec).
    rewrite Henc in Henc'. injection Henc' as <-.
    destruct (Hdec Hfuel) as (st & Hst & _ & _ & Hj & _).
    exists st. split; [done|]. by rewrite Hj, !length_map. }
  split_and!; [| |by apply Hbig].
  - intros Herr. destruct (decide (fuel <= 8 * length file)) as [Hle|Hgt].
    + destruct (Hbig _ (Nat.le_refl _)) as (st & Hst & _).
      by rewrite (DECODE_mono _ _ _ _ _ Herr ltac:(done) Hle) in Hst.
    + destruct (Hbig fuel ltac:(lia)) as (st & Hst & _). by rewrite Herr in Hst.
  - intros st Hst. destruct (decide (fuel <= 8 * length file)) as [Hle|Hgt].
    + destruct (Hbig _ (Nat.le_refl _)) as (st' & Hst' & Hj).
      rewrite (DECODE_mono _ _ _ _ _ Hst ltac:(done) Hle) in Hst'.
      injection Hst' as <-. lia.
    + destruct (Hbig fuel ltac:(lia)) as (st' & Hst' & Hj).
      rewrite Hst in Hst'. injection Hst' as <-. lia.
Qed.

Lemma decode_never_exceeds_line_count_witness :
  Forall int_line (map strip minus_zero_file) /\
  exists file, ENCODE minus_zero_file = Ok (2, file) /\
    DECODE 200 2 file <> Err AssertionError /\
    (forall st, DECODE 200 2 file = Ok st -> j st <= 2) /\
    (8 * length file <= 200 -> exists st, DECODE 200 2 file = Ok st /\ j st = 2).
Proof.
  assert (Hsrc : Forall int_line (map strip minus_zero_file)).
  { constructor; [|constructor; [|constructor]].
    - exists ["5"]. split; [|by left]. repeat constructor; unfold is_digit; vm_compute; lia.
    - exists ["0"]. split; [|by right]. repeat constructor; unfold is_digit; vm_compute; lia. }
  split; [exact Hsrc|]. eexists. split; [vm_compute; reflexivity|].
  apply (decode_never_exceeds_line_count minus_zero_file); [exact Hsrc|].
  vm_compute. reflexivity.
Defined.

(** Lines that are not integers can break the line count: the character [/] is
    counted and written as [counts[-1]] and [codes[-1]], the separator, so
    a line [1/2] is decoded as two lines and the assertion fails. *)
Lemma separator_character_fails_assertion :
  HUFF 200 [["1"; "/"; "2"]] = Err AssertionError.
Proof. by vm_compute. Qed.

(** C1, as the code has it: for every file of at least one line, each line
    a canonical integer (the digit 0, or an optional sign and digits that
    start with a digit other than 0), ENCODE writes a file from which
    DECODE prints exactly the lines read, and stops on the EOF sequence. *)
Theorem encode_decode_roundtrip src :
  src <> [] -> Forall canonical (map strip src) ->
  exists i file,
    ENCODE src = Ok (i, file) /\
    forall fuel, 8 * length file <= fuel ->
      exists st, DECODE fuel i file = Ok st /\
        lines st = map strip src /\ writing st = false.
Proof.
  intros Hne Hsrc. destruct (canonical_lines _ Hsrc) as [Hint Hnorm].
  destruct (HUFF_spec src 0 Hne Hint) as (i & file & Henc & -> & _).
  exists (length src), file. split; [done|]. intros fuel Hfuel.
  destruct (HUFF_spec src fuel Hne Hint) as (i' & file' & Henc' & -> & Hdec).
  rewrite Henc in Henc'. injection Henc' as <-.
  destruct (Hdec Hfuel) as (st & Hst & _ & Hlines & _ & Hw).
  exists st. split; [done|]. split; [|done]. by rewrite Hlines, Hnorm.
Qed.

Lemma encode_decode_roundtrip_witness :
  sample_file <> [] /\ Forall canonical (map strip sample_file) /\
  exists i file,
    ENCODE sample_file = Ok (i, file) /\
    forall fuel, 8 * length file <= fuel ->
      exists st, DECODE fuel i file = Ok st /\
        lines st = map strip sample_file /\ writing st = false.
Proof.
  assert (Hsrc : Forall canonical (map strip sample_file)).
  { constructor; [|constructor; [|constructor; [|constructor]]].
    - right. exists "7", []. split_and!; [| |constructor|by left];
        try done; unfold is_digit; vm_compute; lia.
    - right. exists "4", ["2"]. split_and!; [| |repeat constructor|by right];
        try done; unfold is_digit; vm_compute; lia.
    - by left. }
  split; [discriminate|]. split; [exact Hsrc|].
  apply (encode_decode_roundtrip sample_file); [discriminate|exact Hsrc].
Defined.

(** C1, as the specification has it, fails at two files.  On the empty
    file ENCODE raises in its statistics; on the line [-0] DECODE prints
    [-]. *)
Lemma roundtrip_fails :
  (forall fuel, HUFF fuel [] = Err ZeroDivisionError) /\
  exists st, HUFF 200 [["-"; "0"; newline]] = Ok st /\
    lines st = [["-"]] /\ lines st <> [["-"; "0"]].
Proof.
  split; [intros fuel; by vm_compute|].
  eexists. split; [by vm_compute|]. by vm_compute.
Qed.

(** C9 fails on the code: on the empty file the token stream is the EOF
    sequence alone and no symbol is counted, so the division [bits/count]
    of the statistics raises before the output is written.  The stages of
    the codec themselves take the empty stream: written without the
    statistics, the file is the header and one byte more, and DECODE reads
    it back to no line at all. *)
Theorem empty_file_raises :
  read_input [] = Ok (0, replicate 11 0%Z, [0%Z; 0%Z]) /\
  ENCODE [] = Err ZeroDivisionError /\
  exists t file,
    tree (replicate 11 0%Z) = Ok t /\
    write_output t (huffman t) [0%Z; 0%Z] = Ok file /\ length file = 12 /\
    DECODE 96 0 file = Ok (DState ["0"; "0"; "0"; "0"] ["-"; "0"] [] 0 false).
Proof.
  split; [by vm_compute|]. split; [by vm_compute|].
  eexists _, _. split; [by vm_compute|]. split; [by vm_compute|]. by vm_compute.
Qed.

(** * Further properties of the code *)

(** ** The shape of the tree and the length of the codes *)

Lemma code_depth t :
  huffman_tree t ->
  forall p, 11 <= p < 21 -> length (huffman_codes t !!! p) <= 20 - p.
Proof.
  intros Ht p. remember (20 - p) as n eqn:Hn. revert p Hn.
  induction n as [n IH] using lt_wf_ind. intros p Hn Hp.
  destruct (huffman_tree_codes t Ht) as (_ & Hroot & _).
  destruct (decide (p = 20)) as [->|Hp20]; [rewrite Hroot; simpl; lia|].
  destruct (code_parent t p Ht ltac:(lia)) as (q & c & _ & ? & ? & Hc & _).
  rewrite Hc, length_app. simpl.
  specialize (IH (20 - q) ltac:(lia) q eq_refl ltac:(lia)). lia.
Qed.

(** X1: for every table of 11 counts, [tree] raises nothing, and in the
    array it returns every entry is either the root marker or the index of
    an internal node, at least 11, that lies above the entry's own index
    and inside the array: children come before their parents and no leaf is
    a parent. *)
Theorem tree_parents_above_children counts :
  length counts = 11 ->
  exists t, tree counts = Ok t /\
    forall x p, t !! x = Some p -> p = root \/ (11 <= p /\ x < p < length t).
Proof.
  intros Hlen. destruct (tree_huffman_tree counts Hlen) as (t & Htree & Ht).
  exists t. split; [done|]. intros x p Hx.
  pose proof (lookup_lt_Some _ _ _ Hx) as Hlt.
  rewrite (ht_length t Ht) in *.
  destruct (decide (x = 20)) as [->|Hne].
  - left. pose proof (ht_root t Ht) as Hr. congruence.
  - right. destruct (ht_parent t Ht x ltac:(lia)) as (p' & Hp' & ? & ?).
    assert (p = p') as -> by congruence. lia.
Qed.

Lemma tree_parents_above_children_witness :
  length sample_counts = 11 /\
  exists t, tree sample_counts = Ok t /\
    forall x p, t !! x = Some p -> p = root \/ (11 <= p /\ x < p < length t).
Proof.
  split; [reflexivity|]. apply (tree_parents_above_children sample_counts). reflexivity.
Defined.

(** X2: for every table of 11 counts, each of the 11 codes that [huffman]
    returns is a string of the characters 0 and 1 with at least 1 and at
    most 10 characters, whatever the counts are. *)
Theorem huffman_code_lengths counts :
  length counts = 11 ->
  exists t, tree counts = Ok t /\
    forall n c, huffman t !! n = Some c -> binary c /\ 1 <= length c <= 10.
Proof.
  intros Hlen. destruct (tree_huffman_tree counts Hlen) as (t & Htree & Ht).
  exists t. split; [done|]. intros n c Hn.
  unfold huffman in Hn. apply lookup_take_Some in Hn as [Hn Hn11].
  apply list_lookup_total_correct in Hn. subst c.
  split; [apply (code_binary t Ht); lia|].
  destruct (code_parent t n Ht ltac:(lia)) as (p & c & _ & ? & ? & Hc & _).
  rewrite Hc, length_app. simpl.
  pose proof (code_depth t Ht p ltac:(lia)). lia.
Qed.

Lemma huffman_code_lengths_witness :
  length sample_counts = 11 /\
  exists t, tree sample_counts = Ok t /\
    forall n c, huffman t !! n = Some c -> binary c /\ 1 <= length c <= 10.
Proof.
  split; [reflexivity|]. apply (huffman_code_lengths sample_counts). reflexivity.
Defined.

(** ** The tokenizer on any text *)

Lemma incr_token counts d :
  length counts = 11 -> token d ->
  incr counts d = Ok (<[slot d := (counts !!! slot d + 1)%Z]> counts).
Proof.
  intros Hlen Hd. unfold incr, py_index, token, slot in *. rewrite Hlen.
  destruct (decide (0 <= d)%Z).
  - rewrite decide_True by lia. cbn [mbind res_bind]. unfold get_item.
    rewrite list_lookup_lookup_total_lt by lia. cbn [mbind res_bind].
    unfold set_item. by rewrite decide_True by lia.
  - rewrite decide_False by lia. rewrite decide_True by lia.
    cbn [mbind res_bind]. unfold get_item.
    rewrite list_lookup_lookup_total_lt by lia. cbn [mbind res_bind].
    unfold set_item. by rewrite decide_True by lia.
Qed.

Lemma incr_outside counts d :
  length counts = 11 -> ~ token d -> incr counts d = Err IndexError.
Proof.
  intros Hlen Hd. unfold incr, py_index, token in *. rewrite Hlen.
  rewrite decide_False by lia. by rewrite decide_False by lia.
Qed.

Lemma slot_lt tok : token tok -> slot tok < 11.
Proof. unfold token, slot. case_decide; lia. Qed.

Lemma occurrences_app n t1 t2 :
  occurrences n (t1 ++ t2) = (occurrences n t1 + occurrences n t2)%Z.
Proof. unfold occurrences. rewrite filter_app, length_app. lia. Qed.

Lemma occurrences_one n tok :
  occurrences n [tok] = if decide (slot tok = n) then 1%Z else 0%Z.
Proof.
  unfold occurrences. rewrite filter_cons, filter_nil. by case_decide.
Qed.

(** What counting one token does to the counts. *)
Lemma incr_counts counts d counts' :
  length counts = 11 -> incr counts d = Ok counts' ->
  token d /\ length counts' = 11 /\
  total counts' = (total counts + 1)%Z /\
  forall n, n < 11 -> counts' !!! n = (counts !!! n + occurrences n [d])%Z.
Proof.
  intros Hlen Hincr. destruct (decide (token d)) as [Hd|Hd].
  2: { by rewrite incr_outside in Hincr. }
  rewrite incr_token in Hincr by done. injection Hincr as <-.
  pose proof (slot_lt d Hd) as Hs.
  split; [done|]. split; [by rewrite length_insert|]. split.
  - apply total_insert. apply list_lookup_lookup_total_lt. lia.
  - intros n Hn. rewrite occurrences_one. case_decide as Hsn.
    + subst n. by rewrite list_lookup_total_insert_eq by lia.
    + rewrite list_lookup_total_insert_ne by done. lia.
Qed.

(** The token of a character that is not skipped. *)
Lemma char_token c :
  token (ord (if decide (c = "-") then "0" else c) - ord "0") <-> in_charset c.
Proof.
  unfold token, in_charset, ord. case_decide as Hc.
  - subst c. vm_compute. intuition (try lia; try discriminate).
  - change (nat_of_ascii "0") with 48. lia.
Qed.

Lemma scan_char_eq leading counts text c :
  scan_char (leading, counts, text) c =
    if leading && bool_decide (c = "0") then Ok (leading, counts, text)
    else
      counts' ← incr counts (ord (if decide (c = "-") then "0" else c) - ord "0");
      Ok (if decide (c = "-") then leading else false, counts',
          text ++ [(ord (if decide (c = "-") then "0" else c) - ord "0")%Z]).
Proof.
  unfold scan_char. destruct (leading && bool_decide (c = "0")); [done|].
  by destruct (decide (c = "-")).
Qed.

Lemma counted_refl counts text : length counts = 11 -> counted counts text counts text.
Proof.
  intros Hlen. split; [done|]. exists []. rewrite app_nil_r.
  split; [done|]. split; [constructor|]. split; [simpl; lia|].
  intros n _. unfold occurrences. simpl. lia.
Qed.

Lemma counted_step counts0 text0 counts text d counts' :
  counted counts0 text0 counts text -> incr counts d = Ok counts' ->
  counted counts0 text0 counts' (text ++ [d]).
Proof.
  intros (Hlen & toks & -> & Htoks & Htot & Hocc) Hincr.
  destruct (incr_counts counts d counts' Hlen Hincr) as (Hd & Hlen' & Htot' & Hocc').
  split; [done|]. exists (toks ++ [d]). rewrite app_assoc. split; [done|].
  split; [apply Forall_app; split; [done|by constructor]|].
  split; [rewrite Htot', Htot, length_app; simpl; lia|].
  intros n Hn. rewrite Hocc', Hocc, occurrences_app by done. lia.
Qed.

Lemma scan_chars_counted counts0 text0 line : forall leading counts text leading' counts' text',
  counted counts0 text0 counts text ->
  scan_chars (leading, counts, text) line = Ok (leading', counts', text') ->
  counted counts0 text0 counts' text'.
Proof.
  induction line as [|c line IH]; intros leading counts text leading' counts' text' Hinv Hscan.
  { simpl in Hscan. by simplify_eq. }
  cbn [scan_chars] in Hscan. rewrite scan_char_eq in Hscan.
  destruct (leading && bool_decide (c = "0")).
  { cbn [mbind res_bind] in Hscan. by eapply IH. }
  destruct (incr counts _) as [counts1|] eqn:Hincr; [|done].
  cbn [mbind res_bind] in Hscan.
  eapply IH; [|exact Hscan]. by eapply counted_step.
Qed.

Lemma scan_lines_counted counts0 text0 src : forall i counts text i' counts' text',
  counted counts0 text0 counts text ->
  scan_lines (i, counts, text) src = Ok (i', counts', text') ->
  i' = i + length src /\ counted counts0 text0 counts' text' /\
  length text + length src <= length text'.
Proof.
  induction src as [|line src IH]; intros i counts text i' counts' text' Hinv Hscan.
  { simpl in Hscan. simplify_eq. split; [simpl; lia|]. split; [done|simpl; lia]. }
  cbn [scan_lines] in Hscan. unfold scan_line in Hscan.
  destruct (scan_chars (true, counts, text) (strip line)) as [[[l1 c1] t1]|] eqn:Hchars;
    [|done].
  cbn [mbind res_bind] in Hscan.
  destruct (incr c1 10) as [c2|] eqn:Hincr; [|done].
  cbn [mbind res_bind] in Hscan.
  pose proof (scan_chars_counted _ _ _ _ _ _ _ _ _ Hinv Hchars) as Hinv1.
  pose proof (counted_step _ _ _ _ _ _ Hinv1 Hincr) as Hinv2.
  destruct (IH _ _ _ _ _ _ Hinv2 Hscan) as (-> & Hinv' & Hlen).
  split; [simpl; lia|]. split; [done|].
  destruct Hinv as (Hlen0 & _).
  destruct (scan_chars_counted counts text _ _ _ _ _ _ _ (counted_refl _ _ Hlen0) Hchars)
    as (_ & toks1 & -> & _).
  rewrite !length_app in *. simpl in *. lia.
Qed.

(** The tokenizer stops with [IndexError] at the first character outside
    the character set, and at nothing else. *)
Lemma scan_chars_charset line : forall leading counts text,
  length counts = 11 ->
  if decide (Exists (fun c => ~ in_charset c) line)
  then scan_chars (leading, counts, text) line = Err IndexError
  else exists leading' counts' text',
         scan_chars (leading, counts, text) line = Ok (leading', counts', text').
Proof.
  induction line as [|c line IH]; intros leading counts text Hlen.
  { rewrite decide_False by (by intros ?%Exists_nil). simpl. eauto. }
  cbn [scan_chars]. rewrite scan_char_eq.
  destruct (leading && bool_decide (c = "0")) eqn:Hskip.
  - cbn [mbind res_bind]. specialize (IH leading counts text Hlen).
    assert (Hc : in_charset c).
    { apply andb_true_iff in Hskip as [_ Hc%bool_decide_eq_true]. subst c.
      unfold in_charset. vm_compute. lia. }
    destruct (decide (Exists _ line)) as [Hbad|Hok].
    + rewrite decide_True by (by apply Exists_cons_tl). done.
    + rewrite decide_False; [done|]. intros [?|?]%Exists_cons; done.
  - destruct (decide (in_charset c)) as [Hc|Hc].
    + rewrite incr_token by (done || by apply char_token). cbn [mbind res_bind].
      match goal with |- context [scan_chars (?l, ?cs, ?t) line] =>
        specialize (IH l cs t ltac:(by rewrite length_insert)) end.
      destruct (decide (Exists _ line)) as [Hbad|Hok].
      * rewrite decide_True by (by apply Exists_cons_tl). done.
      * rewrite decide_False; [done|]. intros [?|?]%Exists_cons; done.
    + rewrite incr_outside by (done || by rewrite char_token).
      rewrite decide_True by (by apply Exists_cons_hd). done.
Qed.

Lemma scan_lines_charset src : forall i counts text,
  length counts = 11 ->
  if decide (Exists bad_line src)
  then scan_lines (i, counts, text) src = Err IndexError
  else exists st, scan_lines (i, counts, text) src = Ok st.
Proof.
  induction src as [|line src IH]; intros i counts text Hlen.
  { rewrite decide_False by (by intros ?%Exists_nil). simpl. eauto. }
  cbn [scan_lines]. unfold scan_line.
  pose proof (scan_chars_charset (strip line) true counts text Hlen) as Hline.
  destruct (decide (Exists _ (strip line))) as [Hbad|Hok].
  { rewrite Hline. rewrite decide_True by (by apply Exists_cons_hd). done. }
  destruct Hline as (l1 & c1 & t1 & Hchars). rewrite Hchars. cbn [mbind res_bind].
  assert (Hinv : counted counts text c1 t1).
  { eapply scan_chars_counted; [|exact Hchars]. by apply counted_refl. }
  destruct Hinv as (Hlen1 & _).
  assert (H10 : token 10) by (unfold token; lia).
  rewrite (incr_token c1 10 Hlen1 H10). cbn [mbind res_bind].
  match goal with |- context [scan_lines (?i', ?cs, ?t) src] =>
    specialize (IH i' cs t ltac:(by rewrite length_insert)) end.
  destruct (decide (Exists _ src)) as [Hbad'|Hok'].
  - rewrite decide_True by (by apply Exists_cons_tl). done.
  - rewrite decide_False; [done|]. intros [?|?]%Exists_cons; done.
Qed.

(** X3: whenever the tokenizer returns, the line count is the number of
    lines read, the token stream ends with the EOF sequence [0, 0], every
    token before it indexes one of the 11 slots, and [counts[n]] is exactly
    the number of those tokens that index slot [n]: the EOF sequence is
    written but not counted. *)
Theorem read_input_counts src i counts text :
  read_input src = Ok (i, counts, text) ->
  i = length src /\ length counts = 11 /\
  exists toks, text = toks ++ [0%Z; 0%Z] /\ Forall token toks /\
    length src <= length toks /\
    forall n, n < 11 -> counts !!! n = occurrences n toks.
Proof.
  unfold read_input. intros Hread.
  destruct (scan_lines (0, replicate 11 0%Z, []) src) as [[[i1 c1] t1]|] eqn:Hscan; [|done].
  cbn [mbind res_bind] in Hread. injection Hread as <- <- <-.
  destruct (scan_lines_counted (replicate 11 0%Z) [] src 0 _ _ _ _ _
              (counted_refl (replicate 11 0%Z) [] eq_refl) Hscan)
    as (-> & (Hlen & toks & -> & Htoks & _ & Hocc) & Hsrc).
  split; [done|]. split; [done|]. exists toks. split; [done|]. split; [done|].
  split; [simpl in Hsrc; lia|].
  intros n Hn. rewrite (Hocc n Hn), lookup_total_replicate_2 by done. lia.
Qed.

Lemma read_input_counts_witness :
  exists i counts text,
    read_input sample_file = Ok (i, counts, text) /\
    i = length sample_file /\ length counts = 11 /\
    exists toks, text = toks ++ [0%Z; 0%Z] /\ Forall token toks /\
      length sample_file <= length toks /\
      forall n, n < 11 -> counts !!! n = occurrences n toks.
Proof.
  eexists _, _, _. split; [vm_compute; reflexivity|].
  apply (read_input_counts sample_file). vm_compute. reflexivity.
Defined.

(** ** The writer on any token stream, and its padding *)

Lemma py_get_token (codes : list str) tok :
  length codes = 11 -> token tok -> py_get codes tok = Ok (codes !!! slot tok).
Proof.
  intros Hlen Htok. unfold py_get, py_index, token, slot in *. rewrite Hlen.
  destruct (decide (0 <= tok)%Z).
  - rewrite decide_True by lia. cbn [mbind res_bind]. unfold get_item.
    by rewrite list_lookup_lookup_total_lt by lia.
  - rewrite decide_False by lia. rewrite decide_True by lia.
    cbn [mbind res_bind]. unfold get_item.
    by rewrite list_lookup_lookup_total_lt by lia.
Qed.

Lemma payload_token (codes : list str) tok text :
  length codes = 11 -> token tok ->
  payload codes (tok :: text) = codes !!! slot tok ++ payload codes text.
Proof. intros Hlen Htok. unfold payload. simpl. by rewrite py_get_token. Qed.

Lemma code_table_slot (codes : list str) tok :
  code_table codes -> token tok ->
  binary (codes !!! slot tok) /\ codes !!! slot tok <> [].
Proof.
  intros [Hlen Hbin Hne] Htok. pose proof (slot_lt tok Htok) as Hs.
  assert (Hl : codes !! slot tok = Some (codes !!! slot tok))
    by (apply list_lookup_lookup_total_lt; lia).
  split.
  - by apply (Forall_lookup_1 _ _ _ _ Hbin Hl).
  - by apply (Forall_lookup_1 _ _ _ _ Hne Hl).
Qed.

(** The inner loop pads only when the tokens are used up, and then to
    exactly one byte. *)
Lemma load_pad codes :
  code_table codes ->
  forall text b, Forall token text -> binary b ->
  exists b' t' pad,
    load codes b text = Ok (b', t') /\
    b' ++ payload codes t' = b ++ payload codes text ++ pad /\
    zeros pad /\ binary b' /\ Forall token t' /\
    (8 <= length b' \/ (b' = [] /\ t' = [])) /\
    (pad = [] \/ (t' = [] /\ length b' = 8 /\ length pad < 8)).
Proof.
  intros Hc. induction text as [|tok text IH]; intros b Htext Hb; simpl.
  - repeat case_decide.
    + exists (b ++ replicate (8 - length b) "0"), [], (replicate (8 - length b) "0").
      split; [done|]. split; [unfold payload; simpl; by rewrite app_nil_r|].
      split; [by apply Forall_replicate|].
      split; [apply Forall_app; split; [done|]; apply Forall_replicate; auto|].
      split; [done|].
      split; [left; rewrite length_app, length_replicate; lia|].
      right. rewrite length_app, length_replicate. split; [done|lia].
    + exists b, [], []. destruct b; [|simpl in *; lia].
      split_and!; [done|done|constructor|done|done|by right|by left].
    + exists b, [], []. rewrite !app_nil_r.
      split_and!; [done|done|constructor|done|done|left; lia|by left].
  - apply Forall_cons in Htext as [Htok Htext]. case_decide.
    + rewrite py_get_token by (done || apply Hc). simpl.
      destruct (code_table_slot codes tok Hc Htok) as [Hbin _].
      destruct (IH (b ++ codes !!! slot tok) Htext) as (b' & t' & pad & Hl & Heq & Hrest).
      { by apply Forall_app. }
      exists b', t', pad. split; [done|]. split; [|done].
      rewrite Heq, payload_token by (done || apply Hc). by rewrite <- !app_assoc.
    + exists b, (tok :: text), []. rewrite !app_nil_r.
      split_and!; [done|done|constructor|done|by constructor|left; lia|by left].
Qed.

Lemma write_loop_pad (codes : list str) :
  code_table codes ->
  forall n buffer text (out : list Z),
    length buffer + length (payload codes text) = n ->
    binary buffer -> Forall token text ->
    (8 <= length buffer \/ (buffer = [] /\ text = [])) ->
    exists out' pad,
      write_loop codes buffer text out = Ok (out ++ out') /\
      bits_of out' = buffer ++ payload codes text ++ pad /\
      zeros pad /\ length pad < 8 /\ Forall byte out'.
Proof.
  intros Hc n. induction n as [n IH] using lt_wf_ind.
  intros buffer text out Hn Hbuf Htext Hhead. rewrite write_loop_eq.
  destruct Hhead as [Hlen|[-> ->]].
  - rewrite bool_decide_eq_true_2 by (right; intros ->; simpl in Hlen; lia).
    unfold write_step.
    rewrite <- (take_drop 8 buffer) in Hbuf. apply Forall_app in Hbuf as [Htake Hdrop].
    destruct (byte_of_bits_spec (take 8 buffer)) as (v & -> & Hv & Hfmt);
      [rewrite length_take; lia|done|]. simpl.
    destruct (load_pad codes Hc text (drop 8 buffer) Htext Hdrop)
      as (b' & t' & pad1 & -> & Heq & Hpad1 & Hb' & Ht' & Hhead' & Hcase). simpl.
    assert (Hlens : length b' + length (payload codes t') < n).
    { apply (f_equal length) in Heq. rewrite !length_app, length_drop in Heq.
      destruct Hcase as [->|(-> & Hb8 & Hp8)]; simpl in *; [lia|].
      unfold payload in *. simpl in *. lia. }
    destruct (IH _ Hlens b' t' (out ++ [v]) eq_refl Hb' Ht' Hhead')
      as (out' & pad2 & -> & Hbits & Hpad2 & Hlpad2 & Hbytes).
    assert (Hlpad : length (pad1 ++ pad2) < 8).
    { destruct Hcase as [->|(-> & Hb8 & Hp8)]; [done|].
      apply (f_equal length) in Hbits.
      rewrite length_bits_of, !length_app in Hbits by done.
      unfold payload in Hbits. simpl in Hbits.
      assert (length pad2 = 0) as ->%nil_length_inv by lia.
      by rewrite app_nil_r. }
    exists (v :: out'), (pad1 ++ pad2).
    split; [by rewrite <- app_assoc|].
    split; [|split; [by apply Forall_app|split; [done|by constructor]]].
    unfold bits_of in *. simpl. rewrite Hbits, Hfmt, (app_assoc b'), Heq.
    rewrite <- !app_assoc. by rewrite (app_assoc (take 8 buffer)), take_drop.
  - rewrite bool_decide_eq_false_2 by (intros [?|?]; done).
    exists [], []. rewrite app_nil_r. split_and!; try done; try constructor. simpl. lia.
Qed.

Lemma write_output_pad t (codes : list str) text :
  huffman_tree t -> code_table codes -> Forall token text ->
  exists file pad,
    write_output t codes text = Ok file /\ Forall byte file /\
    bits_of file = header_bits t ++ payload codes text ++ pad /\
    zeros pad /\ length pad < 8.
Proof.
  intros Ht Hc Htext. unfold write_output.
  destruct (header_bits_facts t (huffman_tree_range t Ht)) as [Hbin Hlen].
  rewrite (ht_length t Ht) in Hlen.
  destruct (write_loop_pad codes Hc _ (header_bits t) text [] eq_refl Hbin Htext)
    as (file & pad & Hw & Hbits & Hpad & Hlpad & Hbytes); [left; lia|].
  exists file, pad. by rewrite Hw.
Qed.

(** X4: for every table of 11 counts and every stream of tokens that index
    the 11 slots, the writer raises nothing; the bits of the file are the 84
    bits of the header, the codes of the tokens in order, and fewer than 8
    padding bits, all 0; so the file has as many bytes as the 84 bits and
    the codes need, rounded up. *)
Theorem written_file_size counts text :
  length counts = 11 -> Forall token text ->
  exists t file pad,
    tree counts = Ok t /\ write_output t (huffman t) text = Ok file /\
    Forall byte file /\
    bits_of file = header_bits t ++ payload (huffman t) text ++ pad /\
    zeros pad /\ length pad < 8 /\
    length file = (84 + length (payload (huffman t) text) + 7) / 8.
Proof.
  intros Hlen Htext. destruct (tree_huffman_tree counts Hlen) as (t & Htree & Ht).
  destruct (write_output_pad t (huffman t) text Ht (huffman_code_table t Ht) Htext)
    as (file & pad & Hw & Hbytes & Hbits & Hpad & Hlpad).
  exists t, file, pad. split_and!; try done.
  destruct (header_bits_facts t (huffman_tree_range t Ht)) as [_ Hlh].
  rewrite (ht_length t Ht) in Hlh.
  pose proof (f_equal length Hbits) as Hl.
  rewrite length_bits_of, !length_app, Hlh in Hl by done.
  apply (Nat.div_unique _ 8 _ (7 - length pad)); lia.
Qed.

Lemma written_file_size_witness :
  length sample_counts = 11 /\ Forall token [7%Z; 10%Z; (-1)%Z; 0%Z; 0%Z] /\
  exists t file pad,
    tree sample_counts = Ok t /\
    write_output t (huffman t) [7%Z; 10%Z; (-1)%Z; 0%Z; 0%Z] = Ok file /\
    Forall byte file /\
    bits_of file
    = header_bits t ++ payload (huffman t) [7%Z; 10%Z; (-1)%Z; 0%Z; 0%Z] ++ pad /\
    zeros pad /\ length pad < 8 /\
    length file = (84 + length (payload (huffman t) [7%Z; 10%Z; (-1)%Z; 0%Z; 0%Z]) + 7) / 8.
Proof.
  assert (Htok : Forall token [7%Z; 10%Z; (-1)%Z; 0%Z; 0%Z])
    by (repeat constructor; unfold token; lia).
  split; [reflexivity|]. split; [exact Htok|].
  apply (written_file_size sample_counts); [reflexivity|exact Htok].
Defined.

(** ** The outcome of ENCODE *)

(** X5: what ENCODE does is decided by the characters of the file alone.
    It raises [IndexError] when a line, stripped, has a character outside
    [%] to [:] (the tokenizer indexes [counts] out of range); otherwise it
    raises [ZeroDivisionError] when the file has no line; otherwise it
    writes a file and its line count is the number of lines read. *)
Theorem ENCODE_outcome src :
  exists file,
    ENCODE src =
      if decide (Exists bad_line src) then Err IndexError
      else if decide (src = []) then Err ZeroDivisionError
      else Ok (length src, file).
Proof.
  unfold ENCODE, read_input.
  pose proof (scan_lines_charset src 0 (replicate 11 0%Z) [] eq_refl) as Hscan.
  destruct (decide (Exists bad_line src)) as [Hbad|Hok].
  { exists []. by rewrite Hscan. }
  destruct Hscan as ([[i counts] text] & Hscan). rewrite Hscan. cbn [mbind res_bind].
  destruct (scan_lines_counted (replicate 11 0%Z) [] src 0 _ _ _ _ _
              (counted_refl (replicate 11 0%Z) [] eq_refl) Hscan)
    as (-> & (Hlen & toks & -> & Htoks & Htot & _) & Hsrc).
  destruct (tree_huffman_tree counts Hlen) as (t & -> & Ht). cbn [mbind res_bind].
  pose proof (huffman_code_table t Ht) as Hc.
  rewrite infos_spec by (done || apply Hc).
  change (total (replicate 11 0%Z)) with 0%Z in Htot. simpl in Hsrc.
  destruct (decide (src = [])) as [->|Hne].
  { destruct toks; [|done]. exists []. by rewrite decide_True by (rewrite Htot; done). }
  rewrite decide_False by (destruct src; [done|simpl in Hsrc; lia]).
  cbn [mbind res_bind].
  destruct (write_output_pad t (huffman t) (([] ++ toks) ++ [0%Z; 0%Z]) Ht Hc)
    as (file & _ & -> & _).
  { apply Forall_app. split; [done|]. repeat constructor; unfold token; lia. }
  by exists file.
Qed.

(** ** Normalized lines *)

Lemma strip0_idemp ds : strip0 (strip0 ds) = strip0 ds.
Proof.
  induction ds as [|c ds IH]; [done|]. simpl.
  case_decide as Hc; [done|]. simpl. by rewrite decide_False.
Qed.

Lemma digit_not_space c : is_digit c \/ c = "-" -> is_space c = false.
Proof.
  intros [Hc%digit_cases| ->]; [|done].
  repeat (apply elem_of_cons in Hc as [->|Hc]; [done|]).
  by apply elem_of_nil in Hc.
Qed.

Lemma lstrip_head c s : is_space c = false -> lstrip (c :: s) = c :: s.
Proof. intros Hc. simpl. by rewrite Hc. Qed.

(** A number printed by the decoder is read back as it is. *)
Lemma strip_printed l :
  l <> [] -> Forall (fun c => is_digit c \/ c = "-") l -> strip (l ++ [newline]) = l.
Proof.
  intros Hne Hl. unfold strip.
  destruct l as [|c l]; [done|]. clear Hne.
  pose proof (Forall_inv Hl) as Hc. apply digit_not_space in Hc.
  change ((c :: l) ++ [newline]) with (c :: (l ++ [newline])).
  rewrite lstrip_head by done.
  change (c :: (l ++ [newline])) with ((c :: l) ++ [newline]).
  rewrite reverse_app. change (reverse [newline]) with [newline].
  change ([newline] ++ reverse (c :: l)) with (newline :: reverse (c :: l)).
  cbn [lstrip]. change (is_space newline) with true. cbn iota.
  destruct (reverse (c :: l)) as [|d r] eqn:Hrev.
  { apply (f_equal length) in Hrev. rewrite length_reverse in Hrev. done. }
  assert (Hd : is_space d = false).
  { apply digit_not_space.
    assert (Hin : d ∈ c :: l) by (rewrite <- elem_of_reverse, Hrev; left).
    by apply (proj1 (Forall_forall _ _) Hl). }
  rewrite lstrip_head by done. by rewrite <- Hrev, reverse_involutive.
Qed.

(** What the decoder prints for a line is a line with the same tokens. *)
Lemma normalize_line l :
  int_line l ->
  normalize l <> [] /\ Forall (fun c => is_digit c \/ c = "-") (normalize l) /\
  int_line (normalize l) /\ line_toks (normalize l) = line_toks l.
Proof.
  assert (H0 : is_digit "0") by (unfold is_digit; vm_compute; lia).
  assert (Hall : forall ds, Forall is_digit ds -> Forall (fun c => is_digit c \/ c = "-") ds).
  { intros ds Hds. eapply Forall_impl; [exact Hds|]. auto. }
  assert (Hz : Forall (fun c => is_digit c \/ c = "-") ["0"])
    by (constructor; [by left|constructor]).
  assert (Hiz : int_line ["0"]).
  { exists ["0"]. split; [|by left]. constructor; [done|constructor]. }
  intros (ds & Hds & [-> | ->]).
  - destruct ds as [|c ds'].
    { by split_and!. }
    pose proof (Forall_inv Hds) as Hc.
    destruct (digit_facts c Hc) as (_ & _ & Hminus & _).
    unfold normalize. rewrite decide_False by done.
    destruct (strip0_cases (c :: ds') Hds) as [Hs|(d & r & Hs & Hd & Hd0 & Hr)].
    + rewrite decide_True by done.
      split; [done|]. split; [done|]. split; [done|].
      unfold line_toks. rewrite !decide_False by done. by rewrite Hs.
    + rewrite decide_False by (rewrite Hs; done). rewrite Hs.
      destruct (digit_facts d Hd) as (_ & _ & Hdminus & _).
      split; [done|]. split; [apply Hall; by constructor|].
      split; [exists (d :: r); split; [by constructor|by left]|].
      unfold line_toks. rewrite !decide_False by done.
      by rewrite <- Hs, strip0_idemp.
  - unfold normalize. rewrite decide_True by done.
    pose proof (strip0_digits ds Hds) as Hs.
    split; [done|]. split; [constructor; [by right|by apply Hall]|].
    split; [exists (strip0 ds); split; [done|by right]|].
    unfold line_toks. rewrite !decide_True by done. by rewrite strip0_idemp.
Qed.

Lemma normalize_lines ls :
  Forall int_line ls ->
  map strip (printed (map normalize ls)) = map normalize ls /\
  Forall int_line (map normalize ls) /\
  data (map normalize ls) = data ls.
Proof.
  induction 1 as [|l ls Hl _ (IH1 & IH2 & IH3)]; [done|].
  destruct (normalize_line l Hl) as (Hne & Hchars & Hint & Htoks).
  unfold printed in *. cbn [map]. split_and!.
  - by rewrite strip_printed, IH1.
  - by constructor.
  - unfold data in *. cbn [map concat]. by rewrite Htoks, IH3.
Qed.

(** X6: ENCODE and then DECODE normalize a file of integer lines, and the
    normal form is a fixed point.  For every file of at least one line, each
    line an optional sign and digits, DECODE prints for each line its normal
    form (leading zeros dropped, [0] for a line of zeros or an empty line,
    the sign kept), and running ENCODE on the lines printed gives the same
    line count and the same bytes as on the file itself. *)
Theorem reencoding_is_identical src :
  src <> [] -> Forall int_line (map strip src) ->
  exists i file,
    ENCODE src = Ok (i, file) /\
    forall fuel, 8 * length file <= fuel ->
      exists st, DECODE fuel i file = Ok st /\
        lines st = map normalize (map strip src) /\
        ENCODE (printed (lines st)) = Ok (i, file).
Proof.
  intros Hne Hsrc.
  destruct (HUFF_spec src 0 Hne Hsrc) as (i & file & Henc & -> & _).
  exists (length src), file. split; [done|]. intros fuel Hfuel.
  destruct (HUFF_spec src fuel Hne Hsrc) as (i' & file' & Henc' & -> & Hdec).
  rewrite Henc in Henc'. injection Henc' as <-.
  destruct (Hdec Hfuel) as (st & Hst & _ & Hlines & _).
  exists st. split; [done|]. split; [done|].
  destruct (normalize_lines _ Hsrc) as (Hstrip & Hint & Hdata).
  rewrite <- Henc, Hlines. unfold ENCODE.
  rewrite (read_input_spec src Hsrc), (read_input_spec (printed _)) by (by rewrite Hstrip).
  rewrite Hstrip, Hdata. unfold printed. by rewrite !length_map.
Qed.

Lemma reencoding_is_identical_witness :
  [["0"; "0"; "7"; newline]; ["-"; "0"; "4"; "2"]] <> [] /\
  Forall int_line (map strip [["0"; "0"; "7"; newline]; ["-"; "0"; "4"; "2"]]) /\
  exists i file,
    ENCODE [["0"; "0"; "7"; newline]; ["-"; "0"; "4"; "2"]] = Ok (i, file) /\
    forall fuel, 8 * length file <= fuel ->
      exists st, DECODE fuel i file = Ok st /\
        lines st = map normalize (map strip [["0"; "0"; "7"; newline]; ["-"; "0"; "4"; "2"]]) /\
        ENCODE (printed (lines st)) = Ok (i, file).
Proof.
  assert (Hsrc : Forall int_line
            (map strip [["0"; "0"; "7"; newline]; ["-"; "0"; "4"; "2"]])).
  { constructor; [|constructor; [|constructor]].
    - exists ["0"; "0"; "7"]. split; [|by left].
      repeat constructor; unfold is_digit; vm_compute; lia.
    - exists ["0"; "4"; "2"]. split; [|by right].
      repeat constructor; unfold is_digit; vm_compute; lia. }
  split; [discriminate|]. split; [exact Hsrc|].
  apply (reencoding_is_identical [["0"; "0"; "7"; newline]; ["-"; "0"; "4"; "2"]]);
    [discriminate|exact Hsrc].
Defined.

(** ** The header reader on any file *)

Lemma field_nibble a : (0 <= a < 16)%Z -> field (Z.to_nat (a + 11)) = format_b 4 a.
Proof. intros Ha. unfold field. f_equal. lia. Qed.

Lemma read_header_any file : forall acc header buf rest,
  Forall byte file -> read_header file acc = Ok (header, buf, rest) ->
  exists fields k,
    header = acc ++ fields ++ [root] /\ Forall (fun n => 11 <= n < root) fields /\
    rest = drop (S k) file /\
    header_bits (fields ++ [root]) ++ buf ++ bits_of rest = bits_of file /\
    (length fields = 2 * k /\ length buf = 4 \/ length fields = 2 * k + 1 /\ buf = []).
Proof.
  induction file as [|v file IH]; intros acc header buf rest Hfile Hread; [done|].
  apply Forall_cons in Hfile as [Hv Hfile].
  destruct (byte_facts v Hv) as (_ & Hsplit & Ha & Hb & _).
  cbn [read_header] in Hread. cbn zeta in Hread. rewrite bits_of_cons, Hsplit.
  destruct (decide ((v ≫ 4)%Z <> 15%Z)) as [Hna|Hea].
  - destruct (decide (Z.land v 15 = 15%Z)) as [Heb|Hnb].
    + injection Hread as <- <- <-.
      exists [Z.to_nat ((v ≫ 4) + 11)], 0. split_and!.
      * by rewrite <- app_assoc, Heb.
      * constructor; [unfold root; lia|constructor].
      * done.
      * cbn [app]. rewrite !header_bits_cons, field_nibble by done.
        change (field root) with (format_b 4 15). rewrite Heb.
        change (header_bits []) with (@nil ascii). by rewrite <- !app_assoc.
      * by right.
    + destruct (IH _ _ _ _ Hfile Hread) as (fields & k & -> & Hf & -> & Hbits & Hcase).
      exists (Z.to_nat ((v ≫ 4) + 11) :: Z.to_nat (Z.land v 15 + 11) :: fields), (S k).
      split_and!.
      * by rewrite <- !app_assoc.
      * constructor; [unfold root; lia|]. constructor; [unfold root; lia|done].
      * done.
      * cbn [app]. rewrite !header_bits_cons, !field_nibble by done.
        rewrite <- Hbits. by rewrite <- !app_assoc.
      * simpl. destruct Hcase as [[? ?]|[? ?]]; [left|right]; split; (done || lia).
  - injection Hread as <- <- <-.
    assert (Ha15 : (v ≫ 4)%Z = 15%Z) by (destruct (decide ((v ≫ 4)%Z = 15%Z)); [done|tauto]).
    exists [], 0. split_and!.
    + by rewrite Ha15.
    + constructor.
    + done.
    + cbn [app]. rewrite header_bits_cons. change (field root) with (format_b 4 15).
      change (header_bits []) with (@nil ascii). rewrite Ha15. by rewrite <- !app_assoc.
    + left. split; [done|]. by destruct (nibble_facts _ Hb) as (-> & _).
Qed.

Lemma read_header_no_root file : forall acc,
  Forall (fun v => (v ≫ 4)%Z <> 15%Z /\ Z.land v 15 <> 15%Z) file ->
  read_header file acc = Err TypeError.
Proof.
  induction file as [|v file IH]; intros acc Hfile; [done|].
  apply Forall_cons in Hfile as [[Ha Hb] Hfile]. cbn [read_header]. cbn zeta.
  rewrite decide_True by done. rewrite decide_False by done. by apply IH.
Qed.

(** X7: the header reader needs nothing but the bytes.  Whenever it
    returns, the array it returns ends with its only root marker, reached
    after [k] whole bytes; the bits of the file are exactly the 4-bit
    fields of that array, then the buffer, then the bytes left unread; and
    the buffer holds the low half of the last byte read when the marker is
    the high half, and is empty when the marker is the low half. *)
Theorem read_header_self_delimiting file header buf rest :
  Forall byte file -> read_header file [] = Ok (header, buf, rest) ->
  exists fields k,
    header = fields ++ [root] /\ Forall (fun n => 11 <= n < root) fields /\
    rest = drop (S k) file /\
    header_bits header ++ buf ++ bits_of rest = bits_of file /\
    (length fields = 2 * k /\ length buf = 4 \/ length fields = 2 * k + 1 /\ buf = []).
Proof.
  intros Hfile Hread.
  destruct (read_header_any file [] header buf rest Hfile Hread)
    as (fields & k & -> & Hf & -> & Hbits & Hcase).
  exists fields, k. by split_and!.
Qed.

Lemma read_header_self_delimiting_witness :
  Forall byte [18; 63; 7]%Z /\
  exists header buf rest,
    read_header [18; 63; 7]%Z [] = Ok (header, buf, rest) /\
    exists fields k,
      header = fields ++ [root] /\ Forall (fun n => 11 <= n < root) fields /\
      rest = drop (S k) [18; 63; 7]%Z /\
      header_bits header ++ buf ++ bits_of rest = bits_of [18; 63; 7]%Z /\
      (length fields = 2 * k /\ length buf = 4 \/ length fields = 2 * k + 1 /\ buf = []).
Proof.
  assert (Hfile : Forall byte [18; 63; 7]%Z) by (repeat constructor; unfold byte; lia).
  split; [exact Hfile|]. eexists _, _, _. split; [vm_compute; reflexivity|].
  apply (read_header_self_delimiting [18; 63; 7]%Z); [exact Hfile|].
  vm_compute. reflexivity.
Defined.

(** X8: a file in which no half byte is [0xF], the empty file among them,
    has no root marker: the header reader runs into the end of the file and
    DECODE raises [TypeError], whatever the line count and the bound. *)
Theorem missing_root_marker fuel i file :
  Forall (fun v => (v ≫ 4)%Z <> 15%Z /\ Z.land v 15 <> 15%Z) file ->
  DECODE fuel i file = Err TypeError.
Proof.
  intros Hfile. unfold DECODE. by rewrite read_header_no_root.
Qed.

Lemma missing_root_marker_witness :
  Forall (fun v => (v ≫ 4)%Z <> 15%Z /\ Z.land v 15 <> 15%Z) [18; 52; 0]%Z /\
  DECODE 100 3 [18; 52; 0]%Z = Err TypeError.
Proof.
  assert (Hfile : Forall (fun v => (v ≫ 4)%Z <> 15%Z /\ Z.land v 15 <> 15%Z) [18; 52; 0]%Z)
    by (repeat constructor; discriminate).
  split; [exact Hfile|]. apply (missing_root_marker 100 3 [18; 52; 0]%Z). exact Hfile.
Defined.

(** ** The decoder on any file *)

Lemma find_digit_range codes (B : str) : forall range n code,
  find_digit codes B range = Ok (Some (n, code)) -> n ∈ range.
Proof.
  induction range as [|m range IH]; intros n code Hfind; [done|].
  cbn [find_digit] in Hfind.
  destruct (get_item codes m) as [c|]; [|done]. cbn [mbind res_bind] in Hfind.
  destruct (matches B c).
  - injection Hfind as -> _. left.
  - right. by eapply IH.
Qed.

Lemma digit_char_facts n :
  n < 10 -> is_digit (digit_char n) /\ (digit_char n = "0" <-> n = 0).
Proof.
  intros Hn. unfold is_digit.
  do 10 (destruct n as [|n]; [vm_compute; intuition (lia || discriminate)|]). lia.
Qed.

Lemma partial_number_digit num n :
  partial_number num -> num <> ["-"; "0"] -> n < 10 ->
  partial_number (if decide (length num = 0 /\ n = 0) then ["-"] else num ++ [digit_char n]).
Proof.
  intros Hnum Heof Hn. destruct (digit_char_facts n Hn) as [Hd Hd0].
  destruct Hnum as [->|[->|[->|(d & ds & Hd' & Hd0' & Hds & [-> | ->])]]]; [| |done|..].
  - case_decide as Hc; [right; by left|].
    do 3 right. exists (digit_char n), []. split; [done|].
    split; [intros ?%Hd0; simpl in Hc; tauto|]. split; [constructor|by left].
  - rewrite decide_False by (simpl; lia). simpl.
    destruct (decide (n = 0)) as [->|Hn0]; [right; right; by left|].
    do 3 right. exists (digit_char n), []. split; [done|].
    split; [by intros ?%Hd0|]. split; [constructor|by right].
  - rewrite decide_False by (simpl; lia).
    do 3 right. exists d, (ds ++ [digit_char n]). split; [done|]. split; [done|].
    split; [apply Forall_app; split; [done|by constructor]|by left].
  - rewrite decide_False by (simpl; lia).
    do 3 right. exists d, (ds ++ [digit_char n]). split; [done|]. split; [done|].
    split; [apply Forall_app; split; [done|by constructor]|by right].
Qed.

Lemma partial_number_line num :
  partial_number num -> num <> ["-"; "0"] ->
  (if decide (num = []) then ["0"] else num) = ["-"] \/
  canonical (if decide (num = []) then ["0"] else num).
Proof.
  intros [->|[->|[->|(d & ds & Hd & Hd0 & Hds & [-> | ->])]]] Heof;
    [right; by left|by left|done|..].
  - right. right. by exists d, ds; split_and!; [..|left].
  - right. right. by exists d, ds; split_and!; [..|right].
Qed.

Lemma decode_codes_sound codes i : forall fuel st st',
  sound i st -> decode_codes fuel codes i st = Ok st' -> sound i st'.
Proof.
  induction fuel as [|fuel IH]; intros st st' Hst Hdec; [done|].
  rewrite decode_codes_S in Hdec. destruct Hst as [Hj Hlen Hlines Hnum].
  case_decide as Heof; [injection Hdec as <-; by split|].
  destruct (py_get codes (-1)) as [sep|]; [|done]. cbn [mbind res_bind] in Hdec.
  destruct (matches (buffer st) sep).
  - cbn zeta in Hdec. case_decide; [|done].
    apply IH in Hdec; [done|]. split; cbn [j lines number].
    + done.
    + rewrite length_app. simpl. lia.
    + apply Forall_app. split; [done|]. constructor; [|constructor].
      by apply partial_number_line.
    + by left.
  - destruct (find_digit codes (buffer st) (seq 0 10)) as [[[n code]|]|] eqn:Hfind;
      [| |done]; cbn [mbind res_bind] in Hdec.
    + cbn zeta in Hdec. apply IH in Hdec; [done|]. split; cbn [j lines number]; try done.
      apply partial_number_digit; [done|done|].
      apply find_digit_range in Hfind. apply elem_of_seq in Hfind. lia.
    + injection Hdec as <-. by split.
Qed.

Lemma decode_loop_sound codes i fuel : forall src st st',
  sound i st -> decode_loop fuel codes i src st = Ok st' -> sound i st'.
Proof.
  induction src as [|v src IH]; intros st st' Hst Hdec.
  { simpl in Hdec. destruct (writing st); by injection Hdec as <-. }
  rewrite decode_loop_cons in Hdec. destruct (writing st); [|by injection Hdec as <-].
  destruct (decode_codes fuel codes i _) as [st1|] eqn:Hinner; [|done].
  cbn [mbind res_bind] in Hdec. eapply IH; [|exact Hdec].
  eapply decode_codes_sound; [|exact Hinner]. by destruct Hst.
Qed.

Lemma DECODE_sound fuel i file st : DECODE fuel i file = Ok st -> sound i st.
Proof.
  unfold DECODE. destruct (read_header file []) as [[[header buf] src]|]; [|done].
  cbn [mbind res_bind]. apply decode_loop_sound.
  split; cbn [j lines number]; [lia|done|constructor|by left].
Qed.

(** X9: the assertion guards every file.  Whatever bytes DECODE is given,
    and whatever line count [i], whenever it returns it has printed exactly
    [j] lines and [j] is at most [i]. *)
Theorem decode_line_count_bound fuel i file st :
  DECODE fuel i file = Ok st -> j st <= i /\ length (lines st) = j st.
Proof. intros [Hj Hlen _ _]%DECODE_sound. done. Qed.

Lemma decode_line_count_bound_witness :
  exists st, DECODE 200 9 corrupt_file = Ok st /\ j st <= 9 /\ length (lines st) = j st.
Proof.
  eexists. split; [vm_compute; reflexivity|].
  apply (decode_line_count_bound 200 9 corrupt_file). vm_compute. reflexivity.
Defined.



(** ** A root marker that comes too early *)

Lemma read_header_last file : forall acc header buf rest,
  read_header file acc = Ok (header, buf, rest) -> exists h, header = h ++ [root].
Proof.
  induction file as [|v file IH]; intros acc header buf rest Hread; [done|].
  cbn [read_header] in Hread. cbn zeta in Hread.
  destruct (decide ((v ≫ 4)%Z <> 15%Z)) as [Hna|Hea].
  - destruct (decide (Z.land v 15 = 15%Z)) as [Heb|Hnb]; [|by eapply IH].
    injection Hread as <- <- <-. rewrite Heb. by eexists.
  - injection Hread as <- <- <-.
    assert ((v ≫ 4)%Z = 15%Z) as -> by (destruct (decide ((v ≫ 4)%Z = 15%Z)); [done|tauto]).
    by eexists.
Qed.

Lemma length_huffman_loop t : forall n code children,
  length (huffman_loop t n code children) = length code.
Proof.
  induction n as [|n IH]; intros code children; [done|]. cbn [huffman_loop]. cbn zeta.
  case_decide; rewrite IH; [|done]. by rewrite length_insert.
Qed.

(** The backward loop at [n] leaves the codes from [n] on as they are. *)
Lemma huffman_loop_above t : forall n code children x,
  n <= x -> huffman_loop t n code children !!! x = code !!! x.
Proof.
  induction n as [|n IH]; intros code children x Hx; [done|].
  cbn [huffman_loop]. cbn zeta. case_decide; rewrite IH by lia; [|done].
  apply list_lookup_total_insert_ne. lia.
Qed.

(** With at most 11 entries, the last code of the table, the one the
    decoder takes for the separator, is the code of the root: empty. *)
Lemma short_header_separator h :
  length (h ++ [root]) <= 11 -> py_get (huffman (h ++ [root])) (-1) = Ok [].
Proof.
  intros Hlen. rewrite length_app in Hlen. simpl in Hlen.
  assert (Hl : length (huffman_codes (h ++ [root])) = S (length h)).
  { unfold huffman_codes. rewrite length_huffman_loop, length_replicate, length_app.
    simpl. lia. }
  unfold huffman. rewrite take_ge by lia.
  unfold py_get, py_index. rewrite Hl.
  rewrite decide_False by lia. rewrite decide_True by lia. cbn [mbind res_bind].
  replace (Z.to_nat (Z.of_nat (S (length h)) + -1)) with (length h) by lia.
  unfold get_item. rewrite list_lookup_lookup_total_lt by lia. f_equal.
  unfold huffman_codes. rewrite length_app. simpl.
  replace (length h + 1) with (S (length h)) by lia.
  cbn [huffman_loop]. cbn zeta.
  rewrite list_lookup_total_middle by done.
  rewrite decide_False by (rewrite length_app; unfold root; simpl; lia).
  rewrite huffman_loop_above by done.
  by rewrite lookup_total_replicate_2 by lia.
Qed.

(** With the empty code for the separator, the decoder prints lines until
    the assertion fails. *)
Lemma decode_codes_empty_separator codes i :
  py_get codes (-1) = Ok [] ->
  forall k fuel st, number st = [] -> j st + k = i -> k < fuel ->
    decode_codes fuel codes i st = Err AssertionError.
Proof.
  intros Hsep. induction k as [|k IH]; intros fuel st Hnum Hj Hfuel;
    (destruct fuel as [|fuel]; [lia|]); rewrite decode_codes_S, Hnum, Hsep;
    rewrite decide_False by done; cbn [mbind res_bind];
    assert (matches (buffer st) [] = true) as -> by (by destruct (buffer st));
    cbn zeta.
  - by rewrite decide_False by lia.
  - rewrite decide_True by lia. apply IH; cbn [number j]; [done|lia|lia].
Qed.

(** X11: a root marker within the first 11 fields of the header is not
    refused by the header reader, and it makes the table of [huffman] end
    with the empty code, which the decoder takes for the separator.  So
    when at least one byte follows such a header, DECODE prints [0] until
    the assertion on the line count fails. *)
Theorem early_root_marker_fails_assertion fuel i file header buf rest :
  read_header file [] = Ok (header, buf, rest) ->
  length header <= 11 -> rest <> [] -> i < fuel ->
  DECODE fuel i file = Err AssertionError.
Proof.
  intros Hread Hlen Hrest Hfuel. unfold DECODE. rewrite Hread. cbn [mbind res_bind].
  destruct (read_header_last _ _ _ _ _ Hread) as [h ->].
  destruct rest as [|v rest]; [done|]. rewrite decode_loop_cons. cbn [writing].
  rewrite (decode_codes_empty_separator _ i (short_header_separator h Hlen) i); try done.
Qed.

Lemma early_root_marker_fails_assertion_witness :
  exists header buf rest,
    read_header [18; 63; 7]%Z [] = Ok (header, buf, rest) /\
    length header <= 11 /\ rest <> [] /\ 3 < 10 /\
    DECODE 10 3 [18; 63; 7]%Z = Err AssertionError.
Proof.
  eexists _, _, _. split; [vm_compute; reflexivity|].
  split; [vm_compute; lia|]. split; [discriminate|]. split; [lia|].
  eapply (early_root_marker_fails_assertion 10 3 [18; 63; 7]%Z).
  - vm_compute. reflexivity.
  - vm_compute. lia.
  - discriminate.
  - lia.
Defined.

(** ** A file cut short *)

Lemma feed_lines tok st : lines st `prefix_of` lines (feed tok st).
Proof. unfold feed. case_decide; cbn [lines]; [by eexists|done]. Qed.

Lemma feeds_lines toks : forall st, lines st `prefix_of` lines (feeds toks st).
Proof.
  induction toks as [|tok toks IH]; intros st; [done|]. cbn [feeds].
  etrans; [apply feed_lines|apply IH].
Qed.

Lemma feeds_take_lines toks k st :
  lines (feeds (take k toks) st) `prefix_of` lines (feeds toks st).
Proof.
  rewrite <- (take_drop k toks) at 2. rewrite feeds_app. apply feeds_lines.
Qed.

Lemma bits_of_take file : forall k,
  Forall byte file -> bits_of (take k file) = take (8 * k) (bits_of file).
Proof.
  induction file as [|v file IH]; intros k Hfile.
  { rewrite take_nil. change (bits_of []) with (@nil ascii). by rewrite take_nil. }
  apply Forall_cons in Hfile as [Hv Hfile]. destruct k as [|k]; [done|].
  destruct (byte_facts v Hv) as (_ & _ & _ & _ & Hl & _).
  cbn [take]. rewrite !bits_of_cons, take_app_ge by lia. rewrite Hl.
  rewrite IH by done. do 2 f_equal. lia.
Qed.

Section decoder_prefix.
Context (codes : list str) (Hct : code_table codes) (Hpf : prefix_free codes).
Context (i : nat).

(** The outer loop on a stream of codes that the bytes at hand may not
    hold to its end: the decoder has taken some of the tokens, whole, and
    it has stopped on the EOF sequence only if the bytes held them all. *)
Lemma decode_loop_prefix : forall src st toks (X pad : str) fuel,
  writing st = true -> Forall symbol toks -> Forall byte src ->
  (buffer st ++ bits_of src) ++ X = payload codes toks ++ pad ->
  (forall k, k < length toks -> number (feeds (take k toks) st) <> ["-"; "0"]) ->
  number (feeds toks st) = ["-"; "0"] ->
  j (feeds toks st) <= i ->
  length (buffer st) + 8 * length src < fuel ->
  exists st' k,
    decode_loop fuel codes i src st = Ok st' /\
    lines st' = lines (feeds (take k toks) st) /\
    (writing st' = false ->
     length (payload codes toks) <= length (buffer st) + 8 * length src).
Proof.
  induction src as [|v src IH]; intros st toks X pad fuel Hw Htoks Hsrc Hbits Hlive Hend Hj Hfuel.
  { exists st, 0. simpl. rewrite Hw. split; [done|]. split; [done|]. congruence. }
  apply Forall_cons in Hsrc as [Hv Hsrc].
  destruct (byte_facts v Hv) as (_ & _ & _ & _ & Hlv & _).
  rewrite decode_loop_cons, Hw.
  rewrite bits_of_cons, app_assoc, <- app_assoc in Hbits.
  set (B0 := buffer st ++ format_b 8 v) in *.
  assert (HlB0 : length B0 = length (buffer st) + 8).
  { unfold B0. rewrite length_app. lia. }
  destruct (split_tokens codes Hct toks B0 (bits_of src ++ X) pad Htoks Hbits)
    as [[B1 HB0]|(ts1 & t & ts2 & B1 & Hsplit & HB0 & Hpre & Hshort)].
  - (* the rest of the stream is in the buffer *)
    pose proof (length_payload codes Hct toks Htoks) as Hlp.
    assert (Hlen : length toks < fuel).
    { apply (f_equal length) in HB0. rewrite length_app in HB0. simpl in Hfuel. lia. }
    assert (Hinner : decode_codes fuel codes i (with_buffer B0 st)
              = Ok (ended (with_buffer B1 (feeds toks st)))).
    { replace fuel with (length toks + S (fuel - length toks - 1)) by lia.
      rewrite (decode_codes_run codes Hct Hpf i toks _ B1); [|done| |..].
      - rewrite feeds_with_buffer, with_buffer_with_buffer.
        by rewrite decode_codes_eof.
      - intros k Hk. rewrite feeds_with_buffer. by apply Hlive.
      - by rewrite feeds_with_buffer.
      - done. }
    rewrite Hinner. cbn [mbind res_bind].
    rewrite decode_loop_ended by done.
    eexists _, (length toks). split; [done|]. rewrite take_ge by lia.
    split; [done|]. intros _.
    apply (f_equal length) in HB0. rewrite length_app in HB0. simpl. lia.
  - (* the buffer ends inside the code of [t] *)
    subst toks. apply Forall_app in Htoks as [Hts1 Hts2].
    apply Forall_cons in Hts2 as [Ht Hts2].
    pose proof (length_payload codes Hct ts1 Hts1) as Hlp.
    assert (Hlen : length ts1 < fuel).
    { apply (f_equal length) in HB0. rewrite length_app in HB0. simpl in Hfuel. lia. }
    assert (Hinner : decode_codes fuel codes i (with_buffer B0 st)
              = Ok (with_buffer B1 (feeds ts1 st))).
    { replace fuel with (length ts1 + S (fuel - length ts1 - 1)) by lia.
      rewrite (decode_codes_run codes Hct Hpf i ts1 _ B1); [|done| |..].
      - rewrite feeds_with_buffer, with_buffer_with_buffer.
        apply (decode_codes_stall codes Hct Hpf i _ _ t); [done| |done|done].
        cbn [number with_buffer]. rewrite <- (take_app_length ts1 (t :: ts2)).
        apply Hlive. rewrite length_app. simpl. lia.
      - intros k Hk. rewrite feeds_with_buffer. cbn [number with_buffer].
        rewrite <- (take_app_le ts1 (t :: ts2)) by lia. apply Hlive.
        rewrite length_app. lia.
      - rewrite feeds_with_buffer. cbn [j with_buffer].
        rewrite feeds_app in Hj. pose proof (feeds_j (t :: ts2) (feeds ts1 st)). lia.
      - done. }
    rewrite Hinner. cbn [mbind res_bind].
    rewrite HB0, payload_app, <- !app_assoc in Hbits. apply app_inv_head in Hbits.
    destruct (IH (with_buffer B1 (feeds ts1 st)) (t :: ts2) X pad fuel)
      as (st' & k & Hdec & Hlines & Hstop); try done.
    + cbn [writing with_buffer]. by rewrite feeds_writing.
    + by constructor.
    + cbn [buffer with_buffer]. by rewrite <- app_assoc.
    + intros k Hk. rewrite feeds_with_buffer. cbn [number with_buffer].
      rewrite <- feeds_app.
      replace (ts1 ++ take k (t :: ts2))
        with (take (length ts1 + k) (ts1 ++ t :: ts2))
        by (by rewrite take_app_add).
      apply Hlive. rewrite length_app. lia.
    + rewrite feeds_with_buffer. cbn [number with_buffer]. by rewrite <- feeds_app.
    + rewrite feeds_with_buffer. cbn [j with_buffer]. by rewrite <- feeds_app.
    + cbn [buffer with_buffer]. apply (f_equal length) in HB0.
      rewrite length_app in HB0. simpl in Hfuel. lia.
    + exists st', (length ts1 + k). split; [done|]. split.
      * rewrite Hlines, feeds_with_buffer. cbn [lines with_buffer].
        by rewrite take_app_add, feeds_app.
      * intros Hstop'. specialize (Hstop Hstop'). cbn [buffer with_buffer] in Hstop.
        apply (f_equal length) in HB0. rewrite length_app in HB0.
        rewrite payload_app, length_app. simpl. lia.
Qed.
End decoder_prefix.

(** A file that ends inside the header. *)
Lemma read_header_cut : forall k h acc file (R : str) n,
  length h = 2 * k -> Forall (fun n => 11 <= n < root) h ->
  Forall byte file -> bits_of file = header_bits h ++ R -> n <= k ->
  read_header (take n file) acc = Err TypeError.
Proof.
  induction k as [|k IH]; intros h acc file R n Hlen Hh Hfile Hbits Hn.
  { assert (n = 0) as -> by lia. by rewrite take_0. }
  destruct n as [|n]; [by rewrite take_0|].
  destruct h as [|x [|y h]]; [done|simpl in Hlen; lia|].
  apply Forall_cons in Hh as [Hx Hh]. apply Forall_cons in Hh as [Hy Hh].
  rewrite !header_bits_cons in Hbits.
  destruct (field_facts x) as [Hlx _]; [lia|].
  destruct (field_facts y) as [Hly _]; [lia|].
  rewrite <- !app_assoc in Hbits.
  destruct (bits_of_inv file _ Hfile Hbits) as (v & file' & -> & Hv & Hfile' & Hfmt & Hrest).
  { rewrite !length_app. lia. }
  destruct (header_byte v x (field y ++ header_bits h ++ R) Hv) as [Ha Hb];
    [lia|rewrite length_app; lia|done|].
  rewrite take_app_length' in Hb by done.
  assert (Hb' : Z.land v 15 = (Z.of_nat y - 11)%Z).
  { destruct (byte_facts v Hv) as (_ & _ & _ & Hb4 & _).
    apply format_b_4_inj in Hb; [done|done|unfold root in Hy; lia]. }
  cbn [take read_header]. cbn zeta. rewrite Ha, Hb'.
  rewrite decide_True by (unfold root in Hx; lia).
  rewrite decide_False by (unfold root in Hy; lia).
  rewrite drop_app_ge in Hrest by lia. rewrite Hlx in Hrest.
  rewrite drop_app_length' in Hrest by done.
  apply (IH h _ file' R); try done; simpl in Hlen; lia.
Qed.

Lemma symbol_token toks : Forall symbol toks -> Forall token toks.
Proof. intros H. eapply Forall_impl; [exact H|]. unfold symbol, token. lia. Qed.

(** ENCODE on a file of integer lines, with the bound on the padding. *)
Lemma ENCODE_pad src :
  src <> [] -> Forall int_line (map strip src) ->
  exists t file pad,
    tree (tally (replicate 11 0%Z) (data (map strip src))) = Ok t /\ huffman_tree t /\
    ENCODE src = Ok (length src, file) /\ Forall byte file /\
    bits_of file
      = header_bits t ++ payload (huffman t) (data (map strip src) ++ [0%Z; 0%Z]) ++ pad /\
    zeros pad /\ length pad < 8.
Proof.
  intros Hne Hsrc.
  destruct (ENCODE_spec src Hne Hsrc) as (t & file & pad & Htree & Ht & Henc & _).
  pose proof (symbol_data _ Hsrc) as Hsym.
  destruct (write_output_pad t (huffman t) (data (map strip src) ++ [0%Z; 0%Z]) Ht
              (huffman_code_table t Ht)) as (file' & pad' & Hw & Hbytes & Hbits & Hpad & Hlpad).
  { apply symbol_token. apply Forall_app. split; [done|]. by repeat constructor. }
  exists t, file', pad'. split_and!; try done.
  unfold ENCODE in *. rewrite (read_input_spec src Hsrc) in *. cbn [mbind res_bind] in *.
  rewrite Htree in *. cbn [mbind res_bind] in *.
  destruct (infos _ _); [|done]. cbn [mbind res_bind] in *. by rewrite Hw.
Qed.

(** DECODE on the first [n] bytes of the file that ENCODE wrote. *)
Lemma DECODE_cut ls t file (pad : str) fuel n :
  ls <> [] -> Forall int_line ls ->
  tree (tally (replicate 11 0%Z) (data ls)) = Ok t -> huffman_tree t ->
  Forall byte file ->
  bits_of file = header_bits t ++ payload (huffman t) (data ls ++ [0%Z; 0%Z]) ++ pad ->
  length pad < 8 -> 8 * length file <= fuel -> n < length file ->
  if decide (n < 11) then DECODE fuel (length ls) (take n file) = Err TypeError
  else exists st, DECODE fuel (length ls) (take n file) = Ok st /\
         writing st = true /\ lines st `prefix_of` map normalize ls.
Proof.
  intros Hne Hls Htree Ht Hbytes Hbits Hlpad Hfuel Hn.
  pose proof (huffman_code_table t Ht) as Hct.
  assert (Hpf : prefix_free (huffman t)).
  { intros x y cx cy Hxy Hx Hy. by apply (huffman_prefix_free t x y). }
  destruct (huffman_tree_fields t Ht) as (Hsplit & Hlen20 & Hall).
  destruct (header_bits_facts t (huffman_tree_range t Ht)) as [_ Hlh].
  rewrite (ht_length t Ht) in Hlh.
  set (P := payload (huffman t) (data ls ++ [0%Z; 0%Z])) in *.
  pose proof (f_equal length Hbits) as Hlfile.
  rewrite length_bits_of, !length_app, Hlh in Hlfile by done.
  case_decide as Hn11.
  { unfold DECODE.
    rewrite (read_header_cut 10 (take 20 t) [] file (field root ++ P ++ pad) n);
      try done; [|lia].
    rewrite Hbits. rewrite Hsplit at 1. by rewrite header_bits_app, <- app_assoc. }
  assert (Hcut : bits_of (take n file) = header_bits t ++ take (8 * n - 84) (P ++ pad)).
  { rewrite bits_of_take, Hbits by done. rewrite take_app_ge by lia.
    by rewrite Hlh. }
  assert (Hbytes' : Forall byte (take n file)) by (by apply Forall_take).
  destruct (read_header_spec t (take n file) _ Ht Hbytes' Hcut) as (Hread & Hrest & HR).
  unfold DECODE. rewrite Hread. cbn [mbind res_bind].
  set (R := take (8 * n - 84) (P ++ pad)) in *.
  set (st0 := DState (take 4 R) [] [] 0 true).
  destruct (feeds_data ls st0 Hls eq_refl) as [Hfeeds Hlive].
  assert (Hfeeds' : feeds (data ls ++ [0%Z; 0%Z]) st0
            = DState (take 4 R) ["-"; "0"] (map normalize ls) (length ls) true).
  { by rewrite feeds_app, Hfeeds. }
  destruct (decode_loop_prefix (huffman t) Hct Hpf (length ls) (drop 11 (take n file)) st0
              (data ls ++ [0%Z; 0%Z]) (drop (8 * n - 84) (P ++ pad)) pad fuel)
    as (st & k & Hdec & Hlines & Hstop); try done.
  - apply Forall_app. split; [by apply symbol_data|]. by repeat constructor.
  - by apply Forall_drop.
  - unfold st0. cbn [buffer]. rewrite Hrest. unfold R. by rewrite take_drop.
  - intros k Hk. apply live_take; [|done]. apply live_app. split; [done|].
    rewrite Hfeeds. by repeat split.
  - by rewrite Hfeeds'.
  - by rewrite Hfeeds'.
  - unfold st0. cbn [buffer]. rewrite length_take, length_drop, length_take. lia.
  - exists st. split; [done|]. split.
    + destruct (writing st) eqn:Hw; [done|]. specialize (Hstop eq_refl).
      unfold st0 in Hstop. cbn [buffer] in Hstop.
      rewrite length_take, length_drop, length_take in Hstop. fold P in Hstop. lia.
    + rewrite Hlines. etrans; [apply feeds_take_lines|]. by rewrite Hfeeds'.
Qed.

(** X12: a file cut short is refused only inside the header.  Take the
    file that ENCODE wrote from at least one integer line, and keep its
    first [n] bytes, fewer than all.  With fewer than 11 bytes the header
    reader runs into the end and DECODE raises [TypeError].  With 11 bytes
    or more DECODE raises nothing: it returns without having met the EOF
    sequence, and the lines it has printed are the first lines of the
    normalized file. *)
Theorem truncated_file src :
  src <> [] -> Forall int_line (map strip src) ->
  exists i file,
    ENCODE src = Ok (i, file) /\
    forall n fuel, n < length file -> 8 * length file <= fuel ->
      if decide (n < 11) then DECODE fuel i (take n file) = Err TypeError
      else exists st, DECODE fuel i (take n file) = Ok st /\
             writing st = true /\
             lines st `prefix_of` map normalize (map strip src).
Proof.
  intros Hne Hsrc.
  destruct (ENCODE_pad src Hne Hsrc)
    as (t & file & pad & Htree & Ht & Henc & Hbytes & Hbits & _ & Hlpad).
  exists (length src), file. split; [done|]. intros n fuel Hn Hfuel.
  rewrite <- (length_map strip src).
  apply (DECODE_cut _ t file pad); try done. by destruct src.
Qed.

Lemma truncated_file_witness :
  sample_file <> [] /\ Forall int_line (map strip sample_file) /\
  exists i file,
    ENCODE sample_file = Ok (i, file) /\
    forall n fuel, n < length file -> 8 * length file <= fuel ->
      if decide (n < 11) then DECODE fuel i (take n file) = Err TypeError
      else exists st, DECODE fuel i (take n file) = Ok st /\
             writing st = true /\
             lines st `prefix_of` map normalize (map strip sample_file).
Proof.
  assert (Hsrc : Forall int_line (map strip sample_file)).
  { constructor; [|constructor; [|constructor; [|constructor]]].
    - exists ["7"]. split; [|by left]. repeat constructor; unfold is_digit; vm_compute; lia.
    - exists ["4"; "2"]. split; [|by right].
      repeat constructor; unfold is_digit; vm_compute; lia.
    - exists ["0"]. split; [|by left]. repeat constructor; unfold is_digit; vm_compute; lia. }
  split; [discriminate|]. split; [exact Hsrc|].
  apply (truncated_file sample_file); [discriminate|exact Hsrc].
Defined.

(** ** The decoder ends *)

Lemma find_digit_matches codes (B : str) : forall range n code,
  find_digit codes B range = Ok (Some (n, code)) ->
  codes !! n = Some code /\ matches B code = true.
Proof.
  induction range as [|m range IH]; intros n code Hfind; [done|].
  cbn [find_digit] in Hfind. unfold get_item in Hfind.
  destruct (codes !! m) as [c|] eqn:Hm; [|done]. cbn [mbind res_bind] in Hfind.
  destruct (matches B c) eqn:Hmatch.
  - by injection Hfind as -> ->.
  - by apply IH.
Qed.

Lemma matches_length (B code : str) : matches B code = true -> length code <= length B.
Proof. unfold matches. intros [H%bool_decide_eq_true _]%andb_true_iff. done. Qed.

Lemma py_get_lookup (codes : list str) z c :
  py_get codes z = Ok c -> exists n, codes !! n = Some c.
Proof.
  unfold py_get. destruct (py_index _ _) as [n|]; [|done]. cbn [mbind res_bind].
  unfold get_item. destruct (codes !! n) eqn:Hn; [|done]. intros [= ->]. by exists n.
Qed.

Lemma py_get_error {A} (l : list A) z e : py_get l z = Err e -> e = IndexError.
Proof.
  unfold py_get, py_index, get_item.
  destruct (decide (0 <= z < Z.of_nat (length l))%Z); cbn [mbind res_bind].
  { destruct (l !! _); [done|]. by intros [= <-]. }
  destruct (decide (- Z.of_nat (length l) <= z < 0)%Z); cbn [mbind res_bind].
  { destruct (l !! _); [done|]. by intros [= <-]. }
  by intros [= <-].
Qed.

(** With no empty code in the table, every turn of the inner loop takes
    a character from the buffer, so a bound above the length of the buffer
    is never reached. *)
Lemma decode_codes_ends codes i :
  Forall (fun c => c <> []) codes ->
  forall fuel st, length (buffer st) < fuel ->
    match decode_codes fuel codes i st with
    | Ok st' => length (buffer st') <= length (buffer st)
    | Err e => e <> OutOfFuel
    end.
Proof.
  intros Hne. induction fuel as [|fuel IH]; intros st Hfuel; [lia|].
  rewrite decode_codes_S. case_decide; [done|].
  destruct (py_get codes (-1)) as [sep|e] eqn:Hsep; cbn [mbind res_bind].
  2: { apply py_get_error in Hsep as ->. done. }
  destruct (matches (buffer st) sep) eqn:Hmatch.
  - cbn zeta. case_decide; [|done].
    destruct (py_get_lookup _ _ _ Hsep) as [n Hn].
    pose proof (Forall_lookup_1 _ _ _ _ Hne Hn) as Hnil.
    apply matches_length in Hmatch.
    assert (0 < length sep) by (destruct sep; [done|simpl; lia]).
    match goal with |- context [decode_codes fuel codes i ?s] =>
      specialize (IH s); destruct (decode_codes fuel codes i s) end;
      cbn [buffer] in IH; rewrite length_drop in IH; [|apply IH; lia].
    etrans; [apply IH; lia|lia].
  - destruct (find_digit codes (buffer st) (seq 0 10)) as [[[n code]|]|e] eqn:Hfind;
      cbn [mbind res_bind]; [|done|].
    + cbn zeta. destruct (find_digit_matches _ _ _ _ _ Hfind) as [Hn Hm].
      pose proof (Forall_lookup_1 _ _ _ _ Hne Hn) as Hnil.
      apply matches_length in Hm.
      assert (0 < length code) by (destruct code; [done|simpl; lia]).
      match goal with |- context [decode_codes fuel codes i ?s] =>
        specialize (IH s); destruct (decode_codes fuel codes i s) end;
        cbn [buffer] in IH; rewrite length_drop in IH; [|apply IH; lia].
      etrans; [apply IH; lia|lia].
    + clear -Hfind. revert Hfind. generalize (seq 0 10). intros range.
      induction range as [|m range IHr]; [done|]. cbn [find_digit]. unfold get_item.
      destruct (codes !! m); cbn [mbind res_bind]; [|by intros [= <-]].
      by destruct (matches _ _).
Qed.

Lemma decode_loop_ends codes i fuel :
  Forall (fun c => c <> []) codes ->
  forall src st, Forall byte src -> length (buffer st) + 8 * length src < fuel ->
    decode_loop fuel codes i src st <> Err OutOfFuel.
Proof.
  intros Hne. induction src as [|v src IH]; intros st Hsrc Hfuel.
  { simpl. by destruct (writing st). }
  apply Forall_cons in Hsrc as [Hv Hsrc].
  destruct (byte_facts v Hv) as (_ & _ & _ & _ & Hlv & _).
  rewrite decode_loop_cons. destruct (writing st); [|done].
  pose proof (decode_codes_ends codes i Hne fuel
                (with_buffer (buffer st ++ format_b 8 v) st)) as Hinner.
  cbn [buffer with_buffer] in Hinner. rewrite length_app, Hlv in Hinner. simpl in Hfuel.
  specialize (Hinner ltac:(lia)).
  destruct (decode_codes fuel codes i _) as [st1|e]; cbn [mbind res_bind].
  - apply IH; [done|]. lia.
  - congruence.
Qed.

(** X13: after a header that is a tree of [tree], DECODE ends on any
    bytes.  For every table of 11 counts and every file of bytes from which
    the header reader returns the tree of these counts, DECODE with a bound
    of 8 turns for each byte of the file does not reach the bound: no
    symbol has the empty code, so every turn of the inner loop takes a
    character from the buffer. *)
Theorem decode_terminates counts t file buf rest i fuel :
  length counts = 11 -> tree counts = Ok t -> Forall byte file ->
  read_header file [] = Ok (t, buf, rest) -> 8 * length file <= fuel ->
  DECODE fuel i file <> Err OutOfFuel.
Proof.
  intros Hlen Htree Hfile Hread Hfuel.
  destruct (tree_huffman_tree counts Hlen) as (t' & Htree' & Ht).
  assert (t' = t) as -> by congruence.
  destruct (read_header_any file [] t buf rest Hfile Hread)
    as (fields & k & Ht' & _ & Hrest & Hbits & Hcase).
  unfold DECODE. rewrite Hread. cbn [mbind res_bind].
  assert (Hrest' : Forall byte rest) by (subst rest; by apply Forall_drop).
  apply decode_loop_ends.
  - apply (ct_nonempty _ (huffman_code_table t Ht)).
  - done.
  - cbn [buffer]. simpl in Ht'. rewrite <- Ht' in Hbits.
    destruct (header_bits_facts t (huffman_tree_range t Ht)) as [_ Hlh].
    apply (f_equal length) in Hbits.
    rewrite !length_app, !length_bits_of, Hlh, (ht_length t Ht) in Hbits by done.
    lia.
Qed.

Lemma decode_terminates_witness :
  exists t buf rest,
    length [1; 0; 1; 0; 1; 0; 0; 1; 0; 0; 3]%Z = 11 /\
    tree [1; 0; 1; 0; 1; 0; 0; 1; 0; 0; 3]%Z = Ok t /\
    Forall byte corrupt_file /\
    read_header corrupt_file [] = Ok (t, buf, rest) /\
    8 * length corrupt_file <= 200 /\
    DECODE 200 9 corrupt_file <> Err OutOfFuel.
Proof.
  assert (Hfile : Forall byte corrupt_file) by (repeat constructor; unfold byte; lia).
  eexists _, _, _. split; [reflexivity|]. split; [vm_compute; reflexivity|].
  split; [exact Hfile|]. split; [vm_compute; reflexivity|]. split; [simpl; lia|].
  eapply (decode_terminates [1; 0; 1; 0; 1; 0; 0; 1; 0; 0; 3]%Z _ corrupt_file).
  - reflexivity.
  - vm_compute. reflexivity.
  - exact Hfile.
  - vm_compute. reflexivity.
  - simpl. lia.
Defined.

(** ** The order of the queue *)

Lemma item_le_total x y : item_leb x y = false -> item_le y x.
Proof.
  unfold item_le, item_leb. destruct x as [c1 x1], y as [c2 x2]. simpl.
  rewrite orb_false_iff, andb_false_iff, orb_true_iff, andb_true_iff.
  rewrite !Z.ltb_ge, !Z.ltb_lt, !Z.eqb_eq, !Z.eqb_neq, Nat.leb_gt, Nat.leb_le. lia.
Qed.

Lemma item_le_trans x y z : item_le x y -> item_le y z -> item_le x z.
Proof.
  unfold item_le, item_leb. destruct x as [c1 x1], y as [c2 x2], z as [c3 x3]. simpl.
  rewrite !orb_true_iff, !andb_true_iff.
  rewrite !Z.ltb_lt, !Z.eqb_eq, !Nat.leb_le. lia.
Qed.

Lemma item_le_count c1 x1 c2 x2 : item_le (c1, x1) (c2, x2) -> (c1 <= c2)%Z.
Proof.
  unfold item_le, item_leb. simpl. rewrite orb_true_iff, andb_true_iff.
  rewrite Z.ltb_lt, Z.eqb_eq. lia.
Qed.

(** [put] keeps the queue in order, so [get] takes the least tuple. *)
Lemma put_sorted x q : ascending q -> ascending (put x q).
Proof.
  induction q as [|y q IH]; simpl; [done|]. intros [Hy Hq].
  destruct (item_leb x y) eqn:Hxy; simpl.
  - split; [|done]. constructor; [done|].
    eapply Forall_impl; [exact Hy|]. intros z Hz. by eapply item_le_trans.
  - split; [|by apply IH]. rewrite put_perm. constructor; [|done].
    by apply item_le_total.
Qed.

Lemma fill_queue_sorted counts : forall symbol q,
  ascending q -> ascending (fill_queue symbol counts q).
Proof.
  induction counts as [|c counts IH]; intros symbol q Hq; simpl; [done|].
  apply IH. by apply put_sorted.
Qed.

Lemma fill_queue_elem counts : forall symbol q c x,
  (c, x) ∈ fill_queue symbol counts q <->
  (c, x) ∈ q \/ exists k, counts !! k = Some c /\ x = symbol + k.
Proof.
  induction counts as [|c0 counts IH]; intros symbol q c x; simpl.
  { split; [auto|]. intros [?|(k & Hk & _)]; done. }
  rewrite IH, put_perm, elem_of_cons. split.
  - intros [[[= -> ->]|?]|(k & Hk & ->)]; [right|by left|right].
    + exists 0. split; [done|lia].
    + exists (S k). split; [done|lia].
  - intros [?|([|k] & Hk & ->)]; [by left; right| |].
    + simpl in Hk. injection Hk as ->. left. left. f_equal. lia.
    + right. exists k. split; [done|lia].
Qed.

(** The loop of [tree] writes each entry once: an entry that holds a
    parent keeps it. *)
Lemma join_keeps n : forall q t t',
  length q = n -> tree_inv q t -> join q t = Ok t' ->
  forall x p, t !! x = Some p -> p <> root -> t' !! x = Some p.
Proof.
  induction n as [n IH] using lt_wf_ind. intros q t t' Hn Hinv Hjoin x p Hx Hp.
  destruct q as [|[ci i] [|[cj j] q]].
  - simp join in Hjoin. by injection Hjoin as <-.
  - simp join in Hjoin. by injection Hjoin as <-.
  - simp join in Hjoin. simpl in Hjoin.
    destruct (tree_inv_step _ _ _ _ _ _ Hinv) as (Hi & Hj & Hinv').
    unfold set_item in Hjoin.
    rewrite decide_True in Hjoin by (rewrite length_app; simpl; lia).
    cbn [mbind res_bind] in Hjoin.
    rewrite decide_True in Hjoin by (rewrite length_insert, length_app; simpl; lia).
    cbn [mbind res_bind] in Hjoin.
    eapply (IH (length (put ((ci + cj)%Z, length t) q))); [|done|done|exact Hjoin| |done].
    + rewrite length_put. simpl in Hn. lia.
    + apply lookup_joined; [done..|]. do 3 right.
      destruct Hinv as [_ _ _ _ Hroot _ _ _].
      assert (Hxl : x < length t) by (by apply lookup_lt_Some in Hx).
      split_and!; [| |done]; intros ->.
      * assert (t !! i = Some root) by (apply Hroot; [done|set_solver]). congruence.
      * assert (t !! j = Some root) by (apply Hroot; [done|set_solver]). congruence.
Qed.

(** X14: the first two tuples taken from the queue are joined under node
    11 and stay there.  For every table of 11 counts there are two symbols
    [i] and [j], [i] with a least count of all and [j] with a least count
    of the others, that are the two children of node 11; so their codes
    have the same length and differ in the last bit only. *)
Theorem rarest_symbols_are_siblings counts :
  length counts = 11 ->
  exists t i j,
    tree counts = Ok t /\ i < 11 /\ j < 11 /\ i <> j /\
    (forall x, x < 11 -> (counts !!! i <= counts !!! x)%Z) /\
    (forall x, x < 11 -> x <> i -> (counts !!! j <= counts !!! x)%Z) /\
    t !! i = Some 11 /\ t !! j = Some 11 /\
    exists c bi bj,
      huffman t !! i = Some (c ++ [bi]) /\ huffman t !! j = Some (c ++ [bj]) /\ bi <> bj.
Proof.
  intros Hlen. destruct (tree_huffman_tree counts Hlen) as (t & Htree & Ht).
  pose proof (tree_inv_init counts Hlen) as Hinv.
  pose proof (fill_queue_sorted counts 0 [] I) as Hsorted.
  pose proof (length_fill_queue counts 0 []) as Hlq. rewrite Hlen in Hlq. simpl in Hlq.
  assert (Helem : forall c x, (c, x) ∈ fill_queue 0 counts [] <-> counts !! x = Some c).
  { intros c x. rewrite fill_queue_elem. split.
    - intros [?%elem_of_nil|(k & Hk & ->)]; done.
    - intros Hx. right. by exists x. }
  pose proof Htree as Htree0. unfold tree in Htree.
  destruct (fill_queue 0 counts []) as [|[ci i] [|[cj j] q]] eqn:Hq; [done|done|].
  destruct (tree_inv_step _ _ _ _ _ _ Hinv) as (Hi & Hj & Hinv').
  rewrite length_replicate in Hi, Hj, Hinv'.
  assert (Hij : i <> j).
  { destruct Hinv as [_ _ Hnd _ _ _ _ _]. simpl in Hnd.
    apply NoDup_cons in Hnd as [Hnd _]. set_solver. }
  assert (Hci : counts !! i = Some ci) by (apply Helem; set_solver).
  assert (Hcj : counts !! j = Some cj) by (apply Helem; set_solver).
  apply list_lookup_total_correct in Hci as Hci', Hcj as Hcj'.
  destruct Hsorted as (Hleast & Hsecond & _).
  simp join in Htree. simpl in Htree. unfold set_item in Htree.
  rewrite decide_True in Htree by (simpl; lia).
  cbn [mbind res_bind] in Htree.
  rewrite decide_True in Htree by (rewrite length_insert; simpl; lia).
  cbn [mbind res_bind] in Htree.
  assert (Hkeep : forall x, x = i \/ x = j -> t !! x = Some 11).
  { intros x Hx.
    eapply (join_keeps _ _ _ _ eq_refl Hinv' Htree); [|done].
    pose proof (lookup_joined (replicate 11 root) i j x 11) as Hl.
    rewrite length_replicate in Hl. apply Hl; [done|done|].
    destruct Hx as [-> | ->]; auto. }
  exists t, i, j. split; [done|].
  split; [done|]. split; [done|]. split; [done|]. split; [|split].
  - intros x Hx. destruct (decide (x = i)) as [->|Hne]; [lia|].
    assert (Hin : (counts !!! x, x) ∈ (cj, j) :: q).
    { assert (Hin : (counts !!! x, x) ∈ (ci, i) :: (cj, j) :: q)
        by (apply Helem, list_lookup_lookup_total_lt; lia).
      apply elem_of_cons in Hin as [[= _ ->]|Hin]; done. }
    rewrite Hci'. eapply item_le_count, (proj1 (Forall_forall _ _) Hleast). exact Hin.
  - intros x Hx Hne. destruct (decide (x = j)) as [->|Hnj]; [lia|].
    assert (Hin : (counts !!! x, x) ∈ q).
    { assert (Hin : (counts !!! x, x) ∈ (ci, i) :: (cj, j) :: q)
        by (apply Helem, list_lookup_lookup_total_lt; lia).
      apply elem_of_cons in Hin as [[= _ ->]|Hin]; [done|].
      apply elem_of_cons in Hin as [[= _ ->]|Hin]; done. }
    rewrite Hcj'. eapply item_le_count, (proj1 (Forall_forall _ _) Hsecond). exact Hin.
  - split; [by apply Hkeep; left|]. split; [by apply Hkeep; right|].
    destruct (ht_children t Ht 11 ltac:(lia)) as (a & b & Hab & Ha & Hb & Hall).
    destruct (huffman_tree_codes t Ht) as (Hlc & _ & Hcodes).
    destruct (Hcodes 11 a b ltac:(lia) Hab Ha Hb Hall) as [Hcb Hca].
    assert (Hlook : forall x, x < 11 ->
              huffman t !! x = Some (huffman_codes t !!! x)).
    { intros x Hx. unfold huffman. rewrite lookup_take_lt by done.
      apply list_lookup_lookup_total_lt. lia. }
    exists (huffman_codes t !!! 11).
    destruct (Hall i (Hkeep i ltac:(by left))) as [-> | ->],
             (Hall j (Hkeep j ltac:(by right))) as [-> | ->]; try done.
    + exists "1", "0". rewrite !Hlook, Hca, Hcb by done. done.
    + exists "0", "1". rewrite !Hlook, Hca, Hcb by done. done.
Qed.

Lemma rarest_symbols_are_siblings_witness :
  length sample_counts = 11 /\
  exists t i j,
    tree sample_counts = Ok t /\ i < 11 /\ j < 11 /\ i <> j /\
    (forall x, x < 11 -> (sample_counts !!! i <= sample_counts !!! x)%Z) /\
    (forall x, x < 11 -> x <> i -> (sample_counts !!! j <= sample_counts !!! x)%Z) /\
    t !! i = Some 11 /\ t !! j = Some 11 /\
    exists c bi bj,
      huffman t !! i = Some (c ++ [bi]) /\ huffman t !! j = Some (c ++ [bj]) /\ bi <> bj.
Proof.
  split; [reflexivity|]. apply (rarest_symbols_are_siblings sample_counts). reflexivity.
Defined.

(** ** The code is complete *)

Lemma frontier_split t C m : forall k,
  frontier t C m k = frontier t C (S m) k + children_weight t C m k.
Proof.
  induction k as [|k IH]; [done|]. cbn [frontier children_weight]. rewrite IH.
  repeat case_decide; lia.
Qed.

Lemma frontier_none t C m : forall k,
  (forall x, x < k -> t !!! x < m) -> frontier t C m k = 0.
Proof.
  induction k as [|k IH]; intros Hall; [done|]. cbn [frontier].
  rewrite IH by (intros x Hx; apply Hall; lia).
  specialize (Hall k ltac:(lia)). rewrite decide_False by lia. done.
Qed.

Lemma frontier_all t (C : list str) m : forall k,
  (forall x, x < k -> m <= t !!! x) -> k <= length C ->
  frontier t C m k = kraft_sum (take k C).
Proof.
  induction k as [|k IH]; intros Hall Hk; [done|]. cbn [frontier].
  rewrite IH by (lia || intros x Hx; apply Hall; lia).
  rewrite decide_True by (apply Hall; lia).
  rewrite (take_S_r C k (C !!! k)) by (apply list_lookup_lookup_total_lt; lia).
  unfold kraft_sum. rewrite sum_list_with_app. simpl. lia.
Qed.

(** Joining two nodes leaves the weight of the roots as it is: the two
    children of a node weigh as much as the node. *)
Lemma frontier_step t m :
  huffman_tree t -> 11 <= m < 21 ->
  frontier t (huffman_codes t) m m = frontier t (huffman_codes t) (S m) (S m).
Proof.
  intros Ht Hm. set (C := huffman_codes t).
  destruct (ht_children t Ht m Hm) as (a & b & Hab & Ha & Hb & Hall).
  destruct (huffman_tree_codes t Ht) as (_ & _ & Hcodes).
  destruct (Hcodes m a b Hm Hab Ha Hb Hall) as [Hcb Hca].
  pose proof (code_depth t Ht m Hm) as Hdepth.
  assert (Habove : forall x, x < 21 -> x < t !!! x).
  { intros x Hx. apply huffman_tree_above; [done|]. by rewrite (ht_length t Ht). }
  assert (Hbm : b < m).
  { apply lookup_lt_Some in Hb as Hb21. rewrite (ht_length t Ht) in Hb21.
    specialize (Habove b Hb21). apply list_lookup_total_correct in Hb. lia. }
  rewrite frontier_split. cbn [frontier].
  rewrite decide_True by (specialize (Habove m ltac:(lia)); lia).
  f_equal.
  assert (Hweak : forall x, x < m -> (t !!! x = m <-> x = a \/ x = b)).
  { intros x Hx. split.
    - intros Hxm. apply Hall. rewrite <- Hxm. apply huffman_tree_lookup; [done|lia].
    - intros [-> | ->]; by apply list_lookup_total_correct. }
  assert (Hcw : forall k, k <= m ->
            children_weight t C m k
            = (if decide (a < k) then kraft_weight (C !!! a) else 0)
              + (if decide (b < k) then kraft_weight (C !!! b) else 0)).
  { induction k as [|k IH]; intros Hk; [done|]. cbn [children_weight].
    rewrite IH by lia. destruct (decide (t !!! k = m)) as [Hkm|Hkm].
    - apply Hweak in Hkm; [|lia]. destruct Hkm as [-> | ->]; repeat case_decide; lia.
    - assert (k <> a /\ k <> b) as [? ?]
        by (split; intros ->; apply Hkm, Hweak; (lia || auto)).
      repeat case_decide; lia. }
  rewrite Hcw by done. rewrite !decide_True by lia.
  unfold kraft_weight, C. rewrite Hca, Hcb, !length_app. simpl.
  replace (10 - length (huffman_codes t !!! m))
    with (S (10 - (length (huffman_codes t !!! m) + 1))) by lia.
  rewrite Nat.pow_succ_r'. lia.
Qed.

Lemma frontier_root t :
  huffman_tree t -> forall d, d <= 10 ->
  frontier t (huffman_codes t) (21 - d) (21 - d) = 2 ^ 10.
Proof.
  intros Ht. induction d as [|d IH]; intros Hd.
  - change (frontier t (huffman_codes t) (21 - 0) (21 - 0))
      with (frontier t (huffman_codes t) 21 20
            + (if decide (21 <= t !!! 20) then kraft_weight (huffman_codes t !!! 20) else 0)).
    pose proof (ht_root t Ht) as Hr. apply list_lookup_total_correct in Hr.
    rewrite Hr, decide_True by (unfold root; lia).
    rewrite frontier_none.
    + destruct (huffman_tree_codes t Ht) as (_ & -> & _). done.
    + intros x Hx. destruct (ht_parent t Ht x Hx) as (p & Hp & _ & ?).
      apply list_lookup_total_correct in Hp. lia.
  - rewrite frontier_step by (done || lia).
    replace (S (21 - S d)) with (21 - d) by lia. apply IH. lia.
Qed.

(** X15: the code of every table is complete.  For every table of 11
    counts, the codes that [huffman] returns fill Kraft's sum exactly: the
    weights [2^-n] of the 11 codes, [n] the length of a code, add up to 1
    (here in units of [2^-10]). *)
Theorem huffman_kraft_equality counts :
  length counts = 11 ->
  exists t, tree counts = Ok t /\ kraft_sum (huffman t) = 2 ^ 10.
Proof.
  intros Hlen. destruct (tree_huffman_tree counts Hlen) as (t & Htree & Ht).
  exists t. split; [done|].
  destruct (huffman_tree_codes t Ht) as (Hlc & _).
  unfold huffman. rewrite <- (frontier_all t _ 11) by (lia || intros x Hx;
    destruct (ht_parent t Ht x ltac:(lia)) as (p & Hp & ? & _);
    apply list_lookup_total_correct in Hp; lia).
  apply (frontier_root t Ht 10). lia.
Qed.

Lemma huffman_kraft_equality_witness :
  length sample_counts = 11 /\
  exists t, tree sample_counts = Ok t /\ kraft_sum (huffman t) = 2 ^ 10.
Proof.
  split; [reflexivity|]. apply (huffman_kraft_equality sample_counts). reflexivity.
Defined.

(** ** The statistics *)

Lemma infos_loop_sum (counts : list Z) (codes : list str) : forall k a bits count,
  length counts = 11 -> length codes = 11 -> a + k <= 11 ->
  infos_loop counts codes (seq a k) bits count
  = Ok ((bits + code_bits counts codes (seq a k))%Z,
        (count + total (take k (drop a counts)))%Z).
Proof.
  induction k as [|k IH]; intros a bits count Hlc Hlco Hk.
  { simpl. do 2 f_equal; lia. }
  cbn [seq infos_loop]. unfold get_item.
  rewrite !list_lookup_lookup_total_lt by lia. cbn [mbind res_bind].
  rewrite IH by (done || lia).
  rewrite (drop_S counts (counts !!! a) a) by (apply list_lookup_lookup_total_lt; lia).
  unfold code_bits, total. cbn [seq foldr take]. do 2 f_equal; lia.
Qed.

Lemma occurrences_cons n tok toks :
  occurrences n (tok :: toks)
  = ((if decide (slot tok = n) then 1 else 0) + occurrences n toks)%Z.
Proof.
  unfold occurrences. rewrite filter_cons. case_decide; simpl; lia.
Qed.

(** Count by count, the codes of the symbols add up to the codes of the
    tokens. *)
Lemma code_bits_payload (codes : list str) toks :
  length codes = 11 -> Forall token toks ->
  forall counts, (forall n, n < 11 -> counts !!! n = occurrences n toks) ->
  code_bits counts codes (seq 0 11) = Z.of_nat (length (payload codes toks)).
Proof.
  intros Hlen Htoks counts Hocc. cbn [seq code_bits foldr].
  rewrite !Hocc by lia. clear Hocc counts.
  induction Htoks as [|tok toks Htok _ IH]; [done|].
  rewrite payload_token, length_app, Nat2Z.inj_add, <- IH by done.
  rewrite !occurrences_cons. pose proof (slot_lt tok Htok) as Hs.
  remember (slot tok) as s eqn:Heqs. clear Heqs IH.
  do 11 (destruct s as [|s]; [repeat (case_decide; [try lia|try lia]); lia|]). lia.
Qed.

(** X16: the statistics are exact.  Whenever the tokenizer returns, the
    loop of the statistics, run on its counts and on the codes of their
    tree, ends with [bits] the number of bits that the writer emits for the
    tokens before the EOF sequence, and with [count] the number of these
    tokens. *)
Theorem statistics_are_exact src i counts text :
  read_input src = Ok (i, counts, text) ->
  exists t toks,
    text = toks ++ [0%Z; 0%Z] /\ tree counts = Ok t /\
    infos_loop counts (huffman t) (seq 0 11) 0%Z 0%Z
    = Ok (Z.of_nat (length (payload (huffman t) toks)), Z.of_nat (length toks)).
Proof.
  unfold read_input. intros Hread.
  destruct (scan_lines (0, replicate 11 0%Z, []) src) as [[[i1 c1] t1]|] eqn:Hscan; [|done].
  cbn [mbind res_bind] in Hread. injection Hread as <- <- <-.
  destruct (scan_lines_counted (replicate 11 0%Z) [] src 0 _ _ _ _ _
              (counted_refl (replicate 11 0%Z) [] eq_refl) Hscan)
    as (_ & (Hlen & toks & -> & Htoks & Htot & Hocc) & _).
  destruct (tree_huffman_tree c1 Hlen) as (t & Htree & Ht).
  pose proof (ct_length _ (huffman_code_table t Ht)) as Hlc.
  exists t, toks. split; [done|]. split; [done|].
  rewrite (infos_loop_sum c1 (huffman t) 11 0) by (done || lia).
  rewrite drop_0, take_ge, Htot by lia.
  rewrite (code_bits_payload (huffman t) toks Hlc Htoks).
  - change (total (replicate 11 0%Z)) with 0%Z. do 2 f_equal; lia.
  - intros n Hn. rewrite (Hocc n Hn), lookup_total_replicate_2 by done. lia.
Qed.

Lemma statistics_are_exact_witness :
  exists i counts text,
    read_input sample_file = Ok (i, counts, text) /\
    exists t toks,
      text = toks ++ [0%Z; 0%Z] /\ tree counts = Ok t /\
      infos_loop counts (huffman t) (seq 0 11) 0%Z 0%Z
      = Ok (Z.of_nat (length (payload (huffman t) toks)), Z.of_nat (length toks)).
Proof.
  eexists _, _, _. split; [vm_compute; reflexivity|].
  eapply (statistics_are_exact sample_file). vm_compute. reflexivity.
Defined.

(** ** Bytes after the end *)

Lemma bits_of_app f1 f2 : bits_of (f1 ++ f2) = bits_of f1 ++ bits_of f2.
Proof. unfold bits_of. by rewrite map_app, concat_app. Qed.

(** X17: DECODE stops at the EOF sequence and reads no further.  Bytes
    appended to the file that ENCODE wrote from at least one integer line
    change nothing in what DECODE prints: the normalized lines, and it
    stops on the EOF sequence. *)
Theorem trailing_bytes_ignored src extra :
  src <> [] -> Forall int_line (map strip src) -> Forall byte extra ->
  exists i file,
    ENCODE src = Ok (i, file) /\
    forall fuel, 8 * length (file ++ extra) <= fuel ->
      exists st, DECODE fuel i (file ++ extra) = Ok st /\
        lines st = map normalize (map strip src) /\ writing st = false.
Proof.
  intros Hne Hsrc Hextra.
  destruct (ENCODE_spec src Hne Hsrc)
    as (t & file & pad & Htree & Ht & Henc & Hbytes & Hbits & _).
  exists (length src), file. split; [done|]. intros fuel Hfuel.
  rewrite <- (length_map strip src).
  destruct (DECODE_spec (map strip src) t (file ++ extra) (pad ++ bits_of extra) fuel)
    as (st & Hst & _ & Hlines & _ & Hw); try done.
  - by destruct src.
  - by apply Forall_app.
  - by rewrite bits_of_app, Hbits, <- !app_assoc.
  - by exists st.
Qed.

Lemma trailing_bytes_ignored_witness :
  sample_file <> [] /\ Forall int_line (map strip sample_file) /\
  Forall byte [255; 0; 170]%Z /\
  exists i file,
    ENCODE sample_file = Ok (i, file) /\
    forall fuel, 8 * length (file ++ [255; 0; 170]%Z) <= fuel ->
      exists st, DECODE fuel i (file ++ [255; 0; 170]%Z) = Ok st /\
        lines st = map normalize (map strip sample_file) /\ writing st = false.
Proof.
  assert (Hsrc : Forall int_line (map strip sample_file)).
  { constructor; [|constructor; [|constructor; [|constructor]]].
    - exists ["7"]. split; [|by left]. repeat constructor; unfold is_digit; vm_compute; lia.
    - exists ["4"; "2"]. split; [|by right].
      repeat constructor; unfold is_digit; vm_compute; lia.
    - exists ["0"]. split; [|by left]. repeat constructor; unfold is_digit; vm_compute; lia. }
  assert (Hextra : Forall byte [255; 0; 170]%Z) by (repeat constructor; unfold byte; lia).
  split; [discriminate|]. split; [exact Hsrc|]. split; [exact Hextra|].
  apply (trailing_bytes_ignored sample_file [255; 0; 170]%Z);
    [discriminate|exact Hsrc|exact Hextra].
Defined.

(** ** Frequent symbols have short codes *)

Lemma item_le_intro c1 x1 c2 x2 : (c1 <= c2)%Z -> x1 <= x2 -> item_le (c1, x1) (c2, x2).
Proof.
  unfold item_le, item_leb. simpl. intros Hc Hx.
  rewrite orb_true_iff, andb_true_iff, Z.ltb_lt, Z.eqb_eq, Nat.leb_le. lia.
Qed.

Lemma item_le_inv c1 x1 c2 x2 :
  item_le (c1, x1) (c2, x2) -> (c1 < c2)%Z \/ (c1 = c2 /\ x1 <= x2).
Proof.
  unfold item_le, item_leb. simpl.
  rewrite orb_true_iff, andb_true_iff, Z.ltb_lt, Z.eqb_eq, Nat.leb_le. done.
Qed.

Lemma order_inv_init counts :
  length counts = 11 -> Forall (fun c => 0 <= c)%Z counts ->
  order_inv counts (fill_queue 0 counts []) (replicate 11 root) counts.
Proof.
  intros Hlen Hpos.
  assert (Hroot : forall x p, replicate 11 root !! x = Some p -> p = root).
  { intros x p [-> _]%lookup_replicate. done. }
  split.
  - by rewrite length_replicate.
  - done.
  - done.
  - intros c x. rewrite fill_queue_elem.
    intros [?%elem_of_nil|(k & Hk & ->)]; done.
  - by apply fill_queue_sorted.
  - intros x p c y Hx Hp. by apply Hroot in Hx.
  - intros x y px py _ Hy _ Hpy. by apply Hroot in Hy.
  - intros p c y c' y'. rewrite length_replicate. lia.
  - intros p p'. rewrite length_replicate. lia.
Qed.

Lemma order_inv_step counts ci i cj j q t W :
  tree_inv ((ci, i) :: (cj, j) :: q) t ->
  order_inv counts ((ci, i) :: (cj, j) :: q) t W ->
  order_inv counts (put ((ci + cj)%Z, length t) q)
    (<[j := length t]> (<[i := length t]> (t ++ [root]))) (W ++ [(ci + cj)%Z]).
Proof.
  intros Hinv [Hlen Hpos Hleaves Hqueue Hsorted Hremoved Horder Hpairs Hmono].
  destruct (tree_inv_step _ _ _ _ _ _ Hinv) as (Hi & Hj & Hinv').
  destruct Hinv as [Hl22 Hl11 Hnd _ Hroot Hpar _ _].
  simpl in Hnd, Hl22. apply NoDup_cons in Hnd as [Hiq Hnd]. apply NoDup_cons in Hnd as [Hjq _].
  assert (Hij : i <> j) by set_solver.
  destruct Hsorted as (Hleast & Hsecond & Hsorted).
  apply Forall_cons in Hleast as [Hicj Hleast].
  assert (HWi : W !! i = Some ci) by (apply Hqueue; set_solver).
  assert (HWj : W !! j = Some cj) by (apply Hqueue; set_solver).
  assert (Hci : (0 <= ci)%Z) by (by apply (Forall_lookup_1 _ _ _ _ Hpos HWi)).
  assert (Hcj : (0 <= cj)%Z) by (by apply (Forall_lookup_1 _ _ _ _ Hpos HWj)).
  assert (Hcij : (ci <= cj)%Z) by (apply item_le_inv in Hicj; lia).
  assert (Hqc : forall c y, (c, y) ∈ q -> (cj <= c)%Z /\ y < length t /\ y <> i /\ y <> j).
  { intros c y Hin. split_and!.
    - apply (proj1 (Forall_forall _ _) Hsecond) in Hin. apply item_le_inv in Hin. lia.
    - assert (W !! y = Some c) as ?%lookup_lt_Some by (apply Hqueue; set_solver). lia.
    - intros ->. apply Hiq. apply elem_of_cons. right.
      apply (list_elem_of_fmap_2 snd) in Hin. done.
    - intros ->. apply Hjq. apply (list_elem_of_fmap_2 snd) in Hin. done. }
  assert (Hold : forall x, x < length t -> (W ++ [(ci + cj)%Z]) !!! x = W !!! x).
  { intros x Hx. apply lookup_total_app_l. lia. }
  assert (Hnew : (W ++ [(ci + cj)%Z]) !!! length t = (ci + cj)%Z).
  { rewrite <- Hlen. by rewrite list_lookup_total_middle. }
  assert (HWi' : W !!! i = ci) by (by apply list_lookup_total_correct).
  assert (HWj' : W !!! j = cj) by (by apply list_lookup_total_correct).
  assert (Hin : forall c y, (c, y) ∈ put ((ci + cj)%Z, length t) q <->
            (c = (ci + cj)%Z /\ y = length t) \/ (c, y) ∈ q).
  { intros c y. rewrite put_perm, elem_of_cons. split.
    - intros [[= -> ->]|?]; auto.
    - intros [[-> ->]|?]; auto. }
  assert (Hroot_lt : length t < root) by (unfold root; lia).
  split.
  - rewrite !length_insert, !length_app. simpl. lia.
  - apply Forall_app. split; [done|]. constructor; [lia|constructor].
  - intros x Hx. rewrite Hold by lia. by apply Hleaves.
  - intros c y [[-> ->]|Hy]%Hin.
    + rewrite <- Hlen. by rewrite list_lookup_middle.
    + apply lookup_app_l_Some. apply Hqueue. set_solver.
  - by apply put_sorted.
  - intros x p c y Hx Hp Hy. apply lookup_joined in Hx; [|done..].
    apply Hin in Hy.
    destruct Hx as [[-> ->]|[[-> ->]|[[-> ->]|(Hxi & Hxj & Hx)]]]; [| |done|].
    + rewrite Hold, HWi' by done. destruct Hy as [[-> ->]|Hy].
      * apply item_le_intro; lia.
      * apply (proj1 (Forall_forall _ _) Hleast). done.
    + rewrite Hold, HWj' by done. destruct Hy as [[-> ->]|Hy].
      * apply item_le_intro; lia.
      * apply (proj1 (Forall_forall _ _) Hsecond). done.
    + assert (Hxl : x < length t) by (by apply lookup_lt_Some in Hx).
      rewrite Hold by done. destruct Hy as [[-> ->]|Hy].
      * assert (Hle : item_le (W !!! x, x) (ci, i))
          by (apply (Hremoved x p); [done|done|set_solver]).
        apply item_le_inv in Hle. apply item_le_intro; lia.
      * apply (Hremoved x p); [done|done|set_solver].
  - intros x y px py Hx Hy Hlt Hpy.
    apply lookup_joined in Hx; [|done..]. apply lookup_joined in Hy; [|done..].
    assert (Hxy_old : forall z pz, t !! z = Some pz -> pz <> root -> pz < length t).
    { intros z pz Hz Hpz. destruct (Hpar z pz Hz Hpz). lia. }
    destruct Hy as [[-> ->]|[[-> ->]|[[-> ->]|(Hyi & Hyj & Hy)]]]; [| |done|].
    + destruct Hx as [[-> ->]|[[-> ->]|[[-> ->]|(Hxi & Hxj & Hx)]]]; [lia|lia|lia|].
      assert (Hxl : x < length t) by (by apply lookup_lt_Some in Hx).
      rewrite !Hold, HWi' by done.
      apply (Hremoved x px); [done|lia|set_solver].
    + destruct Hx as [[-> ->]|[[-> ->]|[[-> ->]|(Hxi & Hxj & Hx)]]]; [lia|lia|lia|].
      assert (Hxl : x < length t) by (by apply lookup_lt_Some in Hx).
      rewrite !Hold, HWj' by done.
      apply (Hremoved x px); [done|lia|set_solver].
    + pose proof (Hxy_old y py Hy Hpy) as Hpyl.
      assert (Hyl : y < length t) by (by apply lookup_lt_Some in Hy).
      destruct Hx as [[-> ->]|[[-> ->]|[[-> ->]|(Hxi & Hxj & Hx)]]]; [lia|lia|lia|].
      assert (Hxl : x < length t) by (by apply lookup_lt_Some in Hx).
      rewrite !Hold by done. by apply (Horder x y px py).
  - intros p c y c' y'. rewrite !length_insert, !length_app. simpl.
    intros Hp Hy Hy' Hne. apply Hin in Hy, Hy'.
    destruct (decide (p = length t)) as [->|Hpk].
    + rewrite Hnew.
      destruct Hy as [[-> ->]|Hy], Hy' as [[-> ->]|Hy']; [done|..].
      * destruct (Hqc _ _ Hy'). lia.
      * destruct (Hqc _ _ Hy). lia.
      * destruct (Hqc _ _ Hy), (Hqc _ _ Hy'). lia.
    + rewrite Hold by lia.
      assert (Hp' : (W !!! p <= ci + cj)%Z)
        by (apply (Hpairs p ci i cj j); [lia|set_solver|set_solver|done]).
      destruct Hy as [[-> ->]|Hy], Hy' as [[-> ->]|Hy']; [done|..].
      * destruct (Hqc _ _ Hy'). lia.
      * destruct (Hqc _ _ Hy). lia.
      * apply (Hpairs p c y c' y'); [lia|set_solver|set_solver|done].
  - intros p p'. rewrite !length_insert, !length_app. simpl. intros Hp Hp'.
    destruct (decide (p' = length t)) as [->|Hpk].
    + rewrite Hnew. destruct (decide (p = length t)) as [->|Hpk'].
      * rewrite Hnew. lia.
      * rewrite Hold by lia.
        apply (Hpairs p ci i cj j); [lia|set_solver|set_solver|done].
    + rewrite !Hold by lia. apply Hmono; lia.
Qed.

(** The tree at the end of the loop, with the counts of its nodes. *)
Lemma join_order counts n : forall q t W,
  length q = n -> tree_inv q t -> order_inv counts q t W ->
  exists t' W' c, join q t = Ok t' /\ huffman_tree t' /\ order_inv counts [(c, 20)] t' W'.
Proof.
  induction n as [n IH] using lt_wf_ind. intros q t W Hn Hinv Hord.
  destruct q as [|[ci i] [|[cj j] q]].
  - destruct Hinv as [Hlen Hleaves _ _ _ _ _ Hlast]. simpl in *.
    assert (length t - 1 < length t) by lia. set_solver by lia.
  - simp join. exists t, W, ci.
    pose proof (tree_inv_final _ _ _ Hinv) as Ht.
    assert (i = 20) as ->.
    { destruct Hinv as [_ _ _ _ Hroot _ _ _]. simpl in Hroot.
      pose proof (ht_root t Ht) as Hr. apply Hroot in Hr; [set_solver|].
      rewrite (ht_length t Ht). lia. }
    done.
  - simp join. simpl.
    destruct (tree_inv_step _ _ _ _ _ _ Hinv) as (Hi & Hj & Hinv').
    pose proof (order_inv_step _ _ _ _ _ _ _ _ Hinv Hord) as Hord'.
    unfold set_item.
    rewrite decide_True by (rewrite length_app; simpl; lia). cbn [mbind res_bind].
    rewrite decide_True by (rewrite length_insert, length_app; simpl; lia).
    cbn [mbind res_bind].
    eapply (IH (length (put ((ci + cj)%Z, length t) q))); [|done|done|done].
    rewrite length_put. simpl in Hn. lia.
Qed.

(** Among the internal nodes, a node made later is not deeper. *)
Lemma internal_depth counts t W c :
  huffman_tree t -> order_inv counts [(c, 20)] t W ->
  forall p' p, 11 <= p <= p' -> p' < 21 ->
    length (huffman_codes t !!! p') <= length (huffman_codes t !!! p).
Proof.
  intros Ht Hord p'. remember (20 - p') as n eqn:Hn. revert p' Hn.
  induction n as [n IH] using lt_wf_ind. intros p' Hn p Hp Hp'.
  destruct (huffman_tree_codes t Ht) as (_ & Hroot & _).
  destruct (decide (p' = 20)) as [->|Hp20]; [rewrite Hroot; simpl; lia|].
  destruct (code_parent t p Ht ltac:(lia)) as (u & b & Hu & ? & ? & -> & _).
  destruct (code_parent t p' Ht ltac:(lia)) as (u' & b' & Hu' & ? & ? & -> & _).
  rewrite !length_app. simpl.
  assert (Huu : u <= u').
  { destruct (decide (u <= u')) as [|Hgt]; [done|].
    assert (Hle : item_le (W !!! p', p') (W !!! p, p)).
    { apply (oi_order _ _ _ _ Hord p' p u' u); [done|done|lia|unfold root; lia]. }
    pose proof (oi_mono _ _ _ _ Hord p p' ltac:(lia)
                  ltac:(rewrite (ht_length t Ht); lia)) as Hm.
    apply item_le_inv in Hle.
    assert (p = p') as -> by lia. assert (u = u') by congruence. lia. }
  specialize (IH (20 - u') ltac:(lia) u' eq_refl u ltac:(lia) ltac:(lia)). lia.
Qed.

(** X18: a symbol that is counted more often never has a longer code.
    For every table of 11 counts, none negative, and two symbols of which
    the second has the greater count, the code of the second is at most as
    long as the code of the first. *)
Theorem frequent_symbols_have_short_codes counts :
  length counts = 11 -> Forall (fun c => 0 <= c)%Z counts ->
  exists t, tree counts = Ok t /\
    forall x y cx cy,
      huffman t !! x = Some cx -> huffman t !! y = Some cy ->
      (counts !!! x < counts !!! y)%Z -> length cy <= length cx.
Proof.
  intros Hlen Hpos.
  destruct (join_order counts _ _ _ counts eq_refl (tree_inv_init counts Hlen)
              (order_inv_init counts Hlen Hpos)) as (t & W & c & Htree & Ht & Hord).
  exists t. split; [done|]. intros x y cx cy Hx Hy Hlt.
  unfold huffman in Hx, Hy.
  apply lookup_take_Some in Hx as [Hx Hx11]. apply lookup_take_Some in Hy as [Hy Hy11].
  apply list_lookup_total_correct in Hx, Hy. subst cx cy.
  destruct (code_parent t x Ht ltac:(lia)) as (u & b & Hu & ? & ? & -> & _).
  destruct (code_parent t y Ht ltac:(lia)) as (u' & b' & Hu' & ? & ? & -> & _).
  rewrite !length_app. simpl.
  assert (Huu : u <= u').
  { destruct (decide (u <= u')) as [|Hgt]; [done|].
    assert (Hle : item_le (W !!! y, y) (W !!! x, x)).
    { apply (oi_order _ _ _ _ Hord y x u' u); [done|done|lia|unfold root; lia]. }
    rewrite !(oi_leaves _ _ _ _ Hord) in Hle by done.
    apply item_le_inv in Hle. lia. }
  pose proof (internal_depth counts t W c Ht Hord u' u ltac:(lia) ltac:(lia)). lia.
Qed.

Lemma frequent_symbols_have_short_codes_witness :
  length sample_counts = 11 /\ Forall (fun c => 0 <= c)%Z sample_counts /\
  exists t, tree sample_counts = Ok t /\
    forall x y cx cy,
      huffman t !! x = Some cx -> huffman t !! y = Some cy ->
      (sample_counts !!! x < sample_counts !!! y)%Z -> length cy <= length cx.
Proof.
  assert (Hpos : Forall (fun c => 0 <= c)%Z sample_counts)
    by (repeat constructor; lia).
  split; [reflexivity|]. split; [exact Hpos|].
  apply (frequent_symbols_have_short_codes sample_counts); [reflexivity|exact Hpos].
Defined.

(** ** A header that makes the decoder run forever *)

Lemma matches_not_binary (B : str) c code :
  binary B -> c <> "0" -> c <> "1" -> matches B (c :: code) = false.
Proof.
  intros HB H0 H1. unfold matches. apply andb_false_iff. right.
  apply bool_decide_eq_false. intros Heq.
  destruct B as [|b B]; [done|]. simpl in Heq. injection Heq as -> _.
  apply Forall_cons in HB as [[?|?] _]; done.
Qed.

(** With the table of [stray_header], every turn of the inner loop finds
    the empty code of symbol 1 at the start of the buffer and appends the
    digit 1 to the number: the loop never ends. *)
Lemma stray_codes_loop i : forall fuel st,
  binary (buffer st) -> (forall c, head (number st) = Some c -> c = "1") ->
  decode_codes fuel stray_codes i st = Err OutOfFuel.
Proof.
  induction fuel as [|fuel IH]; intros st HB Hnum; [done|].
  rewrite decode_codes_S.
  rewrite decide_False.
  2: { intros Heq. rewrite Heq in Hnum. by specialize (Hnum "-" eq_refl). }
  change (py_get stray_codes (-1)) with (@Ok str ["2"; "0"]). cbn [mbind res_bind].
  rewrite matches_not_binary by done.
  change (seq 0 10) with (0 :: 1 :: seq 2 8). cbn [find_digit].
  change (get_item stray_codes 0) with (@Ok str ["2"; "9"]).
  change (get_item stray_codes 1) with (@Ok str []). cbn [mbind res_bind].
  rewrite matches_not_binary by done.
  assert (matches (buffer st) [] = true) as -> by (by destruct (buffer st)).
  cbn [mbind res_bind]. cbn zeta.
  rewrite decide_False by lia. apply IH; cbn [buffer number].
  - done.
  - intros c. destruct (number st) as [|d num]; simpl.
    + by intros [= <-].
    + intros [= <-]. by apply Hnum.
Qed.

(** X19: a malformed header can make DECODE run forever.  After the eight
    bytes of [stray_header], whose table gives symbol 1 the empty code and
    gives the separator and symbol 0 codes that no bit starts, DECODE on at
    least one more byte reaches every bound on the turns of its inner loop,
    whatever the bytes and the line count: the loop appends the digit 1 to
    the number without end. *)
Theorem stray_header_runs_forever rest fuel i :
  rest <> [] -> Forall byte rest ->
  DECODE fuel i (stray_header ++ rest) = Err OutOfFuel.
Proof.
  intros Hne Hrest. destruct rest as [|v rest]; [done|].
  apply Forall_cons in Hrest as [Hv _].
  destruct (byte_facts v Hv) as (_ & _ & _ & _ & _ & Hbin).
  unfold DECODE.
  change (read_header (stray_header ++ v :: rest) [])
    with (@Ok (list nat * str * list Z)
            ([11; 25; 11; 11; 11; 11; 11; 11; 11; 11; 11; 14; 14; 14; 26],
             ["0"; "0"; "0"; "0"], v :: rest)).
  cbn [mbind res_bind].
  change (huffman [11; 25; 11; 11; 11; 11; 11; 11; 11; 11; 11; 14; 14; 14; 26])
    with stray_codes.
  rewrite decode_loop_cons. cbn [writing].
  rewrite stray_codes_loop; [done| |done].
  cbn [buffer with_buffer]. apply Forall_app. split; [|done].
  repeat constructor.
Qed.

Lemma stray_header_runs_forever_witness :
  [7%Z] <> [] /\ Forall byte [7%Z] /\
  DECODE 1000 3 (stray_header ++ [7%Z]) = Err OutOfFuel.
Proof.
  assert (Hrest : Forall byte [7%Z]) by (repeat constructor; unfold byte; lia).
  split; [discriminate|]. split; [exact Hrest|].
  apply (stray_header_runs_forever [7%Z] 1000 3); [discriminate|exact Hrest].
Defined.
